(** * generate_context.py: a shallow embedding and its verified properties

    The development follows the layout of the script: configuration
    constants, utility functions, the directory-tree renderer, the
    per-file content extractor, and the main processing loop with its
    summary footer.

    Conventions.
    - A Python [str] is a [string]; its elements stand for the characters
      of the text, so [String.length] is Python's [len].  The texts are
      those with characters up to U+00FF.
    - A Python [int] is a [Z]; a loop index or a depth, which is never
      negative, is a [nat].
    - A Python set of names is a list used only through membership.
    - What the operating system and the [json] library answer for one path
      is gathered in a record ([file_view]); an exception caught by the
      script is a value carrying the exception's text. *)

From Stdlib Require Import String Ascii List ZArith Lia Bool Arith.
From Stdlib Require Import DecimalString.
From Stdlib Require Import Sorting.Permutation Sorting.Sorted.
From Stdlib Require Import Structures.OrderedTypeEx.
Import ListNotations.

Local Open Scope string_scope.
Local Open Scope Z_scope.

(** [++] is kept for the concatenation of texts; lists are appended with
    [+:+]. *)
Notation "l +:+ r" := (@app _ l r) (at level 60, right associativity).

(* ====================================================================== *)
(** ** Python string primitives                                            *)
(* ====================================================================== *)

(** The character [chr(10)]. *)
Definition NL : string := String (ascii_of_nat 10) EmptyString.

(** The double-quote character as a one-character string. *)
Definition DQUOTE : string := String (ascii_of_nat 34) EmptyString.

(** The single-quote character as a one-character string. *)
Definition SQUOTE : string := String (ascii_of_nat 39) EmptyString.

(** The backslash character as a one-character string. *)
Definition BACKSLASH : string := String (ascii_of_nat 92) EmptyString.

(** [len(s)] as a Python integer. *)
Definition len (s : string) : Z := Z.of_nat (String.length s).

(** [len(l)] for a list. *)
Definition llen {A : Type} (l : list A) : Z := Z.of_nat (List.length l).

(** [str(n)] for an integer [n]. *)
Definition str_of_int (n : Z) : string := NilZero.string_of_int (Z.to_int n).

(** [sep.join(parts)]. *)
Definition join (sep : string) (parts : list string) : string :=
  String.concat sep parts.

(** [s.split(c)] for a one-character separator [c]: the result is never
    empty, and the empty text splits into one empty piece. *)
Fixpoint split_on (c : ascii) (s : string) : list string :=
  match s with
  | EmptyString => [EmptyString]
  | String a r =>
      if Ascii.eqb a c then EmptyString :: split_on c r
      else match split_on c r with
           | h :: t => String a h :: t
           | [] => [String a EmptyString]
           end
  end.

(** [s.split('\n')]. *)
Definition split_lines (s : string) : list string :=
  split_on (ascii_of_nat 10) s.

(** Iterating a text-mode file handle: the lines of [s], each keeping its
    terminating newline; the empty text has no line. *)
Fixpoint file_lines (s : string) : list string :=
  match s with
  | EmptyString => []
  | String a r =>
      if Ascii.eqb a (ascii_of_nat 10) then String a EmptyString :: file_lines r
      else match file_lines r with
           | h :: t => String a h :: t
           | [] => [String a EmptyString]
           end
  end.

(** [s.startswith(p)]. *)
Definition startswith (s p : string) : bool := String.prefix p s.

(** [s.endswith(suf)]. *)
Fixpoint endswith (s suf : string) : bool :=
  String.eqb s suf ||
  match s with
  | EmptyString => false
  | String _ r => endswith r suf
  end.

(** [s[:n]]: the first [n] characters. *)
Fixpoint str_take (n : nat) (s : string) : string :=
  match n, s with
  | S n', String a r => String a (str_take n' r)
  | _, _ => EmptyString
  end.

(** [s[n:]]: the text without its first [n] characters. *)
Fixpoint str_drop (n : nat) (s : string) : string :=
  match n, s with
  | S n', String _ r => str_drop n' r
  | _, _ => s
  end.

(** Lower-casing of one character: the letters A to Z and, past ASCII,
    the capital letters U+00C0 to U+00DE, which lie 32 below their small
    letters; the multiplication sign U+00D7 among them is no letter and
    stays. *)
Definition lower_ascii (a : ascii) : ascii :=
  let n := nat_of_ascii a in
  if ((Nat.leb 65 n && Nat.leb n 90)
      || (Nat.leb 192 n && Nat.leb n 222 && negb (Nat.eqb n 215)))%bool
  then ascii_of_nat (n + 32) else a.

(** [s.lower()]. *)
Fixpoint lower (s : string) : string :=
  match s with
  | EmptyString => EmptyString
  | String a r => String (lower_ascii a) (lower r)
  end.

(** [x in names] for a set or list of strings. *)
Definition str_in (x : string) (names : list string) : bool :=
  existsb (String.eqb x) names.

(** The text without its leading dots. *)
Fixpoint strip_leading_dots (s : string) : string :=
  match s with
  | String "." r => strip_leading_dots r
  | _ => s
  end.

(** The suffix of [s] that starts at its last dot, when it has one. *)
Fixpoint from_last_dot (s : string) : option string :=
  match s with
  | EmptyString => None
  | String a r =>
      match from_last_dot r with
      | Some e => Some e
      | None => if Ascii.eqb a "." then Some s else None
      end
  end.

(** [os.path.splitext(name)[1]] for a name without a path separator: the
    suffix from the last dot, where the dots that start the name do not
    count (so [".bashrc"] has no extension). *)
Definition splitext_ext (name : string) : string :=
  match from_last_dot (strip_leading_dots name) with
  | Some e => e
  | None => EmptyString
  end.

(** [os.path.basename(p)]: what follows the last separator. *)
Definition basename (p : string) : string :=
  last (split_on "/" p) EmptyString.

(** Two lower-case hexadecimal digits of a character code. *)
Definition hex_digit (n : nat) : string :=
  str_take 1 (str_drop n "0123456789abcdef").

Definition hex2 (n : nat) : string :=
  hex_digit (Nat.div n 16) ++ hex_digit (Nat.modulo n 16).

(** [c in s] for a character [c]. *)
Fixpoint has_char (c : ascii) (s : string) : bool :=
  match s with
  | EmptyString => false
  | String a r => Ascii.eqb a c || has_char c r
  end.

(** The body of [repr(s)] for a string: the quote character in use and the
    backslash are escaped, tab, newline and carriage return are written
    with their letters, and the other characters that are not printable
    in hexadecimal: the control characters below U+0020, U+007F, the
    characters U+0080 to U+00A0 (the second control block and the
    no-break space) and the soft hyphen U+00AD.  The other characters are
    copied. *)
Fixpoint repr_body (quote : ascii) (s : string) : string :=
  match s with
  | EmptyString => EmptyString
  | String a r =>
      let n := nat_of_ascii a in
      (if (Ascii.eqb a quote || Ascii.eqb a (ascii_of_nat 92))%bool
       then BACKSLASH ++ String a EmptyString
       else if Nat.eqb n 9 then BACKSLASH ++ "t"
       else if Nat.eqb n 10 then BACKSLASH ++ "n"
       else if Nat.eqb n 13 then BACKSLASH ++ "r"
       else if (Nat.ltb n 32 || Nat.eqb n 127
                || (Nat.leb 128 n && Nat.leb n 160) || Nat.eqb n 173)%bool
       then BACKSLASH ++ "x" ++ hex2 n
       else String a EmptyString) ++ repr_body quote r
  end.

(** [repr(s)] for a string: single quotes, unless the text holds a single
    quote and no double quote. *)
Definition repr_str (s : string) : string :=
  let quote :=
    if (has_char (ascii_of_nat 39) s && negb (has_char (ascii_of_nat 34) s))%bool
    then ascii_of_nat 34 else ascii_of_nat 39 in
  String quote EmptyString ++ repr_body quote s ++ String quote EmptyString.

(** [repr(l)] for a list whose elements are printed by [repr_elt]. *)
Definition repr_list {A : Type} (repr_elt : A -> string) (l : list A) : string :=
  "[" ++ join ", " (map repr_elt l) ++ "]".

(** [f"{n:,}"]: the decimal digits grouped by three from the right. *)
Fixpoint group3 (fuel : nat) (n : Z) : string :=
  match fuel with
  | O => str_of_int n
  | S fuel' =>
      if n <? 1000 then str_of_int n
      else
        let r := n mod 1000 in
        group3 fuel' (n / 1000) ++ "," ++
        (if r <? 10 then "00" else if r <? 100 then "0" else EmptyString) ++
        str_of_int r
  end.

Definition format_commas (n : Z) : string :=
  if n <? 0 then "-" ++ group3 (Z.to_nat (- n)) (- n)
  else group3 (Z.to_nat n) n.

(* ====================================================================== *)
(** ** CONFIGURATION                                                       *)
(* ====================================================================== *)

Definition OUTPUT_FILE : string := "directory_info.txt".

(** ["=" * 80] and ["-" * 40]. *)
Fixpoint str_repeat (c : ascii) (n : nat) : string :=
  match n with
  | O => EmptyString
  | S n' => String c (str_repeat c n')
  end.

Definition SEPARATOR : string := NL ++ str_repeat "=" 80 ++ NL.
Definition THIN_SEPARATOR : string := NL ++ str_repeat "-" 40 ++ NL.

Definition DIRS_TO_EXCLUDE : list string :=
  [".git"; "venv"; "env"; ".venv"; "__pycache__"; ".idea"; ".vscode";
   "node_modules"; ".mypy_cache"; ".pytest_cache"; ".tox"; ".eggs";
   "*.egg-info"; "dist"; "build"; ".cache"; ".coverage"; "htmlcov";
   ".ipynb_checkpoints"; ".terraform"; ".serverless"].

Definition DIRS_TO_SUMMARIZE : list string :=
  ["signals"; "unprocessed"; "data"; "datasets"; "logs"; "outputs";
   "checkpoints"; "models"; "weights"; "assets"; "static"; "migrations"].

Definition EXTENSIONS_TO_SKIP : list string :=
  [".flac"; ".wav"; ".mp3"; ".ogg"; ".m4a"; ".aac"; ".wma"; ".aiff";
   ".mp4"; ".avi"; ".mkv"; ".mov"; ".wmv"; ".webm"; ".flv";
   ".png"; ".jpg"; ".jpeg"; ".gif"; ".bmp"; ".tiff"; ".ico"; ".webp"; ".svg";
   ".pdf"; ".doc"; ".docx"; ".xls"; ".xlsx"; ".ppt"; ".pptx"; ".odt";
   ".zip"; ".rar"; ".7z"; ".tar"; ".gz"; ".bz2"; ".xz"; ".zst";
   ".exe"; ".dll"; ".so"; ".dylib"; ".bin"; ".o"; ".a"; ".lib";
   ".pkl"; ".pickle"; ".npy"; ".npz"; ".h5"; ".hdf5";
   ".pt"; ".pth"; ".ckpt"; ".safetensors"; ".onnx"; ".pb";
   ".db"; ".sqlite"; ".sqlite3"; ".mdb";
   ".pyc"; ".pyo"; ".class"; ".jar"; ".war"; ".woff"; ".woff2"; ".ttf"; ".eot"].

Definition TEXT_EXTENSIONS : list string :=
  [".py"; ".js"; ".ts"; ".jsx"; ".tsx"; ".java"; ".c"; ".cpp"; ".h"; ".hpp";
   ".cs"; ".go"; ".rs"; ".rb"; ".php"; ".swift"; ".kt"; ".scala"; ".r";
   ".lua"; ".pl"; ".pm"; ".sh"; ".bash"; ".zsh"; ".fish"; ".ps1"; ".bat"; ".cmd";
   ".json"; ".yaml"; ".yml"; ".toml"; ".ini"; ".cfg"; ".conf"; ".config";
   ".env"; ".env.example"; ".env.local"; ".properties";
   ".md"; ".rst"; ".txt"; ".adoc";
   ".html"; ".htm"; ".css"; ".scss"; ".sass"; ".less"; ".vue"; ".svelte";
   ".xml"; ".csv"; ".sql";
   ".gitignore"; ".dockerignore"; ".editorconfig"; ".prettierrc"; ".eslintrc"].

Definition PRIORITY_FILES : list string :=
  ["README.md"; "readme.md"; "README.rst"; "README.txt"; "README";
   "pyproject.toml"; "setup.py"; "setup.cfg"; "requirements.txt";
   "package.json"; "Cargo.toml"; "go.mod"; "Gemfile"; "pom.xml";
   "Makefile"; "Dockerfile"; "docker-compose.yml"; "docker-compose.yaml";
   ".env.example"; "config.yaml"; "config.json"; "settings.py";
   "main.py"; "app.py"; "index.js"; "index.ts"; "main.go"; "main.rs"].

Definition MAX_FILES_PER_DIR : Z := 30.
Definition MAX_FILE_SIZE_FULL : Z := 20000.
Definition MAX_FILE_SIZE_PARTIAL : Z := 200000.
Definition MAX_LINES_PREVIEW : Z := 100.
Definition ESTIMATED_CHARS_PER_TOKEN : Z := 4.

(* ====================================================================== *)
(** ** UTILITY FUNCTIONS                                                   *)
(* ====================================================================== *)

(** [estimate_tokens(text)]: [len(text) // ESTIMATED_CHARS_PER_TOKEN]. *)
Definition estimate_tokens (text : string) : Z :=
  len text / ESTIMATED_CHARS_PER_TOKEN.

(** Rounding of the rational [n / d] ([d > 0]) to the nearest integer,
    ties to the even one. *)
Definition round_half_even (n d : Z) : Z :=
  let q := n / d in
  let r := n mod d in
  if 2 * r <? d then q
  else if d <? 2 * r then q + 1
  else if Z.even q then q else q + 1.

(** [f"{x:.1f}"] for the non-negative value [x = num / den].  In
    [format_size] the value is a byte count divided by a power of 1024,
    which a double holds exactly for every count below 2^53, so the
    correctly rounded formatting of the double is the rounding of the
    rational. *)
Definition format_1f (num den : Z) : string :=
  let tenths := round_half_even (10 * num) den in
  str_of_int (tenths / 10) ++ "." ++ str_of_int (tenths mod 10).

(** The loop of [format_size] over the remaining units; the running value
    of [size_bytes] is [num / den]. *)
Fixpoint format_size_loop (units : list string) (num den : Z) : string :=
  match units with
  | [] => format_1f num den ++ "TB"
  | unit :: rest =>
      if num <? 1024 * den then
        if negb (String.eqb unit "B") then format_1f num den ++ unit
        else str_of_int num ++ unit
      else format_size_loop rest num (den * 1024)
  end.

(** [format_size(size_bytes)]. *)
Definition format_size (size_bytes : Z) : string :=
  format_size_loop ["B"; "KB"; "MB"; "GB"] size_bytes 1.

(** [should_exclude_dir(dirname, exclude_set)]: an exact name, or a pattern
    with a leading star whose rest ends the name. *)
Definition should_exclude_dir (dirname : string) (exclude_set : list string) : bool :=
  if str_in dirname exclude_set then true
  else existsb (fun pattern =>
                  startswith pattern "*" && endswith dirname (str_drop 1 pattern))%bool
               exclude_set.

(* ====================================================================== *)
(** ** FILE CONTENT EXTRACTION                                             *)
(* ====================================================================== *)

(** The outcome of an operation inside a [try] block: its value, or the
    text of the exception it raised. *)
Inductive io (A : Type) : Type :=
| Returned (a : A)
| Raised (e : string).
Arguments Returned {A} a.
Arguments Raised {A} e.

(** *** Notebooks *)

(** The ["source"] entry of a cell: a list of strings or one string. *)
Inductive nb_source : Type :=
| SrcList (parts : list string)
| SrcStr (s : string).

(** One cell of a well-formed notebook; an entry may be missing from the
    cell's dictionary. *)
Record nb_cell : Type := mk_cell {
  cell_type : option string;
  cell_source : option nb_source
}.

(** A well-formed notebook: a dictionary whose ["cells"] entry, when
    present, is a list of cells. *)
Record notebook : Type := mk_notebook {
  nb_cells : option (list nb_cell)
}.

(** [enumerate(l)]. *)
Definition enumerate {A : Type} (l : list A) : list (nat * A) :=
  combine (seq 0 (List.length l)) l.

(** [cell.get('cell_type', 'unknown')]. *)
Definition get_cell_type (cell : nb_cell) : string :=
  match cell_type cell with
  | Some t => t
  | None => "unknown"
  end.

(** [cell.get('source', [])], joined when it is a list. *)
Definition get_source (cell : nb_cell) : string :=
  match cell_source cell with
  | Some (SrcStr s) => s
  | Some (SrcList parts) => join EmptyString parts
  | None => join EmptyString []
  end.

Definition code_marker (i : nat) : string :=
  NL ++ "# --- Cell " ++ str_of_int (Z.of_nat i + 1) ++ " [Code] ---".

Definition markdown_marker (i : nat) : string :=
  NL ++ "# --- Cell " ++ str_of_int (Z.of_nat i + 1) ++ " [Markdown] ---".

(** One iteration of the loop over [enumerate(cells)]: the list
    [content_parts] after the appends of this cell. *)
Definition nb_cell_step (content_parts : list string) (ic : nat * nb_cell)
  : list string :=
  let '(i, cell) := ic in
  let ctype := get_cell_type cell in
  let source := get_source cell in
  if String.eqb ctype "code" then
    (content_parts +:+ [code_marker i]) +:+ [source]
  else if (String.eqb ctype "markdown" && (len source <? 500))%bool then
    fold_left (fun parts line => parts +:+ ["# " ++ line])
              (split_lines source)
              (content_parts +:+ [markdown_marker i])
  else content_parts.

Definition is_cell_of (kind : string) (c : nb_cell) : bool :=
  match cell_type c with
  | Some t => String.eqb t kind
  | None => false
  end.

(** The list [content_parts] at the end of [extract_ipynb_code]. *)
Definition notebook_parts (nb : notebook) : list string :=
  let cells := match nb_cells nb with Some cs => cs | None => [] end in
  let code_cells := filter (is_cell_of "code") cells in
  let markdown_cells := filter (is_cell_of "markdown") cells in
  let header :=
    "# Jupyter Notebook: " ++ str_of_int (llen code_cells) ++ " code cells, "
      ++ str_of_int (llen markdown_cells) ++ " markdown cells" ++ NL in
  fold_left nb_cell_step (enumerate cells) [header].

(** [extract_ipynb_code(filepath)], given what opening and parsing the
    file gives: a well-formed notebook, or an exception (unreadable file,
    malformed JSON, or a document that is not a well-formed notebook). *)
Definition extract_ipynb_code (loaded : io notebook) : string :=
  match loaded with
  | Returned nb => join NL (notebook_parts nb)
  | Raised e => "Error reading notebook: " ++ e
  end.

(** *** JSON values *)

#[local] Set Warnings "-register-all".

(** What [json.load] returns.  A float is carried by its [repr] text:
    the script only prints it. *)
Inductive json : Type :=
| JNone
| JBool (b : bool)
| JInt (n : Z)
| JFloat (text : string)
| JStr (s : string)
| JList (items : list json)
| JDict (entries : list (string * json)).

(** [isinstance(x, (str, int, float, bool, type(None)))]. *)
Definition is_scalar (x : json) : bool :=
  match x with
  | JList _ | JDict _ => false
  | _ => true
  end.

(** [repr(data)]. *)
Fixpoint repr_json (data : json) : string :=
  match data with
  | JNone => "None"
  | JBool true => "True"
  | JBool false => "False"
  | JInt n => str_of_int n
  | JFloat text => text
  | JStr s => repr_str s
  | JList items => "[" ++ join ", " (map repr_json items) ++ "]"
  | JDict entries =>
      "{" ++ join ", " (map (fun kv => repr_str (fst kv) ++ ": " ++ repr_json (snd kv))
                            entries) ++ "}"
  end.

(** [summarize_json_structure(data, max_depth, current_depth, max_items,
    indent)].  The loops run over [items[:max_items]]; here the rendering
    is mapped over the whole list and the first [max_items] results are
    kept, which is the same list ([firstn_map]). *)
Fixpoint summarize_json_structure (data : json) (max_depth current_depth : nat)
    (max_items : nat) (indent : string) {struct data} : string :=
  if Nat.leb max_depth current_depth then
    match data with
    | JDict entries => "{...} (" ++ str_of_int (llen entries) ++ " keys)"
    | JList items => "[...] (" ++ str_of_int (llen items) ++ " items)"
    | _ => str_take 50 (repr_json data)
    end
  else
    let next_indent := indent ++ "  " in
    match data with
    | JDict entries =>
        match entries with
        | [] => "{}"
        | _ =>
          let rendered :=
            map (fun kv =>
                   next_indent ++ DQUOTE ++ fst kv ++ DQUOTE ++ ": "
                   ++ summarize_json_structure (snd kv) max_depth
                        (S current_depth) max_items next_indent ++ ",")
                entries in
          join NL
            (["{"] +:+ firstn max_items rendered
             +:+ (if Z.of_nat max_items <? llen entries
                  then [next_indent ++ "... +"
                        ++ str_of_int (llen entries - Z.of_nat max_items)
                        ++ " more keys"]
                  else [])
             +:+ [indent ++ "}"])
        end
    | JList items =>
        match items with
        | [] => "[]"
        | _ =>
          if ((llen items <=? 3) && forallb is_scalar items)%bool then repr_json data
          else
            let rendered :=
              map (fun item =>
                     next_indent
                     ++ summarize_json_structure item max_depth
                          (S current_depth) max_items next_indent ++ ",")
                  items in
            join NL
              (["[ // " ++ str_of_int (llen items) ++ " items"]
               +:+ firstn max_items rendered
               +:+ (if Z.of_nat max_items <? llen items
                    then [next_indent ++ "... +"
                          ++ str_of_int (llen items - Z.of_nat max_items)
                          ++ " more items"]
                    else [])
               +:+ [indent ++ "]"])
        end
    | JStr s =>
        if 60 <? len s then DQUOTE ++ str_take 60 s ++ "..." ++ DQUOTE
        else repr_json data
    | _ => repr_json data
    end.

(** What [json.load(f)] gives in the [.json] branch: the value, a
    [JSONDecodeError], or another exception. *)
Inductive json_loaded : Type :=
| Parsed (data : json)
| DecodeError (e : string)
| LoadRaised (e : string).

(** *** One file as the extractor sees it *)

(** The answers of the file system and the parsers for one path:
    - [fv_getsize]: [os.path.getsize], [None] when it raises;
    - [fv_read]: opening the file with replacement of undecodable bytes
      and reading all of it;
    - [fv_json]: [json.load] on that handle;
    - [fv_notebook]: opening the file strictly and loading a notebook. *)
Record file_view : Type := mk_file_view {
  fv_getsize : option Z;
  fv_read : io string;
  fv_json : json_loaded;
  fv_notebook : io notebook
}.

(** *** The bytes of a file and the text read from it *)

(** The characters of a line end. *)
Definition CR : ascii := ascii_of_nat 13.
Definition LF : ascii := ascii_of_nat 10.

(** The decoding of UTF-8 bytes, for the texts with characters up to
    U+00FF: a byte below 0x80 is its character, and 0xC2 or 0xC3 followed
    by a continuation byte is a character from U+0080 to U+00FF.  [None]
    when the decoding gives another character: one beyond U+00FF, or the
    replacement character that [errors='replace'] puts for bytes that are
    not UTF-8. *)
Fixpoint utf8_decode (bytes : string) : option string :=
  match bytes with
  | EmptyString => Some EmptyString
  | String a r =>
      let n := nat_of_ascii a in
      if Nat.ltb n 128 then option_map (String a) (utf8_decode r)
      else if (Nat.eqb n 194 || Nat.eqb n 195)%bool then
        match r with
        | String b r' =>
            let m := nat_of_ascii b in
            if (Nat.leb 128 m && Nat.ltb m 192)%bool then
              option_map (String (ascii_of_nat (if Nat.eqb n 194 then m else m + 64)))
                         (utf8_decode r')
            else None
        | EmptyString => None
        end
      else None
  end.

(** What a handle opened with [open(path, 'r', ...)] does to the decoded
    text on reading: [newline] is left to its default, so a carriage
    return followed by a line feed, and a carriage return alone, are both
    read as one line feed. *)
Fixpoint universal_newlines (s : string) : string :=
  match s with
  | EmptyString => EmptyString
  | String a r =>
      if Ascii.eqb a CR then
        match r with
        | EmptyString => String LF EmptyString
        | String b r' =>
            if Ascii.eqb b LF then String LF (universal_newlines r')
            else String LF (universal_newlines r)
        end
      else String a (universal_newlines r)
  end.

(** [f.read()] on a file that holds [bytes], opened in text mode as UTF-8
    with replacement. *)
Definition text_mode_read (bytes : string) : option string :=
  option_map universal_newlines (utf8_decode bytes).

(** The [.json] branch past the size test: the summary of the parsed
    value. *)
Definition json_summary (file_size : Z) (data : json) : string :=
  let summary := "[JSON file: " ++ format_size file_size ++ "]" ++ NL ++ NL in
  let summary := summary ++ summarize_json_structure data 4 0 5 EmptyString in
  match data with
  | JList items =>
      summary ++ NL ++ NL ++ "# Total items: " ++ str_of_int (llen items)
  | JDict entries =>
      summary ++ NL ++ NL ++ "# Top-level keys: "
      ++ repr_list repr_str (map fst entries)
  | _ => summary
  end.

(** [process_file_content(filepath, filename)]; [fv] is the view of
    [filepath].  [None] is Python's [None]. *)
Definition process_file_content (fv : file_view) (filename : string)
  : option string :=
  let ext := lower (splitext_ext filename) in
  match fv_getsize fv with
  | None => None
  | Some file_size =>
    if MAX_FILE_SIZE_PARTIAL <? file_size then
      Some ("[File too large: " ++ format_size file_size ++ " - skipped]")
    else if endswith filename ".ipynb" then
      Some (extract_ipynb_code (fv_notebook fv))
    else if String.eqb ext ".json" then
      if file_size <? 5000 then
        match fv_read fv with
        | Returned content => Some content
        | Raised e => Some ("[Error reading file: " ++ e ++ "]")
        end
      else
        match fv_json fv with
        | Parsed data => Some (json_summary file_size data)
        | DecodeError e => Some ("[JSON parse error: " ++ e ++ "]")
        | LoadRaised e => Some ("[Error reading file: " ++ e ++ "]")
        end
    else if String.eqb ext ".jsonl" then
      match fv_read fv with
      | Returned content =>
          let lines := firstn 5 (file_lines content) in
          match lines with
          | [] => Some "(Empty file)"
          | _ =>
            Some ("[JSONL file: " ++ format_size file_size ++ "]" ++ NL
                  ++ "# First " ++ str_of_int (llen lines) ++ " lines:" ++ NL ++ NL
                  ++ join EmptyString lines
                  ++ NL ++ "... (truncated)")
          end
      | Raised e => Some ("[Error reading file: " ++ e ++ "]")
      end
    else if str_in ext [".yaml"; ".yml"; ".toml"] then
      match fv_read fv with
      | Returned content =>
          if MAX_FILE_SIZE_FULL <? len content then
            let lines := firstn (Z.to_nat MAX_LINES_PREVIEW) (split_lines content) in
            Some (join NL lines ++ NL ++ NL ++ "... ["
                  ++ str_of_int (llen (split_lines content) - MAX_LINES_PREVIEW)
                  ++ " more lines]")
          else Some content
      | Raised e => Some ("[Error reading file: " ++ e ++ "]")
      end
    else if (str_in ext TEXT_EXTENSIONS || str_in filename PRIORITY_FILES
             || String.eqb ext EmptyString)%bool then
      match fv_read fv with
      | Returned content =>
          if MAX_FILE_SIZE_FULL <? file_size then
            let lines := firstn (Z.to_nat MAX_LINES_PREVIEW) (split_lines content) in
            Some (join NL lines ++ NL ++ NL ++ "... [truncated - "
                  ++ format_size file_size ++ " total]")
          else Some content
      | Raised e => Some ("[Error reading file: " ++ e ++ "]")
      end
    else None
  end.

(* ====================================================================== *)
(** ** MAIN PROCESSING                                                     *)
(* ====================================================================== *)

(** The [stats] dictionary of [process_files]. *)
Record file_stats : Type := mk_stats {
  processed : Z;
  skipped : Z;
  errors : Z;
  total_chars : Z
}.

(** The state of the loop of [process_files]: the counters and what has
    been written to the output handle, in order. *)
Record pf_state : Type := mk_pf {
  pf_stats : file_stats;
  pf_written : list string
}.

(** One entry of the file list: (priority, relative path, full path). *)
Definition file_record : Type := (Z * string * string)%type.

(** One iteration of the loop of [process_files].  [fs] gives the view of
    each path. *)
Definition process_one (fs : string -> file_view) (st : pf_state)
    (rec : file_record) : pf_state :=
  let '(priority, rel_path, filepath) := rec in
  let filename := basename filepath in
  let stats := pf_stats st in
  match process_file_content (fs filepath) filename with
  | None =>
      mk_pf (mk_stats (processed stats) (skipped stats + 1) (errors stats)
                      (total_chars stats))
            (pf_written st)
  | Some content =>
      let errors' :=
        if startswith content "[Error" then errors stats + 1 else errors stats in
      mk_pf (mk_stats (processed stats + 1) (skipped stats) errors'
                      (total_chars stats + len content))
            (pf_written st
               +:+ [SEPARATOR; "FILE: " ++ rel_path ++ NL; SEPARATOR; content ++ NL])
  end.

Definition initial_stats : file_stats := mk_stats 0 0 0 0.

(** [process_files(files, output_handle)]: the final counters and the
    writes, for a handle that starts with [written]. *)
Definition process_files (fs : string -> file_view) (files : list file_record)
    (written : list string) : pf_state :=
  fold_left (process_one fs) files (mk_pf initial_stats written).

(** The number printed after ["Estimated tokens: ~"] by [main]:
    [estimate_tokens(str(file_stats['total_chars']))]. *)
Definition footer_token_estimate (stats : file_stats) : Z :=
  estimate_tokens (str_of_int (total_chars stats)).

(** The writes of the summary footer of [main]. *)
Definition summary_footer (stats : file_stats) : list string :=
  [NL ++ str_repeat "=" 80 ++ NL;
   "SUMMARY" ++ NL;
   str_repeat "=" 80 ++ NL;
   "Files processed: " ++ str_of_int (processed stats) ++ NL;
   "Files skipped: " ++ str_of_int (skipped stats) ++ NL;
   "Errors: " ++ str_of_int (errors stats) ++ NL;
   "Estimated tokens: ~" ++ format_commas (footer_token_estimate stats) ++ NL].

(** The end of [main]: the file-contents block and the footer, written
    after what the handle already holds. *)
Definition main_contents_and_summary (fs : string -> file_view)
    (files : list file_record) (written : list string) : list string :=
  let st := process_files fs files (written +:+ ["FILE CONTENTS:" ++ NL]) in
  pf_written st +:+ summary_footer (pf_stats st).

(* ====================================================================== *)
(** ** DIRECTORY STRUCTURE                                                 *)
(* ====================================================================== *)

(** A snapshot of the file system below a directory.  A file carries what
    [os.path.getsize] gives ([None] when it raises); a directory carries
    what [os.listdir] gives, in the order of the operating system ([None]
    when it raises [PermissionError]), each name with its node. *)
Inductive fs_node : Type :=
| FsFile (size : option Z)
| FsDir (listing : option (list (string * fs_node))).

(** [sorted(l)] for the order [le]: insertion from the right end, which
    keeps equal elements in their original order as Python's sort does. *)
Fixpoint insert_by {A : Type} (le : A -> A -> bool) (x : A) (l : list A) : list A :=
  match l with
  | [] => [x]
  | y :: r => if le x y then x :: l else y :: insert_by le x r
  end.

Definition sorted_by {A : Type} (le : A -> A -> bool) (l : list A) : list A :=
  fold_right (insert_by le) [] l.

(** [d[k] += 1] on a [defaultdict(int)], kept in insertion order. *)
Fixpoint dict_incr (k : string) (d : list (string * Z)) : list (string * Z) :=
  match d with
  | [] => [(k, 1)]
  | kv :: r =>
      if String.eqb k (fst kv) then (fst kv, snd kv + 1) :: r
      else kv :: dict_incr k r
  end.

(** [sorted(d.items(), key=lambda x: -x[1])[:5]], each printed as
    [f"{count}{ext}"]. *)
Definition top5_parts (d : list (string * Z)) : list string :=
  map (fun kv => str_of_int (snd kv) ++ fst kv)
      (firstn 5 (sorted_by (fun a b => - snd a <=? - snd b) d)).

(** An entry of a directory as [_walk_dir] meets it: a file with its size,
    or a subdirectory with the rendering of its subtree, still waiting for
    the prefix and the last-sibling flag. *)
Inductive entry_view : Type :=
| EFile (size : option Z)
| EDir (walk : string -> bool -> list string).

Definition CONN_LAST : string := "└── ".
Definition CONN_MID : string := "├── ".
Definition INDENT_LAST : string := "    ".
Definition INDENT_MID : string := "│   ".

(** The state of the loops that number the displayed entries: the counter
    [entry_idx] and the lines appended so far. *)
Record show_state : Type := mk_show {
  entry_idx : Z;
  shown : list string
}.

(** The entries of a listing as [_walk_dir] meets them, [walk] being the
    traversal of a subdirectory given its node and its name. *)
Definition listing_view
    (walk : fs_node -> string -> string -> bool -> list string)
    (raw : list (string * fs_node)) : list (string * entry_view) :=
  map (fun e =>
         (fst e,
          match snd e with
          | FsFile size => EFile size
          | FsDir _ => EDir (walk (snd e) (fst e))
          end)) raw.

Section TreeBuilder.

(** The sets the traversal closes over, and the script's own file name
    ([os.path.basename(__file__)]). *)
Variables exclude_dirs summarize_dirs gitignore_patterns : list string.
Variable script_name : string.

(** The names kept in [dirs], each with its subtree rendering. *)
Definition kept_dirs (entries : list (string * entry_view))
  : list (string * (string -> bool -> list string)) :=
  flat_map (fun e =>
              match snd e with
              | EDir walk =>
                  if (negb (should_exclude_dir (fst e) exclude_dirs)
                      && negb (str_in (fst e) gitignore_patterns))%bool
                  then [(fst e, walk)] else []
              | EFile _ => []
              end) entries.

(** The names kept in [files], each with its size. *)
Definition kept_files (entries : list (string * entry_view))
  : list (string * option Z) :=
  flat_map (fun e =>
              match snd e with
              | EFile size =>
                  if (negb (str_in (fst e) [OUTPUT_FILE; script_name])
                      && negb (str_in (fst e) gitignore_patterns))%bool
                  then [(fst e, size)] else []
              | EDir _ => []
              end) entries.

(** The branch of a summarized directory: the lines appended after the
    directory's own line. *)
Definition summarize_branch (new_prefix : string)
    (files : list (string * option Z)) : list string :=
  let ext_counts :=
    fold_left (fun d f =>
                 let ext := lower (splitext_ext (fst f)) in
                 dict_incr (if String.eqb ext EmptyString then "(no ext)" else ext) d)
              files [] in
  let total_size :=
    fold_left (fun total f =>
                 match snd f with
                 | Some size => total + size
                 | None => total
                 end) files 0 in
  match files with
  | [] => []
  | _ =>
      [new_prefix ++ "📦 [" ++ str_of_int (llen files) ++ " files, "
       ++ format_size total_size ++ "]: " ++ join ", " (top5_parts ext_counts)]
  end.

(** One iteration of the loop over [files_to_show[:MAX_FILES_PER_DIR]]. *)
Definition show_file (new_prefix : string) (total_entries : Z)
    (st : show_state) (f : string * option Z) : show_state :=
  let idx := entry_idx st + 1 in
  let is_last_entry := idx =? total_entries in
  let file_connector := if is_last_entry then CONN_LAST else CONN_MID in
  let size_str :=
    match snd f with
    | Some size => " (" ++ format_size size ++ ")"
    | None => EmptyString
    end in
  mk_show idx (shown st +:+ [new_prefix ++ file_connector ++ fst f ++ size_str]).

(** The ["... and N more files"] step. *)
Definition show_overflow (new_prefix : string) (total_entries : Z)
    (files_to_show : list (string * option Z)) (st : show_state) : show_state :=
  if MAX_FILES_PER_DIR <? llen files_to_show then
    let idx := entry_idx st + 1 in
    let connector := if idx =? total_entries then CONN_LAST else CONN_MID in
    mk_show idx
      (shown st +:+ [new_prefix ++ connector ++ "... and "
                     ++ str_of_int (llen files_to_show - MAX_FILES_PER_DIR)
                     ++ " more files"])
  else st.

(** The ["[skipped: ...]"] step. *)
Definition show_skipped (new_prefix : string) (total_entries : Z)
    (skipped_by_ext : list (string * Z)) (st : show_state) : show_state :=
  match skipped_by_ext with
  | [] => st
  | _ =>
    let idx := entry_idx st + 1 in
    let connector := if idx =? total_entries then CONN_LAST else CONN_MID in
    mk_show idx
      (shown st +:+ [new_prefix ++ connector ++ "[skipped: "
                     ++ join ", " (top5_parts skipped_by_ext) ++ "]"])
  end.

(** The extension test of the file loop. *)
Definition skip_by_ext (f : string * option Z) : bool :=
  str_in (lower (splitext_ext (fst f))) EXTENSIONS_TO_SKIP.

(** The branch of a listed directory: the lines appended after the
    directory's own line. *)
Definition list_branch (new_prefix : string)
    (dirs : list (string * (string -> bool -> list string)))
    (files : list (string * option Z)) : list string :=
  let files_to_show := filter (fun f => negb (skip_by_ext f)) files in
  let skipped_by_ext :=
    fold_left (fun d f =>
                 if skip_by_ext f then dict_incr (lower (splitext_ext (fst f))) d
                 else d) files [] in
  let total_entries :=
    llen dirs + llen files_to_show
    + (match skipped_by_ext with [] => 0 | _ => 1 end) in
  let st := mk_show 0 [] in
  let st := fold_left (show_file new_prefix total_entries)
                      (firstn (Z.to_nat MAX_FILES_PER_DIR) files_to_show) st in
  let st := show_overflow new_prefix total_entries files_to_show st in
  let st := show_skipped new_prefix total_entries skipped_by_ext st in
  shown st
  +:+ flat_map (fun id =>
                  snd (snd id) new_prefix
                      ((Z.of_nat (fst id) =? llen dirs - 1)
                       && (entry_idx st =? total_entries))%bool)
               (enumerate dirs).

(** The body of [_walk_dir] for the directory [name], given its listing
    with the subtrees already turned into renderings. *)
Definition render_dir (is_root : bool) (name prefix : string) (is_last : bool)
    (listing : option (list (string * entry_view))) : list string :=
  let connector := if is_last then CONN_LAST else CONN_MID in
  let header :=
    if is_root then name ++ "/" else prefix ++ connector ++ name ++ "/" in
  let new_prefix :=
    if is_root then EmptyString
    else prefix ++ (if is_last then INDENT_LAST else INDENT_MID) in
  match listing with
  | None => [header; new_prefix ++ "[Permission Denied]"]
  | Some raw =>
      let entries := sorted_by (fun a b => String.leb (fst a) (fst b)) raw in
      let dirs := kept_dirs entries in
      let files := kept_files entries in
      if str_in name summarize_dirs then
        header :: summarize_branch new_prefix files
      else
        header :: list_branch new_prefix dirs files
  end.

(** [_walk_dir(path, prefix, is_last)] for the directory [node] whose
    base name is [name]; [is_root] is the test [path == rootdir].  The
    result is the list of the lines appended to [lines], in order.  The
    traversal only enters directories, a file node renders nothing.  The
    counters of [stats] are incremented on the way and never read; they
    play no part in the text and are left out. *)
Fixpoint _walk_dir (node : fs_node) (is_root : bool) (name prefix : string)
    (is_last : bool) {struct node} : list string :=
  match node with
  | FsFile _ => []
  | FsDir listing =>
      render_dir is_root name prefix is_last
        (option_map
           (listing_view (fun child child_name => _walk_dir child false child_name))
           listing)
  end.

(** The text returned by [get_directory_structure(rootdir, ...)], for a
    root directory named [root_name] with the snapshot [root]. *)
Definition get_directory_structure (root_name : string) (root : fs_node) : string :=
  join NL (_walk_dir root true root_name EmptyString true).

End TreeBuilder.

(* ====================================================================== *)
(** ** Notions used to state the properties                                *)
(* ====================================================================== *)

(** The extension that dispatch looks at: [splitext(filename)[1].lower()]. *)
Definition file_ext (filename : string) : string :=
  lower (splitext_ext filename).

(** No dispatch rule of [process_file_content] applies to the name: it is
    not a notebook name, its extension is none of the structured or
    declarative ones, it is not in the text allow-list, the name is not a
    priority file name, and the extension is not empty. *)
Definition matches_no_rule (filename : string) : bool :=
  (negb (endswith filename ".ipynb")
   && negb (str_in (file_ext filename) [".json"; ".jsonl"; ".yaml"; ".yml"; ".toml"])
   && negb (str_in (file_ext filename) TEXT_EXTENSIONS)
   && negb (str_in filename PRIORITY_FILES)
   && negb (String.eqb (file_ext filename) EmptyString))%bool.

(** What one notebook cell contributes to the extracted parts, stated per
    cell: a code cell gives its marker and its whole source; a markdown
    cell shorter than 500 characters gives its marker and each of its
    lines behind a comment prefix; any other cell gives nothing. *)
Definition spec_cell_lines (ic : nat * nb_cell) : list string :=
  let '(i, cell) := ic in
  if is_cell_of "code" cell then [code_marker i; get_source cell]
  else if is_cell_of "markdown" cell then
    if len (get_source cell) <? 500
    then markdown_marker i :: map (fun line => "# " ++ line) (split_lines (get_source cell))
    else []
  else [].

(** The first line of an extracted notebook. *)
Definition notebook_header (cells : list nb_cell) : string :=
  "# Jupyter Notebook: " ++ str_of_int (llen (filter (is_cell_of "code") cells))
    ++ " code cells, "
    ++ str_of_int (llen (filter (is_cell_of "markdown") cells))
    ++ " markdown cells" ++ NL.

(** A text of [n] copies of one character, for concrete inputs. *)
Definition text_of_length (n : Z) : string := str_repeat "a" (Z.to_nat n).

(** An equality test on optional texts, so that a concrete evaluation can
    be checked by computation on booleans. *)
Definition returns_text (o : option string) (s : string) : bool :=
  match o with
  | Some c => String.eqb c s
  | None => false
  end.

(** The summary as [process_file_content] calls it: depth bound 4, at most
    5 items. *)
Definition summary_at (data : json) (depth : nat) (indent : string) : string :=
  summarize_json_structure data 4 depth 5 indent.

(** *** The tree *)

(** The order of [sorted(os.listdir(path))]: by name. *)
Definition name_le {A : Type} (a b : string * A) : bool :=
  String.leb (fst a) (fst b).

(** The line of a directory itself and the prefix of the lines below it. *)
Definition dir_header (is_root : bool) (name prefix : string) (is_last : bool)
  : string :=
  if is_root then name ++ "/"
  else prefix ++ (if is_last then CONN_LAST else CONN_MID) ++ name ++ "/".

Definition dir_new_prefix (is_root : bool) (prefix : string) (is_last : bool)
  : string :=
  if is_root then EmptyString
  else prefix ++ (if is_last then INDENT_LAST else INDENT_MID).

(** The label under which a summarized directory counts a file: its
    lower-cased extension, or a fixed label when it has none. *)
Definition ext_label (f : string * option Z) : string :=
  if String.eqb (file_ext (fst f)) EmptyString then "(no ext)"
  else file_ext (fst f).

(** The number of occurrences of a label. *)
Definition count_of (labels : list string) (e : string) : Z :=
  llen (filter (String.eqb e) labels).

(** The total of the sizes that can be read. *)
Definition sum_sizes (files : list (string * option Z)) : Z :=
  fold_right (fun f acc => match snd f with Some size => size + acc | None => acc end)
             0 files.

(** [d[k]] on a [defaultdict(int)]: the count stored for [k], or 0. *)
Definition dict_get (k : string) (d : list (string * Z)) : Z :=
  match find (fun kv => String.eqb k (fst kv)) d with
  | Some kv => snd kv
  | None => 0
  end.

(** The dictionary built by counting the labels one after the other. *)
Definition hist_of (labels : list string) : list (string * Z) :=
  fold_left (fun d k => dict_incr k d) labels [].

(** The order of [sorted(..., key=lambda x: -x[1])]. *)
Definition by_count_desc (a b : string * Z) : bool :=
  - snd a <=? - snd b.

(** One part of an extension summary: [f"{count}{ext}"]. *)
Definition count_ext_part (kv : string * Z) : string :=
  str_of_int (snd kv) ++ fst kv.

(** [top] lists the most frequent labels with their counts: at most five
    distinct labels, each with its number of occurrences, in order of
    decreasing count; a label left out occurs no more often than a listed
    one, and labels are left out only when five are listed. *)
Definition is_top5_of (labels : list string) (top : list (string * Z)) : Prop :=
  (List.length top <= 5)%nat
  /\ NoDup (map fst top)
  /\ (forall e n, In (e, n) top -> n = count_of labels e /\ 0 < n)
  /\ (forall e n e', In (e, n) top -> ~ In e' (map fst top) ->
                     count_of labels e' <= n)
  /\ (forall e', 0 < count_of labels e' -> ~ In e' (map fst top) ->
                 List.length top = 5%nat)
  /\ StronglySorted (fun a b => snd b <= snd a) top.

(** [not l] for a list: it is empty. *)
Definition is_empty {A : Type} (l : list A) : bool :=
  match l with
  | [] => true
  | _ => false
  end.

(** The size annotation of a file line: present when the size can be
    read. *)
Definition size_annotation (size : option Z) : string :=
  match size with
  | Some s => " (" ++ format_size s ++ ")"
  | None => EmptyString
  end.

(** A file line of the tree. *)
Definition file_line (new_prefix : string) (is_last_displayed : bool)
    (f : string * option Z) : string :=
  new_prefix ++ (if is_last_displayed then CONN_LAST else CONN_MID)
  ++ fst f ++ size_annotation (snd f).

(** Two listings with the same names in the same order, the same files
    with the same sizes, and directories at the same places, whatever
    these directories hold. *)
Definition same_files_and_dir_names (raw raw' : list (string * fs_node)) : Prop :=
  Forall2 (fun a b =>
             fst a = fst b
             /\ match snd a, snd b with
                | FsFile s, FsFile s' => s = s'
                | FsDir _, FsDir _ => True
                | _, _ => False
                end) raw raw'.

(** Two observations of one directory tree: at every level [os.listdir]
    may give the entries in another order. *)
Inductive same_snapshot : fs_node -> fs_node -> Prop :=
| same_file (size : option Z) : same_snapshot (FsFile size) (FsFile size)
| same_denied : same_snapshot (FsDir None) (FsDir None)
| same_listing (l l1 l2 : list (string * fs_node)) :
    Permutation l l1 ->
    Forall2 (fun a b => fst a = fst b /\ same_snapshot (snd a) (snd b)) l1 l2 ->
    same_snapshot (FsDir (Some l)) (FsDir (Some l2)).

(** A directory does not hold two entries of one name. *)
Inductive distinct_names : fs_node -> Prop :=
| distinct_file (size : option Z) : distinct_names (FsFile size)
| distinct_denied : distinct_names (FsDir None)
| distinct_listing (l : list (string * fs_node)) :
    NoDup (map fst l) ->
    Forall (fun e => distinct_names (snd e)) l ->
    distinct_names (FsDir (Some l)).

Section TreeNotions.

Variables exclude_dirs gitignore_patterns : list string.
Variable script_name : string.

(** The tests that keep an entry in [files] or in [dirs]. *)
Definition keeps_file (name : string) : bool :=
  (negb (str_in name [OUTPUT_FILE; script_name])
   && negb (str_in name gitignore_patterns))%bool.

Definition keeps_dir (name : string) : bool :=
  (negb (should_exclude_dir name exclude_dirs)
   && negb (str_in name gitignore_patterns))%bool.

(** The files of a directory that the tree considers, in display order,
    each with its size. *)
Definition dir_files (raw : list (string * fs_node)) : list (string * option Z) :=
  flat_map (fun e =>
              match snd e with
              | FsFile size => if keeps_file (fst e) then [(fst e, size)] else []
              | FsDir _ => []
              end) (sorted_by name_le raw).

(** The subdirectories of a directory that the tree enters, in display
    order. *)
Definition dir_subdirs (raw : list (string * fs_node)) : list (string * fs_node) :=
  filter (fun e =>
            match snd e with
            | FsDir _ => keeps_dir (fst e)
            | FsFile _ => false
            end) (sorted_by name_le raw).

End TreeNotions.

(** Two entries that [_walk_dir] treats alike: the same file size, or
    subtrees that render alike under every prefix. *)
Definition alike (a b : string * entry_view) : Prop :=
  fst a = fst b
  /\ match snd a, snd b with
     | EFile s, EFile s' => s = s'
     | EDir w, EDir w' => forall prefix is_last, w prefix is_last = w' prefix is_last
     | _, _ => False
     end.

(* ====================================================================== *)
(** ** The rest of the script: ignore patterns, git information, file
       collection                                                          *)
(* ====================================================================== *)

(** *** More string primitives *)

(** [c.isspace()]: tab to carriage return, the four separators 28 to 31,
    the space and, past ASCII, the next-line character U+0085 and the
    no-break space U+00A0. *)
Definition is_space (a : ascii) : bool :=
  let n := nat_of_ascii a in
  ((Nat.leb 9 n && Nat.leb n 13) || (Nat.leb 28 n && Nat.leb n 32)
   || Nat.eqb n 133 || Nat.eqb n 160)%bool.

(** [s.lstrip()]. *)
Fixpoint lstrip (s : string) : string :=
  match s with
  | EmptyString => EmptyString
  | String a r => if is_space a then lstrip r else s
  end.

(** [s.rstrip(...)], for the characters that [drop] accepts. *)
Fixpoint rstrip_by (drop : ascii -> bool) (s : string) : string :=
  match s with
  | EmptyString => EmptyString
  | String a r =>
      match rstrip_by drop r with
      | EmptyString => if drop a then EmptyString else String a EmptyString
      | String b r' => String a (String b r')
      end
  end.

(** [s.strip()]. *)
Definition strip (s : string) : string := rstrip_by is_space (lstrip s).

(** [s.rstrip('/')]. *)
Definition rstrip_slash (s : string) : string :=
  rstrip_by (fun a => Ascii.eqb a "/") s.

(** [os.path.join(a, b)]. *)
Definition path_join (a b : string) : string :=
  if startswith b "/" then b
  else if (String.eqb a EmptyString || endswith a "/")%bool then a ++ b
  else a ++ "/" ++ b.

(** *** [get_gitignore_patterns] *)

(** What the function meets at [rootdir/.gitignore]: whether the path
    exists, and the lines that the loop [for line in f] receives, each
    with its line end, until the file ends or an exception is raised
    (none when the file cannot be opened).  An exception only ends the
    loop: the patterns added before it stay in the set. *)
Record gitignore_view : Type := mk_gitignore_view {
  gi_exists : bool;
  gi_lines : list string
}.

(** One iteration of the loop over the lines. *)
Definition gitignore_step (patterns : list string) (line : string) : list string :=
  let line := strip line in
  if (negb (String.eqb line EmptyString) && negb (startswith line "#"))%bool
  then patterns +:+ [rstrip_slash line]
  else patterns.

(** [get_gitignore_patterns(rootdir)]; the set is the list of the
    patterns in the order they are added. *)
Definition get_gitignore_patterns (gv : gitignore_view) : list string :=
  if gi_exists gv then fold_left gitignore_step (gi_lines gv) [] else [].

(** *** [get_git_info] *)

(** The result of one [subprocess.run]. *)
Record completed : Type := mk_completed {
  returncode : Z;
  stdout : string
}.

(** [sum(1 for l in lines if test(l))]. *)
Definition count_where (test : string -> bool) (lines : list string) : Z :=
  llen (filter test lines).

Definition is_modified (l : string) : bool :=
  (startswith l " M" || startswith l "M ")%bool.
Definition is_added (l : string) : bool :=
  (startswith l "A " || startswith l "??")%bool.
Definition is_deleted (l : string) : bool :=
  (startswith l " D" || startswith l "D ")%bool.

(** The list [parts] built from the lines of [git status --porcelain]. *)
Definition status_parts (lines : list string) : list string :=
  let modified := count_where is_modified lines in
  let added := count_where is_added lines in
  let deleted := count_where is_deleted lines in
  (if modified =? 0 then [] else [str_of_int modified ++ " modified"])
  +:+ (if added =? 0 then [] else [str_of_int added ++ " untracked/added"])
  +:+ (if deleted =? 0 then [] else [str_of_int deleted ++ " deleted"]).

(** The lines that a successful [git status --porcelain] adds to
    [info_parts]. *)
Definition status_info (out : string) : list string :=
  let lines :=
    if String.eqb (strip out) EmptyString then []
    else split_lines (strip out) in
  match lines with
  | [] => ["Status: Clean working tree"]
  | _ =>
      match status_parts lines with
      | [] => []
      | parts => ["Status: " ++ join ", " parts]
      end
  end.

(** The line that a successful command with a non-blank output adds. *)
Definition labelled_info (label : string) (run : completed) : list string :=
  if ((returncode run =? 0) && negb (String.eqb (strip (stdout run)) EmptyString))%bool
  then [label ++ strip (stdout run)]
  else [].

(** [get_git_info(rootdir)], given what the four [subprocess.run] calls
    give when they are reached: their result, or [None] when the call
    raises (the [git] program is missing, say).  Every exception makes the
    function return [None]. *)
Definition get_git_info (rev_parse branch commit status : option completed)
  : option string :=
  match rev_parse with
  | None => None
  | Some result =>
    if negb (returncode result =? 0) then None
    else
      match branch with
      | None => None
      | Some branch =>
        let info_parts := labelled_info "Branch: " branch in
        match commit with
        | None => None
        | Some commit =>
          let info_parts := info_parts +:+ labelled_info "Last commit: " commit in
          match status with
          | None => None
          | Some status =>
            let info_parts :=
              if returncode status =? 0
              then info_parts +:+ status_info (stdout status)
              else info_parts in
            match info_parts with
            | [] => None
            | _ => Some (join NL info_parts)
            end
          end
        end
      end
  end.

(** *** [collect_files] *)

(** The priority that [collect_files] gives to a file name. *)
Definition file_priority (filename : string) : Z :=
  let ext := lower (splitext_ext filename) in
  if str_in filename PRIORITY_FILES then 0
  else if startswith (lower filename) "readme" then 1
  else if str_in ext [".py"; ".js"; ".ts"; ".go"; ".rs"] then 2
  else if str_in ext [".json"; ".yaml"; ".yml"; ".toml"] then 3
  else 4.

(** An entry of a directory as [os.walk] gives it: a file name in
    [filenames], or a name in [dirnames] with the collection of its
    subtree, still waiting for its path and its path relative to the
    root. *)
Inductive walk_entry : Type :=
| WFile
| WDir (collect : string -> string -> list file_record).

(** The order of [files.sort(key=lambda x: (x[0], x[1]))]. *)
Definition record_le (a b : file_record) : bool :=
  let '(pa, ra, _) := a in
  let '(pb, rb, _) := b in
  ((pa <? pb) || ((pa =? pb) && String.leb ra rb))%bool.

Section CollectFiles.

Variables exclude_dirs summarize_dirs gitignore_patterns : list string.
Variable script_name : string.

(** The records appended for the [filenames] of one directory. *)
Definition collect_here (dirpath rel : string)
    (entries : list (string * walk_entry)) : list file_record :=
  flat_map (fun e =>
              match snd e with
              | WDir _ => []
              | WFile =>
                  let filename := fst e in
                  if (String.eqb filename OUTPUT_FILE
                      || String.eqb filename script_name)%bool then []
                  else if str_in filename gitignore_patterns then []
                  else if str_in (lower (splitext_ext filename)) EXTENSIONS_TO_SKIP
                  then []
                  else [(file_priority filename,
                         path_join rel filename,
                         path_join dirpath filename)]
              end) entries.

(** The names left in [dirnames] after the filter, each with the
    collection of its subtree. *)
Definition walked_dirs (entries : list (string * walk_entry))
  : list (string * (string -> string -> list file_record)) :=
  flat_map (fun e =>
              match snd e with
              | WDir collect =>
                  if (negb (should_exclude_dir (fst e) exclude_dirs)
                      && negb (str_in (fst e) gitignore_patterns))%bool
                  then [(fst e, collect)] else []
              | WFile => []
              end) entries.

(** What the loop over [os.walk] appends for the directory [dirpath]
    and everything below it.  [name] is the base name of [dirpath] and
    [rel] its path relative to the root.  A directory that cannot be
    scanned is passed over by [os.walk]; a summarized directory empties
    [dirnames] and is left at once.  Directories are entered in the
    order of [dirnames], each subtree after the files of its parent. *)
Definition collect_dir (name dirpath rel : string)
    (listing : option (list (string * walk_entry))) : list file_record :=
  match listing with
  | None => []
  | Some entries =>
      if str_in name summarize_dirs then []
      else
        collect_here dirpath rel entries
        +:+ flat_map (fun d => snd d (path_join dirpath (fst d))
                                     (path_join rel (fst d)))
                     (walked_dirs entries)
  end.

(** The traversal of [os.walk] with the body of the loop, on the
    snapshot [node]; directories are directories proper (links to
    directories, which [os.walk] does not enter, are not part of a
    snapshot).  The path relative to the root is built along the way,
    as [os.path.relpath] gives it for a path below the root. *)
Fixpoint collect_walk (node : fs_node) (name dirpath rel : string)
    {struct node} : list file_record :=
  match node with
  | FsFile _ => []
  | FsDir listing =>
      collect_dir name dirpath rel
        (option_map
           (map (fun e =>
                   (fst e,
                    match snd e with
                    | FsFile _ => WFile
                    | FsDir _ => WDir (collect_walk (snd e) (fst e))
                    end)))
           listing)
  end.

(** [collect_files(rootdir, ...)] for the root directory [rootdir] with
    the snapshot [root]. *)
Definition collect_files (rootdir : string) (root : fs_node)
  : list file_record :=
  sorted_by record_le (collect_walk root (basename rootdir) rootdir EmptyString).

End CollectFiles.

(* ====================================================================== *)
(** ** More notions used to state the properties                           *)
(* ====================================================================== *)

(** The name reaches the last dispatch rule of [process_file_content]: it
    is not a notebook name, its extension is none of the structured or
    declarative ones, and it is in the text allow-list, or the name is a
    priority file name, or it has no extension. *)
Definition is_plain_text_name (filename : string) : bool :=
  (negb (endswith filename ".ipynb")
   && negb (str_in (file_ext filename) [".json"; ".jsonl"; ".yaml"; ".yml"; ".toml"])
   && (str_in (file_ext filename) TEXT_EXTENSIONS
       || str_in filename PRIORITY_FILES
       || String.eqb (file_ext filename) EmptyString))%bool.

(** Two JSON values that agree on everything within [k] levels and within
    the first five items of every container: at level 0 containers only
    have the same size and scalars are equal; above, containers have the
    same size and their first five items agree one level down (with equal
    keys for objects). *)
Fixpoint same_within_bounds (k : nat) (d d' : json) : Prop :=
  match d, d' with
  | JDict e, JDict e' =>
      List.length e = List.length e'
      /\ match k with
         | O => True
         | S k' =>
             Forall2 (fun a b => fst a = fst b
                                 /\ same_within_bounds k' (snd a) (snd b))
                     (firstn 5 e) (firstn 5 e')
         end
  | JList l, JList l' =>
      List.length l = List.length l'
      /\ match k with
         | O => True
         | S k' => Forall2 (same_within_bounds k') (firstn 5 l) (firstn 5 l')
         end
  | JDict _, _ | JList _, _ | _, JDict _ | _, JList _ => False
  | _, _ => d = d'
  end.

(** The block that [process_files] writes for a file with content. *)
Definition file_block (rel_path content : string) : list string :=
  [SEPARATOR; "FILE: " ++ rel_path ++ NL; SEPARATOR; content ++ NL].

(** The content extracted for one record. *)
Definition record_content (fs : string -> file_view) (rec : file_record)
  : option string :=
  process_file_content (fs (snd rec)) (basename (snd rec)).

(** A name of a directory entry: not empty and without a separator. *)
Definition is_entry_name (name : string) : bool :=
  (negb (String.eqb name EmptyString) && negb (has_char "/" name))%bool.

(** Every entry of the snapshot has an entry name. *)
Inductive entry_names : fs_node -> Prop :=
| names_file (size : option Z) : entry_names (FsFile size)
| names_denied : entry_names (FsDir None)
| names_listing (l : list (string * fs_node)) :
    Forall (fun e => is_entry_name (fst e) = true /\ entry_names (snd e)) l ->
    entry_names (FsDir (Some l)).

(** The relative path of a record. *)
Definition record_rel (rec : file_record) : string := snd (fst rec).

(** What [process_files] writes for one record: the block of its content,
    or nothing when it has none. *)
Definition record_block (fs : string -> file_view) (rec : file_record)
  : list string :=
  match record_content fs rec with
  | Some content => file_block (record_rel rec) content
  | None => []
  end.

(** The number of characters of the contents extracted for the records. *)
Definition emitted_chars (fs : string -> file_view) (files : list file_record) : Z :=
  fold_right (fun rec acc =>
                match record_content fs rec with
                | Some content => len content + acc
                | None => acc
                end) 0 files.

(** The records that have a content, and those that have none. *)
Definition has_content (fs : string -> file_view) (rec : file_record) : bool :=
  match record_content fs rec with
  | Some _ => true
  | None => false
  end.

(** The records whose content starts with the error marker. *)
Definition is_error_content (fs : string -> file_view) (rec : file_record) : bool :=
  match record_content fs rec with
  | Some content => startswith content "[Error"
  | None => false
  end.

(** The numbering of the displayed entries counts the lines appended. *)
Definition counts_its_lines (st : show_state) : Prop :=
  entry_idx st = llen (shown st).

(** The lines that a listed directory displays for itself, before its
    subdirectories. *)
Definition own_lines (new_prefix : string) (n_dirs : Z)
    (files : list (string * option Z)) : list string :=
  let files_to_show := filter (fun f => negb (skip_by_ext f)) files in
  let skipped_by_ext :=
    fold_left (fun d f =>
                 if skip_by_ext f then dict_incr (lower (splitext_ext (fst f))) d
                 else d) files [] in
  let total_entries :=
    n_dirs + llen files_to_show
    + (match skipped_by_ext with [] => 0 | _ => 1 end) in
  shown
    (show_skipped new_prefix total_entries skipped_by_ext
       (show_overflow new_prefix total_entries files_to_show
          (fold_left (show_file new_prefix total_entries)
                     (firstn (Z.to_nat MAX_FILES_PER_DIR) files_to_show)
                     (mk_show 0 [])))).

(** The tests that let [collect_files] record a file name. *)
Definition collects (gitignore_patterns : list string)
    (script_name filename : string) : bool :=
  (keeps_file gitignore_patterns script_name filename
   && negb (str_in (file_ext filename) EXTENSIONS_TO_SKIP))%bool.

(** The separator that [os.path.join] puts after [a]. *)
Definition sep_after (a : string) : string :=
  if (String.eqb a EmptyString || endswith a "/")%bool then EmptyString else "/".

(** The order of the sort key [(priority, rel_path)]. *)
Definition key_le (a b : file_record) : Prop :=
  fst (fst a) < fst (fst b)
  \/ (fst (fst a) = fst (fst b)
      /\ String.leb (record_rel a) (record_rel b) = true).

(* ====================================================================== *)
(** ** Facts about the string primitives                                   *)
(* ====================================================================== *)

Lemma has_char_append (c : ascii) (a b : string) :
  has_char c (a ++ b) = (has_char c a || has_char c b)%bool.
Proof.
  induction a as [| x a IH]; simpl.
  - reflexivity.
  - rewrite IH. now rewrite orb_assoc.
Qed.

Lemma uint_digits_no_newline (d : Decimal.uint) :
  has_char (ascii_of_nat 10) (NilEmpty.string_of_uint d) = false.
Proof.
  induction d; simpl; auto.
Qed.

Lemma str_of_int_no_newline (n : Z) :
  has_char (ascii_of_nat 10) (str_of_int n) = false.
Proof.
  unfold str_of_int, NilZero.string_of_int, NilZero.string_of_uint.
  destruct (Z.to_int n) as [d | d]; destruct d; simpl;
    auto using uint_digits_no_newline.
Qed.

Lemma format_1f_no_newline (num den : Z) :
  has_char (ascii_of_nat 10) (format_1f num den) = false.
Proof.
  unfold format_1f.
  rewrite !has_char_append, !str_of_int_no_newline. reflexivity.
Qed.

Lemma format_size_loop_no_newline (units : list string) :
  Forall (fun u => has_char (ascii_of_nat 10) u = false) units ->
  forall num den,
    has_char (ascii_of_nat 10) (format_size_loop units num den) = false.
Proof.
  induction 1 as [| u units Hu _ IH]; intros num den;
    cbn [format_size_loop].
  - rewrite has_char_append, format_1f_no_newline. reflexivity.
  - destruct (num <? 1024 * den).
    + destruct (negb (String.eqb u "B"));
        rewrite has_char_append, ?format_1f_no_newline, ?str_of_int_no_newline, Hu;
        reflexivity.
    + apply IH.
Qed.

Lemma format_size_no_newline (size : Z) :
  has_char (ascii_of_nat 10) (format_size size) = false.
Proof.
  unfold format_size. apply format_size_loop_no_newline.
  repeat constructor.
Qed.


Lemma some_inj {A : Type} (a b : A) : Some a = Some b -> a = b.
Proof. intros H. now injection H. Qed.

Lemma returns_text_eq (o : option string) (s : string) :
  returns_text o s = true -> o = Some s.
Proof.
  destruct o as [c |]; simpl; [| discriminate].
  intros H. apply String.eqb_eq in H. now subst.
Qed.

Lemma append_assoc_str (a b c : string) : (a ++ b) ++ c = a ++ (b ++ c).
Proof.
  induction a as [| x a IH]; simpl; congruence.
Qed.

Lemma endswith_suffix (s suf : string) :
  endswith s suf = true -> exists p, s = p ++ suf.
Proof.
  induction s as [| a s IH]; cbn [endswith]; intros H.
  - apply orb_true_iff in H as [H | H]; [| discriminate].
    apply String.eqb_eq in H. subst. now exists EmptyString.
  - apply orb_true_iff in H as [H | H].
    + apply String.eqb_eq in H. rewrite <- H. now exists EmptyString.
    + destruct (IH H) as [p ->]. now exists (String a p).
Qed.

Lemma from_last_dot_ipynb (p : string) :
  from_last_dot (p ++ ".ipynb") = Some ".ipynb".
Proof.
  induction p as [| a p IH]; simpl.
  - reflexivity.
  - simpl in IH. now rewrite IH.
Qed.

Lemma strip_leading_dots_ipynb (p : string) :
  strip_leading_dots (p ++ ".ipynb") = "ipynb"
  \/ exists q, strip_leading_dots (p ++ ".ipynb") = q ++ ".ipynb".
Proof.
  induction p as [| a p IH].
  - left. reflexivity.
  - change (String a p ++ ".ipynb") with (String a (p ++ ".ipynb")).
    destruct (Ascii.eqb a ".") eqn:E.
    + apply Ascii.eqb_eq in E. subst a. exact IH.
    + right. exists (String a p).
      destruct a as [[] [] [] [] [] [] [] []]; try reflexivity; discriminate.
Qed.

(** A notebook name has the extension [.ipynb], or none when the name is
    only dots followed by [ipynb]. *)
Lemma notebook_name_ext (filename : string) :
  endswith filename ".ipynb" = true ->
  file_ext filename = ".ipynb" \/ file_ext filename = EmptyString.
Proof.
  intros H. apply endswith_suffix in H as [p ->].
  unfold file_ext, splitext_ext.
  destruct (strip_leading_dots_ipynb p) as [-> | [q ->]].
  - right. reflexivity.
  - left. now rewrite from_last_dot_ipynb.
Qed.

(** A name whose extension is one of [exts], none of them [.ipynb] or
    empty, is not a notebook name. *)
Lemma ext_not_notebook (filename : string) (exts : list string) :
  str_in (file_ext filename) exts = true ->
  str_in ".ipynb" exts = false ->
  str_in EmptyString exts = false ->
  endswith filename ".ipynb" = false.
Proof.
  intros Hin Hnb Hempty.
  destruct (endswith filename ".ipynb") eqn:E; [| reflexivity].
  destruct (notebook_name_ext filename E) as [H | H];
    rewrite H in Hin; congruence.
Qed.

Lemma length_append (a b : string) :
  String.length (a ++ b) = (String.length a + String.length b)%nat.
Proof.
  induction a as [| x a IH]; simpl; congruence.
Qed.

Lemma llen_nonneg {A : Type} (l : list A) : 0 <= llen l.
Proof. unfold llen. lia. Qed.

Lemma llen_app_list {A : Type} (l1 l2 : list A) :
  llen (l1 +:+ l2) = llen l1 + llen l2.
Proof. unfold llen. rewrite length_app. lia. Qed.


(** *** Characters past ASCII *)

(** [lower] folds the capital letters of the range U+00C0 to U+00DE: the
    extension [.É] (U+00C9) is counted with [.é] (U+00E9), and the
    multiplication sign stays. *)
Example lower_folds_latin_capitals :
  let cap := String (ascii_of_nat 201) EmptyString in
  let small := String (ascii_of_nat 233) EmptyString in
  let times := String (ascii_of_nat 215) EmptyString in
  lower ("a." ++ cap) = "a." ++ small
  /\ lower times = times
  /\ hist_of (map ext_label [("a." ++ cap, Some 1); ("b." ++ small, Some 1)])
     = [("." ++ small, 2)].
Proof. cbv zeta. repeat split; reflexivity. Qed.

(** [repr] writes the no-break space, the characters of the second
    control block and the soft hyphen in hexadecimal, and copies the
    letters past ASCII. *)
Example repr_escapes_unprintable_characters :
  let nbsp := String (ascii_of_nat 160) EmptyString in
  let shy := String (ascii_of_nat 173) EmptyString in
  let e_acute := String (ascii_of_nat 233) EmptyString in
  repr_json (JList [JStr ("a" ++ nbsp ++ "b")])
  = "[" ++ SQUOTE ++ "a" ++ BACKSLASH ++ "xa0b" ++ SQUOTE ++ "]"
  /\ repr_str shy = SQUOTE ++ BACKSLASH ++ "xad" ++ SQUOTE
  /\ repr_str e_acute = SQUOTE ++ e_acute ++ SQUOTE.
Proof. cbv zeta. repeat split; reflexivity. Qed.

(** [strip] removes the no-break space and the next-line character: a
    comment line of the ignore file that starts with a no-break space
    gives no pattern. *)
Example strip_removes_spaces_past_ascii :
  let nbsp := String (ascii_of_nat 160) EmptyString in
  let nel := String (ascii_of_nat 133) EmptyString in
  strip (nbsp ++ "build" ++ nel) = "build"
  /\ get_gitignore_patterns
       (mk_gitignore_view true [nbsp ++ "# comment" ++ NL; "dist/" ++ NL])
     = ["dist"].
Proof. cbv zeta. repeat split; reflexivity. Qed.

(* ====================================================================== *)
(** ** The content extractor and the processing loop                       *)
(* ====================================================================== *)

Section Dispatch.

Variable fv : file_view.
Variable filename : string.

(** Past the size tests, a name with the extension [.json] reaches the
    structured-data branch. *)
Lemma dispatch_json (size : Z) :
  file_ext filename = ".json" ->
  fv_getsize fv = Some size ->
  size <= MAX_FILE_SIZE_PARTIAL ->
  process_file_content fv filename =
    if size <? 5000 then
      match fv_read fv with
      | Returned content => Some content
      | Raised e => Some ("[Error reading file: " ++ e ++ "]")
      end
    else
      match fv_json fv with
      | Parsed data => Some (json_summary size data)
      | DecodeError e => Some ("[JSON parse error: " ++ e ++ "]")
      | LoadRaised e => Some ("[Error reading file: " ++ e ++ "]")
      end.
Proof.
  intros Hext Hsize Hle.
  assert (Hnb : endswith filename ".ipynb" = false).
  { apply (ext_not_notebook filename [".json"]); try reflexivity.
    rewrite Hext. reflexivity. }
  unfold process_file_content. fold (file_ext filename).
  rewrite Hsize, Hnb, Hext.
  replace (MAX_FILE_SIZE_PARTIAL <? size) with false
    by (symmetry; apply Z.ltb_ge; exact Hle).
  reflexivity.
Qed.

(** Past the size tests, a name with a declarative-config extension
    reaches the YAML/TOML branch. *)
Lemma dispatch_config (size : Z) :
  str_in (file_ext filename) [".yaml"; ".yml"; ".toml"] = true ->
  fv_getsize fv = Some size ->
  size <= MAX_FILE_SIZE_PARTIAL ->
  process_file_content fv filename =
    match fv_read fv with
    | Returned content =>
        if MAX_FILE_SIZE_FULL <? len content then
          Some (join NL (firstn 100 (split_lines content)) ++ NL ++ NL ++ "... ["
                ++ str_of_int (llen (split_lines content) - MAX_LINES_PREVIEW)
                ++ " more lines]")
        else Some content
    | Raised e => Some ("[Error reading file: " ++ e ++ "]")
    end.
Proof.
  intros Hext Hsize Hle.
  assert (Hnb : endswith filename ".ipynb" = false).
  { apply (ext_not_notebook filename [".yaml"; ".yml"; ".toml"]);
      try reflexivity. exact Hext. }
  assert (Hj : String.eqb (file_ext filename) ".json" = false
               /\ String.eqb (file_ext filename) ".jsonl" = false).
  { unfold str_in in Hext. simpl in Hext.
    rewrite orb_false_r in Hext.
    repeat (apply orb_true_iff in Hext as [Hext | Hext]);
      apply String.eqb_eq in Hext; rewrite Hext; split; reflexivity. }
  destruct Hj as [Hj Hjl].
  unfold process_file_content. fold (file_ext filename).
  rewrite Hsize, Hnb, Hj, Hjl, Hext.
  replace (MAX_FILE_SIZE_PARTIAL <? size) with false
    by (symmetry; apply Z.ltb_ge; exact Hle).
  reflexivity.
Qed.

(** Above the ceiling nothing is opened. *)
Lemma dispatch_too_large (size : Z) :
  fv_getsize fv = Some size ->
  MAX_FILE_SIZE_PARTIAL < size ->
  process_file_content fv filename =
    Some ("[File too large: " ++ format_size size ++ " - skipped]").
Proof.
  intros Hsize Hlt. unfold process_file_content. rewrite Hsize.
  apply Z.ltb_lt in Hlt. now rewrite Hlt.
Qed.

(** [None] comes from exactly two places: the size that cannot be read,
    and the end of the dispatch. *)
Lemma no_content_iff :
  process_file_content fv filename = None <->
  fv_getsize fv = None
  \/ exists size, fv_getsize fv = Some size
                  /\ size <= MAX_FILE_SIZE_PARTIAL
                  /\ matches_no_rule filename = true.
Proof.
  unfold process_file_content, matches_no_rule. fold (file_ext filename).
  destruct (fv_getsize fv) as [size |].
  2: { split; auto. }
  destruct (MAX_FILE_SIZE_PARTIAL <? size) eqn:Hc.
  { apply Z.ltb_lt in Hc. split; [discriminate |].
    intros [H | (s & H & Hle & _)]; [discriminate |].
    injection H as <-. lia. }
  apply Z.ltb_ge in Hc.
  assert (Hsplit : str_in (file_ext filename)
                     [".json"; ".jsonl"; ".yaml"; ".yml"; ".toml"]
                   = (String.eqb (file_ext filename) ".json"
                      || (String.eqb (file_ext filename) ".jsonl"
                          || str_in (file_ext filename) [".yaml"; ".yml"; ".toml"]))%bool)
    by reflexivity.
  rewrite Hsplit.
  destruct (endswith filename ".ipynb").
  { split; [discriminate |].
    intros [H | (s & _ & _ & H)]; discriminate. }
  destruct (String.eqb (file_ext filename) ".json").
  { split.
    - destruct (size <? 5000); [destruct (fv_read fv) | destruct (fv_json fv)];
        discriminate.
    - intros [H | (s & _ & _ & H)]; discriminate. }
  destruct (String.eqb (file_ext filename) ".jsonl").
  { split.
    - destruct (fv_read fv) as [content |]; [| discriminate].
      destruct (firstn 5 (file_lines content)); discriminate.
    - intros [H | (s & _ & _ & H)]; discriminate. }
  destruct (str_in (file_ext filename) [".yaml"; ".yml"; ".toml"]).
  { split.
    - destruct (fv_read fv) as [content |]; [| discriminate].
      destruct (MAX_FILE_SIZE_FULL <? len content); discriminate.
    - intros [H | (s & _ & _ & H)]; discriminate. }
  cbn [negb andb orb].
  destruct (str_in (file_ext filename) TEXT_EXTENSIONS);
    destruct (str_in filename PRIORITY_FILES);
    destruct (String.eqb (file_ext filename) EmptyString);
    cbn [negb andb orb];
    try (split;
         [ destruct (fv_read fv) as [content |]; [| discriminate];
           destruct (MAX_FILE_SIZE_FULL <? size); discriminate
         | intros [H | (s & _ & _ & H)]; discriminate ]).
  split; [| reflexivity].
  intros _. right. exists size. auto.
Qed.

End Dispatch.

Section Loop.

Variable fs : string -> file_view.
Variable st : pf_state.
Variables (priority : Z) (rel_path filepath : string).

Let st' := process_one fs st (priority, rel_path, filepath).
Let content := process_file_content (fs filepath) (basename filepath).

(** The counters after one file with content. *)
Lemma process_one_some (c : string) :
  content = Some c ->
  processed (pf_stats st') = processed (pf_stats st) + 1
  /\ skipped (pf_stats st') = skipped (pf_stats st)
  /\ errors (pf_stats st') =
       (if startswith c "[Error" then errors (pf_stats st) + 1
        else errors (pf_stats st))
  /\ total_chars (pf_stats st') = total_chars (pf_stats st) + len c
  /\ pf_written st' =
       pf_written st +:+ [SEPARATOR; "FILE: " ++ rel_path ++ NL; SEPARATOR; c ++ NL].
Proof.
  subst st' content. intros H. unfold process_one. rewrite H. simpl.
  repeat split; reflexivity.
Qed.

(** The counters after one file without content. *)
Lemma process_one_none :
  content = None ->
  processed (pf_stats st') = processed (pf_stats st)
  /\ skipped (pf_stats st') = skipped (pf_stats st) + 1
  /\ errors (pf_stats st') = errors (pf_stats st)
  /\ total_chars (pf_stats st') = total_chars (pf_stats st)
  /\ pf_written st' = pf_written st.
Proof.
  subst st' content. intros H. unfold process_one. rewrite H. simpl.
  repeat split; reflexivity.
Qed.

End Loop.

(** *** The summary footer *)

(** C1, evaluated on a run: a project whose only file is a 1000-character
    text file.  The loop accumulates [total_chars = 1000]; the last line of
    the report gives the estimate 1, the number of decimal digits of the
    accumulator divided by 4, where the accumulator divided by the
    characters-per-token constant is 250. *)
Theorem footer_estimate_of_1000_char_run :
  let fs := fun _ : string =>
              mk_file_view (Some 1000) (Returned (text_of_length 1000))
                           (LoadRaised EmptyString) (Raised EmptyString) in
  let files := [(4, "notes.txt", "/proj/notes.txt")] in
  let st := process_files fs files [] in
  total_chars (pf_stats st) = 1000
  /\ total_chars (pf_stats st) / ESTIMATED_CHARS_PER_TOKEN = 250
  /\ footer_token_estimate (pf_stats st) = 1
  /\ last (main_contents_and_summary fs files []) EmptyString
     = "Estimated tokens: ~1" ++ NL.
Proof.
  vm_compute. repeat split; reflexivity.
Qed.

(** The footer's estimate is a function of the digit count of the
    accumulator only. *)
Lemma footer_estimate_is_digit_count (stats : file_stats) :
  footer_token_estimate stats
  = len (str_of_int (total_chars stats)) / ESTIMATED_CHARS_PER_TOKEN.
Proof. reflexivity. Qed.

(** *** Declarative config files *)




(** *** Skipped and processed files *)

(** C4, as stated, fails: [notes.log] has a readable size and an
    extension outside the skip set, yet extraction returns [None] and the
    loop counts the file as skipped. *)
Lemma unlisted_extension_is_skipped :
  let fv := mk_file_view (Some 10) (Returned "0123456789")
                         (LoadRaised EmptyString) (Raised EmptyString) in
  let st := process_files (fun _ => fv) [(4, "notes.log", "/proj/notes.log")] [] in
  str_in (file_ext "notes.log") EXTENSIONS_TO_SKIP = false
  /\ fv_getsize fv <> None
  /\ process_file_content fv "notes.log" = None
  /\ skipped (pf_stats st) = 1
  /\ processed (pf_stats st) = 0.
Proof.
  cbv zeta. repeat split; try reflexivity. discriminate.
Qed.

(** C4, amended: a file above the ceiling gets the one-line content
    ["[File too large: <size> - skipped]"] and is counted as processed,
    not skipped; a file is counted as skipped exactly when extraction
    returns [None], which happens exactly when its size cannot be read, or
    its size is at most the ceiling and no dispatch rule applies to its
    name. *)
Theorem skipped_iff_no_content (fs : string -> file_view) (st : pf_state)
    (priority : Z) (rel_path filepath : string) :
  let filename := basename filepath in
  let content := process_file_content (fs filepath) filename in
  let st' := process_one fs st (priority, rel_path, filepath) in
  (forall size,
      fv_getsize (fs filepath) = Some size ->
      MAX_FILE_SIZE_PARTIAL < size ->
      content = Some ("[File too large: " ++ format_size size ++ " - skipped]")
      /\ has_char (ascii_of_nat 10)
           ("[File too large: " ++ format_size size ++ " - skipped]") = false
      /\ processed (pf_stats st') = processed (pf_stats st) + 1
      /\ skipped (pf_stats st') = skipped (pf_stats st))
  /\ (skipped (pf_stats st') = skipped (pf_stats st) + 1 <-> content = None)
  /\ (content = None <->
      fv_getsize (fs filepath) = None
      \/ exists size, fv_getsize (fs filepath) = Some size
                      /\ size <= MAX_FILE_SIZE_PARTIAL
                      /\ matches_no_rule filename = true).
Proof.
  cbv zeta. split; [| split].
  - intros size Hsize Hlt.
    pose proof (dispatch_too_large (fs filepath) (basename filepath) size Hsize Hlt)
      as Hc.
    destruct (process_one_some fs st priority rel_path filepath _ Hc)
      as (Hp & Hs & _).
    repeat split; auto.
    rewrite !has_char_append, format_size_no_newline. reflexivity.
  - destruct (process_file_content (fs filepath) (basename filepath)) as [c |] eqn:Hc.
    + destruct (process_one_some fs st priority rel_path filepath c Hc)
        as (_ & Hs & _).
      split; [intros H; lia | discriminate].
    + destruct (process_one_none fs st priority rel_path filepath Hc)
        as (_ & Hs & _).
      split; auto.
  - apply no_content_iff.
Qed.

Lemma skipped_iff_no_content_witness :
  let fv := mk_file_view (Some 300000) (Returned EmptyString)
                         (LoadRaised EmptyString) (Raised EmptyString) in
  let st := mk_pf initial_stats [] in
  process_file_content fv "dump.sql" = Some "[File too large: 293.0KB - skipped]"
  /\ processed (pf_stats (process_one (fun _ => fv) st (4, "dump.sql", "/proj/dump.sql"))) = 1.
Proof.
  cbv zeta.
  destruct (skipped_iff_no_content
              (fun _ => mk_file_view (Some 300000) (Returned EmptyString)
                                     (LoadRaised EmptyString) (Raised EmptyString))
              (mk_pf initial_stats []) 4 "dump.sql" "/proj/dump.sql")
    as (Hlarge & _ & _).
  destruct (Hlarge 300000 eq_refl) as (Hc & _ & Hp & _).
  - unfold MAX_FILE_SIZE_PARTIAL. lia.
  - split; [exact Hc | exact Hp].
Defined.

(** *** Small structured-data files *)

Lemma universal_newlines_no_cr_upto (n : nat) :
  forall s, (String.length s <= n)%nat ->
            has_char CR (universal_newlines s) = false.
Proof.
  induction n as [| n IH]; intros s Hlen.
  - destruct s; [reflexivity | cbn [String.length] in Hlen; lia].
  - destruct s as [| a r]; [reflexivity |].
    cbn [String.length] in Hlen. cbn [universal_newlines].
    destruct (Ascii.eqb a CR) eqn:Ea.
    + destruct r as [| b r']; [reflexivity |].
      cbn [String.length] in Hlen.
      destruct (Ascii.eqb b LF); cbn [has_char];
        change (Ascii.eqb LF CR) with false; cbn [orb]; apply IH;
        cbn [String.length]; lia.
    + cbn [has_char]. rewrite Ea. cbn [orb]. apply IH. lia.
Qed.

(** A text read in text mode holds no carriage return. *)
Lemma universal_newlines_no_cr (s : string) :
  has_char CR (universal_newlines s) = false.
Proof. apply (universal_newlines_no_cr_upto (String.length s)). lia. Qed.

(** A text without carriage return is read as it is. *)
Lemma universal_newlines_id (s : string) :
  has_char CR s = false -> universal_newlines s = s.
Proof.
  induction s as [| a r IH]; [reflexivity |].
  cbn [has_char universal_newlines]. intros H.
  apply orb_false_iff in H as [Ha Hr]. rewrite Ha. now rewrite (IH Hr).
Qed.

(** C7, as stated, fails on a file with the line ends of Windows: the
    four bytes of an opening brace, a carriage return, a line feed and a
    closing brace decode to these four characters, and the text extracted
    has three: the carriage return is gone. *)
Lemma json_with_crlf_is_not_verbatim :
  let bytes := "{" ++ String CR (String LF "}") in
  let fv := mk_file_view (Some (len bytes))
                         (match text_mode_read bytes with
                          | Some text => Returned text
                          | None => Raised EmptyString
                          end)
                         (Parsed (JDict [])) (Raised EmptyString) in
  utf8_decode bytes = Some bytes
  /\ process_file_content fv "settings.json" = Some ("{" ++ NL ++ "}")
  /\ "{" ++ NL ++ "}" <> bytes.
Proof.
  cbv zeta. repeat split; try reflexivity. discriminate.
Qed.

(** C7, amended: a readable [.json] file of fewer than 5000 bytes is
    extracted as its bytes decoded as UTF-8 and read in text mode, that
    is with every carriage return and line feed pair, and every other
    carriage return, turned into a line feed; the block written for it to
    the report is the separator, the [FILE:] marker, the separator, and
    that text followed by a newline.  The text extracted is the decoded
    content itself exactly when the content holds no carriage return. *)
Theorem small_json_is_read_as_text (fs : string -> file_view) (st : pf_state)
    (priority : Z) (rel_path filepath : string) (bytes decoded text : string) :
  file_ext (basename filepath) = ".json" ->
  fv_getsize (fs filepath) = Some (len bytes) ->
  len bytes < 5000 ->
  utf8_decode bytes = Some decoded ->
  text_mode_read bytes = Some text ->
  fv_read (fs filepath) = Returned text ->
  text = universal_newlines decoded
  /\ process_file_content (fs filepath) (basename filepath) = Some text
  /\ pf_written (process_one fs st (priority, rel_path, filepath))
     = pf_written st
       +:+ [SEPARATOR; "FILE: " ++ rel_path ++ NL; SEPARATOR; text ++ NL]
  /\ (text = decoded <-> has_char CR decoded = false).
Proof.
  intros Hext Hsize Hlt Hdec Htext Hread.
  assert (Ht : text = universal_newlines decoded).
  { unfold text_mode_read in Htext. rewrite Hdec in Htext.
    cbn [option_map] in Htext. apply some_inj in Htext. now symmetry. }
  assert (Hc : process_file_content (fs filepath) (basename filepath) = Some text).
  { rewrite (dispatch_json _ _ (len bytes) Hext Hsize)
      by (unfold MAX_FILE_SIZE_PARTIAL; lia).
    apply Z.ltb_lt in Hlt. now rewrite Hlt, Hread. }
  split; [exact Ht |]. split; [exact Hc |]. split.
  - now destruct (process_one_some fs st priority rel_path filepath text Hc)
      as (_ & _ & _ & _ & Hw).
  - subst text. split.
    + intros E. rewrite <- E. apply universal_newlines_no_cr.
    + apply universal_newlines_id.
Qed.

Lemma small_json_is_read_as_text_witness :
  let bytes := "{" ++ DQUOTE ++ "name" ++ DQUOTE ++ ": 1}" in
  let fv := mk_file_view (Some 11) (Returned bytes)
                         (Parsed (JDict [("name", JInt 1)])) (Raised EmptyString) in
  process_file_content fv "package.json" = Some bytes.
Proof.
  cbv zeta.
  refine (proj1 (proj2 (small_json_is_read_as_text
                   (fun _ => mk_file_view (Some 11)
                               (Returned ("{" ++ DQUOTE ++ "name" ++ DQUOTE ++ ": 1}"))
                               (Parsed (JDict [("name", JInt 1)])) (Raised EmptyString))
                   (mk_pf initial_stats []) 0 "package.json" "/proj/package.json"
                   ("{" ++ DQUOTE ++ "name" ++ DQUOTE ++ ": 1}")
                   ("{" ++ DQUOTE ++ "name" ++ DQUOTE ++ ": 1}")
                   ("{" ++ DQUOTE ++ "name" ++ DQUOTE ++ ": 1}")
                   _ _ _ _ _ _))).
  - reflexivity.
  - reflexivity.
  - reflexivity.
  - reflexivity.
  - reflexivity.
  - reflexivity.
Defined.

(** *** The errors counter *)

(** C10, as stated, fails for small files: a 7-byte [.json] file that
    holds the text "[Error]", which is not valid JSON, is returned as that
    text (it is never parsed), not as a parse-error line, and it is counted
    in the errors counter. *)
Lemma small_unparsable_json_counts_as_error :
  let fv := mk_file_view (Some 7) (Returned "[Error]")
                         (DecodeError "Expecting value: line 1 column 2 (char 1)")
                         (Raised EmptyString) in
  let st := process_files (fun _ => fv) [(3, "bad.json", "/proj/bad.json")] [] in
  file_ext "bad.json" = ".json"
  /\ process_file_content fv "bad.json" = Some "[Error]"
  /\ startswith "[Error]" "[JSON parse error" = false
  /\ errors (pf_stats st) = 1.
Proof.
  cbv zeta. repeat split; reflexivity.
Qed.

(** A [.json] file of at least 5000 bytes whose load fails with
    another exception than [JSONDecodeError] (the recursion limit on a
    deeply nested value, say) falls to the general handler: its content
    starts with "[Error" and it is counted in the errors counter. *)
Example json_load_failing_otherwise_counts_as_error :
  let fv := mk_file_view (Some 6000) (Raised "unused")
                         (LoadRaised "maximum recursion depth exceeded")
                         (Raised EmptyString) in
  let st := process_files (fun _ => fv) [(3, "deep.json", "/proj/deep.json")] [] in
  process_file_content fv "deep.json"
    = Some "[Error reading file: maximum recursion depth exceeded]"
  /\ processed (pf_stats st) = 1
  /\ errors (pf_stats st) = 1.
Proof.
  cbv zeta. repeat split; reflexivity.
Qed.

(** C10, amended: the errors counter goes up by one exactly for the files
    whose extracted content starts with "[Error", and is unchanged for the
    others; a [.json] file of at least 5000 bytes, not above the ceiling,
    whose parse fails with a [JSONDecodeError], gets the content
    ["[JSON parse error: ...]"], is counted as processed, and leaves the
    errors counter unchanged; when its load fails with any other
    exception, it gets the content ["[Error reading file: ...]"], is
    counted as processed, and is counted in the errors counter. *)
Theorem errors_counter_rule (fs : string -> file_view) (st : pf_state)
    (priority : Z) (rel_path filepath : string) :
  let filename := basename filepath in
  let content := process_file_content (fs filepath) filename in
  let st' := process_one fs st (priority, rel_path, filepath) in
  (errors (pf_stats st') = errors (pf_stats st) + 1 <->
   exists c, content = Some c /\ startswith c "[Error" = true)
  /\ (errors (pf_stats st') = errors (pf_stats st) <->
      ~ exists c, content = Some c /\ startswith c "[Error" = true)
  /\ (forall size e,
         file_ext filename = ".json" ->
         fv_getsize (fs filepath) = Some size ->
         5000 <= size <= MAX_FILE_SIZE_PARTIAL ->
         fv_json (fs filepath) = DecodeError e ->
         content = Some ("[JSON parse error: " ++ e ++ "]")
         /\ processed (pf_stats st') = processed (pf_stats st) + 1
         /\ skipped (pf_stats st') = skipped (pf_stats st)
         /\ errors (pf_stats st') = errors (pf_stats st))
  /\ (forall size e,
         file_ext filename = ".json" ->
         fv_getsize (fs filepath) = Some size ->
         5000 <= size <= MAX_FILE_SIZE_PARTIAL ->
         fv_json (fs filepath) = LoadRaised e ->
         content = Some ("[Error reading file: " ++ e ++ "]")
         /\ processed (pf_stats st') = processed (pf_stats st) + 1
         /\ skipped (pf_stats st') = skipped (pf_stats st)
         /\ errors (pf_stats st') = errors (pf_stats st) + 1).
Proof.
  cbv zeta.
  assert (Hcases :
    (errors (pf_stats (process_one fs st (priority, rel_path, filepath)))
       = errors (pf_stats st) + 1
     /\ exists c, process_file_content (fs filepath) (basename filepath) = Some c
                  /\ startswith c "[Error" = true)
    \/ (errors (pf_stats (process_one fs st (priority, rel_path, filepath)))
          = errors (pf_stats st)
        /\ ~ exists c, process_file_content (fs filepath) (basename filepath) = Some c
                       /\ startswith c "[Error" = true)).
  { destruct (process_file_content (fs filepath) (basename filepath)) as [c |] eqn:Hc.
    - destruct (process_one_some fs st priority rel_path filepath c Hc)
        as (_ & _ & He & _).
      destruct (startswith c "[Error") eqn:Hs.
      + left. split; [exact He | now exists c].
      + right. split; [exact He |].
        intros (c' & E & Hs'). injection E as <-. congruence.
    - destruct (process_one_none fs st priority rel_path filepath Hc)
        as (_ & _ & He & _).
      right. split; [exact He |]. intros (c' & E & _). discriminate. }
  split; [| split; [| split]].
  - destruct Hcases as [[He Hex] | [He Hnex]]; split; auto; intros; try lia.
    contradiction.
  - destruct Hcases as [[He Hex] | [He Hnex]]; split; auto; intros; try lia.
    contradiction.
  - intros size e Hext Hsize [Hlo Hhi] Hjson.
    assert (Hc : process_file_content (fs filepath) (basename filepath)
                 = Some ("[JSON parse error: " ++ e ++ "]")).
    { rewrite (dispatch_json _ _ size Hext Hsize Hhi), Hjson.
      apply Z.ltb_ge in Hlo. now rewrite Hlo. }
    destruct (process_one_some fs st priority rel_path filepath _ Hc)
      as (Hp & Hs & He & _).
    repeat split; auto.
  - intros size e Hext Hsize [Hlo Hhi] Hjson.
    assert (Hc : process_file_content (fs filepath) (basename filepath)
                 = Some ("[Error reading file: " ++ e ++ "]")).
    { rewrite (dispatch_json _ _ size Hext Hsize Hhi), Hjson.
      apply Z.ltb_ge in Hlo. now rewrite Hlo. }
    destruct (process_one_some fs st priority rel_path filepath _ Hc)
      as (Hp & Hs & He & _).
    repeat split; auto.
Qed.

Lemma errors_counter_rule_witness :
  let fv := mk_file_view (Some 6000) (Raised "unused")
                         (DecodeError "Expecting value: line 1 column 1 (char 0)")
                         (Raised EmptyString) in
  let st' := process_one (fun _ => fv) (mk_pf initial_stats [])
                         (3, "big.json", "/proj/big.json") in
  process_file_content fv "big.json"
    = Some "[JSON parse error: Expecting value: line 1 column 1 (char 0)]"
  /\ errors (pf_stats st') = 0.
Proof.
  cbv zeta.
  destruct (errors_counter_rule
              (fun _ => mk_file_view (Some 6000) (Raised "unused")
                          (DecodeError "Expecting value: line 1 column 1 (char 0)")
                          (Raised EmptyString))
              (mk_pf initial_stats []) 3 "big.json" "/proj/big.json")
    as (_ & _ & Hjson & _).
  destruct (Hjson 6000 "Expecting value: line 1 column 1 (char 0)"
                  eq_refl eq_refl) as (Hc & _ & _ & He).
  - unfold MAX_FILE_SIZE_PARTIAL. lia.
  - reflexivity.
  - split; [exact Hc | exact He].
Defined.

(* ====================================================================== *)
(** ** Notebook extraction                                                 *)
(* ====================================================================== *)

Lemma get_cell_type_code (cell : nb_cell) :
  String.eqb (get_cell_type cell) "code" = is_cell_of "code" cell.
Proof.
  unfold get_cell_type, is_cell_of. now destruct (cell_type cell).
Qed.

Lemma get_cell_type_markdown (cell : nb_cell) :
  String.eqb (get_cell_type cell) "markdown" = is_cell_of "markdown" cell.
Proof.
  unfold get_cell_type, is_cell_of. now destruct (cell_type cell).
Qed.

(** The loop that appends one commented line at a time builds the mapped
    list. *)
Lemma commented_lines_fold (lines acc : list string) :
  fold_left (fun parts line => parts +:+ ["# " ++ line]) lines acc
  = acc +:+ map (fun line => "# " ++ line) lines.
Proof.
  revert acc. induction lines as [| l lines IH]; intros acc; simpl.
  - now rewrite app_nil_r.
  - rewrite IH, <- app_assoc. reflexivity.
Qed.

(** One iteration appends the cell's contribution and nothing else. *)
Lemma nb_cell_step_appends (parts : list string) (ic : nat * nb_cell) :
  nb_cell_step parts ic = parts +:+ spec_cell_lines ic.
Proof.
  destruct ic as [i cell]. unfold nb_cell_step, spec_cell_lines.
  rewrite get_cell_type_code, get_cell_type_markdown.
  destruct (is_cell_of "code" cell).
  - now rewrite <- app_assoc.
  - destruct (is_cell_of "markdown" cell); simpl.
    + destruct (len (get_source cell) <? 500).
      * rewrite commented_lines_fold, <- app_assoc. reflexivity.
      * now rewrite app_nil_r.
    + now rewrite app_nil_r.
Qed.

Lemma nb_loop_appends (ics : list (nat * nb_cell)) (parts : list string) :
  fold_left nb_cell_step ics parts = parts +:+ flat_map spec_cell_lines ics.
Proof.
  revert parts. induction ics as [| ic ics IH]; intros parts; simpl.
  - now rewrite app_nil_r.
  - rewrite IH, nb_cell_step_appends, <- app_assoc. reflexivity.
Qed.

(** C2, as stated, fails at the threshold: a markdown cell of exactly 500
    characters is not longer than 500 characters, yet it is left out: the
    notebook made of it and a code cell is extracted as the header and the
    code cell only. *)
Lemma markdown_cell_of_500_chars_is_omitted :
  let md := mk_cell (Some "markdown") (Some (SrcStr (text_of_length 500))) in
  let code := mk_cell (Some "code") (Some (SrcList ["x = 1"])) in
  ~ (500 < len (get_source md))
  /\ extract_ipynb_code (Returned (mk_notebook (Some [md; code])))
     = join NL ["# Jupyter Notebook: 1 code cells, 1 markdown cells" ++ NL;
                NL ++ "# --- Cell 2 [Code] ---";
                "x = 1"].
Proof.
  cbv zeta. split.
  - vm_compute. discriminate.
  - apply String.eqb_eq. vm_compute. reflexivity.
Qed.

(** C2, amended: the extraction of a well-formed notebook is the header
    followed by the contributions of its cells in order, joined by
    newlines, where a code cell contributes its marker and its whole
    source as it is, whatever its length; a markdown cell shorter than 500
    characters contributes its marker and each of its lines behind the
    comment prefix; and a markdown cell of 500 characters or more
    contributes nothing. *)
Theorem notebook_extraction (nb : notebook) :
  let cells := match nb_cells nb with Some cs => cs | None => [] end in
  extract_ipynb_code (Returned nb)
  = join NL (notebook_header cells :: flat_map spec_cell_lines (enumerate cells))
  /\ forall (i : nat) (cell : nb_cell),
      (is_cell_of "code" cell = true ->
       spec_cell_lines (i, cell) = [code_marker i; get_source cell])
      /\ (is_cell_of "markdown" cell = true ->
          len (get_source cell) < 500 ->
          spec_cell_lines (i, cell)
          = markdown_marker i
              :: map (fun line => "# " ++ line) (split_lines (get_source cell)))
      /\ (is_cell_of "markdown" cell = true ->
          500 <= len (get_source cell) ->
          spec_cell_lines (i, cell) = []).
Proof.
  cbv zeta. split.
  - unfold extract_ipynb_code, notebook_parts. rewrite nb_loop_appends.
    reflexivity.
  - intros i cell. unfold spec_cell_lines. repeat split.
    + intros ->. reflexivity.
    + intros Hmd Hlt.
      destruct (is_cell_of "code" cell) eqn:Hcode.
      * unfold is_cell_of in *. destruct (cell_type cell); [| discriminate].
        apply String.eqb_eq in Hmd, Hcode. congruence.
      * rewrite Hmd. apply Z.ltb_lt in Hlt. now rewrite Hlt.
    + intros Hmd Hge.
      destruct (is_cell_of "code" cell) eqn:Hcode.
      * unfold is_cell_of in *. destruct (cell_type cell); [| discriminate].
        apply String.eqb_eq in Hmd, Hcode. congruence.
      * rewrite Hmd. apply Z.ltb_ge in Hge. now rewrite Hge.
Qed.

Lemma notebook_extraction_witness :
  spec_cell_lines (0%nat, mk_cell (Some "markdown") (Some (SrcStr (text_of_length 600))))
  = [].
Proof.
  refine (proj2 (proj2 (proj2 (notebook_extraction (mk_notebook None))
                          0%nat
                          (mk_cell (Some "markdown")
                                   (Some (SrcStr (text_of_length 600))))))
            _ _).
  - reflexivity.
  - vm_compute. discriminate.
Defined.

(** The example of the specification: one markdown cell of 600 characters
    and one code cell. *)
Example notebook_600_char_markdown_and_code :
  extract_ipynb_code
    (Returned (mk_notebook
                 (Some [mk_cell (Some "markdown") (Some (SrcStr (text_of_length 600)));
                        mk_cell (Some "code") (Some (SrcStr "print(1)"))])))
  = join NL ["# Jupyter Notebook: 1 code cells, 1 markdown cells" ++ NL;
             NL ++ "# --- Cell 2 [Code] ---";
             "print(1)"].
Proof.
  apply String.eqb_eq. vm_compute. reflexivity.
Qed.

(* ====================================================================== *)
(** ** The bounded summary of a JSON value                                 *)
(* ====================================================================== *)

Lemma str_take_length (n : nat) (s : string) :
  (n <= String.length s)%nat -> String.length (str_take n s) = n.
Proof.
  revert s. induction n as [| n IH]; intros s H.
  - reflexivity.
  - destruct s as [| a s]; simpl in *; [lia |].
    rewrite IH by lia. reflexivity.
Qed.

Lemma str_take_length_le (n : nat) (s : string) :
  (String.length (str_take n s) <= n)%nat.
Proof.
  revert s. induction n as [| n IH]; intros s.
  - simpl. lia.
  - destruct s as [| a s]; simpl; [lia |].
    specialize (IH s). lia.
Qed.

(** C8, as stated, fails: strings longer than 60 characters are not
    always truncated with an ellipsis.  A JSON file of 6004 bytes that
    holds an array of one string of 6000 characters is summarized with that
    array inline, the string in full.  And a string of 100 characters
    nested four objects deep is cut to the first 50 characters of its
    literal, with neither ellipsis nor closing quote. *)
Lemma long_strings_are_not_always_truncated :
  let s := text_of_length 6000 in
  let fv := mk_file_view (Some 6004) (Raised EmptyString)
                         (Parsed (JList [JStr s])) (Raised EmptyString) in
  60 < len s
  /\ process_file_content fv "strings.json"
     = Some ("[JSON file: 5.9KB]" ++ NL ++ NL
             ++ "['" ++ s ++ "']"
             ++ NL ++ NL ++ "# Total items: 1")
  /\ summarize_json_structure
       (JDict [("a", JDict [("b", JDict [("c", JDict [("d", JStr (text_of_length 100))])])])])
       4 0 5 EmptyString
     = join NL
         ["{";
          "  " ++ DQUOTE ++ "a" ++ DQUOTE ++ ": {";
          "    " ++ DQUOTE ++ "b" ++ DQUOTE ++ ": {";
          "      " ++ DQUOTE ++ "c" ++ DQUOTE ++ ": {";
          "        " ++ DQUOTE ++ "d" ++ DQUOTE ++ ": '" ++ text_of_length 49 ++ ",";
          "      },";
          "    },";
          "  },";
          "}"].
Proof.
  cbv zeta. split; [| split].
  - vm_compute. reflexivity.
  - apply returns_text_eq. vm_compute. reflexivity.
  - apply String.eqb_eq. vm_compute. reflexivity.
Qed.

(** C8, amended.  With depth bound 4 and item bound 5:
    - below depth 4, a non-empty object renders as an opening brace, its
      first 5 entries (key in double quotes, value summarized one level
      deeper), a note with the number of remaining keys when there are more
      than 5, and a closing brace; an empty object as a pair of braces;
    - below depth 4, a non-empty array of at most 3 scalars renders inline
      as Python's literal list, its strings in full; any other non-empty
      array renders as a line with its item count, its first 5 items
      summarized one level deeper, a note with the number of remaining
      items when there are more than 5, and a closing bracket;
    - below depth 4, a string outside an inline array is rendered as its
      first 60 characters and an ellipsis between double quotes when it is
      longer than 60 characters (65 characters in all), and as Python's
      quoted literal otherwise;
    - at depth 4 and beyond, an object or array collapses to a placeholder
      that only gives its number of keys or items, and a scalar is rendered
      as the first 50 characters of its literal. *)
Theorem json_summary_rules (depth : nat) (indent : string) :
  let next := indent ++ "  " in
  ((depth < 4)%nat ->
   (forall e entries,
       summary_at (JDict (e :: entries)) depth indent
       = join NL
           (["{"]
            +:+ map (fun kv => next ++ DQUOTE ++ fst kv ++ DQUOTE ++ ": "
                               ++ summary_at (snd kv) (S depth) next ++ ",")
                    (firstn 5 (e :: entries))
            +:+ (if 5 <? llen (e :: entries)
                 then [next ++ "... +" ++ str_of_int (llen (e :: entries) - 5)
                       ++ " more keys"]
                 else [])
            +:+ [indent ++ "}"])
       /\ (List.length (firstn 5 (e :: entries)) <= 5)%nat)
   /\ summary_at (JDict []) depth indent = "{}"
   /\ (forall x items,
          llen (x :: items) <= 3 -> forallb is_scalar (x :: items) = true ->
          summary_at (JList (x :: items)) depth indent
          = "[" ++ join ", " (map repr_json (x :: items)) ++ "]")
   /\ (forall x items,
          (3 < llen (x :: items) \/ forallb is_scalar (x :: items) = false) ->
          summary_at (JList (x :: items)) depth indent
          = join NL
              (["[ // " ++ str_of_int (llen (x :: items)) ++ " items"]
               +:+ map (fun item => next ++ summary_at item (S depth) next ++ ",")
                       (firstn 5 (x :: items))
               +:+ (if 5 <? llen (x :: items)
                    then [next ++ "... +" ++ str_of_int (llen (x :: items) - 5)
                          ++ " more items"]
                    else [])
               +:+ [indent ++ "]"])
          /\ (List.length (firstn 5 (x :: items)) <= 5)%nat)
   /\ summary_at (JList []) depth indent = "[]"
   /\ (forall s,
          60 < len s ->
          summary_at (JStr s) depth indent = DQUOTE ++ str_take 60 s ++ "..." ++ DQUOTE
          /\ len (summary_at (JStr s) depth indent) = 65)
   /\ (forall s,
          len s <= 60 -> summary_at (JStr s) depth indent = repr_str s))
  /\ ((4 <= depth)%nat ->
      (forall entries,
          summary_at (JDict entries) depth indent
          = "{...} (" ++ str_of_int (llen entries) ++ " keys)")
      /\ (forall items,
             summary_at (JList items) depth indent
             = "[...] (" ++ str_of_int (llen items) ++ " items)")
      /\ (forall data,
             is_scalar data = true ->
             summary_at data depth indent = str_take 50 (repr_json data)
             /\ len (summary_at data depth indent) <= 50)).
Proof.
  cbv zeta. split.
  - intros Hd.
    assert (Hleb : Nat.leb 4 depth = false) by (apply Nat.leb_gt; exact Hd).
    unfold summary_at.
    repeat split.
    + cbn [summarize_json_structure]. rewrite Hleb.
      rewrite <- firstn_map. reflexivity.
    + apply firstn_le_length.
    + cbn [summarize_json_structure]. rewrite Hleb. reflexivity.
    + intros x items Hlen Hsc. cbn [summarize_json_structure]. rewrite Hleb.
      apply Z.leb_le in Hlen. rewrite Hlen, Hsc. reflexivity.
    + destruct H as [Hlen | Hsc].
      * cbn [summarize_json_structure]. rewrite Hleb.
        replace (llen (x :: items) <=? 3) with false
          by (symmetry; apply Z.leb_gt; exact Hlen).
        cbn [andb]. rewrite <- firstn_map. reflexivity.
      * cbn [summarize_json_structure]. rewrite Hleb, Hsc, andb_false_r.
        rewrite <- firstn_map. reflexivity.
    + apply firstn_le_length.
    + cbn [summarize_json_structure]. rewrite Hleb. reflexivity.
    + cbn [summarize_json_structure]. rewrite Hleb.
      apply Z.ltb_lt in H. rewrite H. reflexivity.
    + cbn [summarize_json_structure]. rewrite Hleb.
      pose proof H as H'. apply Z.ltb_lt in H'. rewrite H'.
      unfold len in *. unfold DQUOTE.
      rewrite !length_append.
      rewrite str_take_length by lia. simpl. lia.
    + intros s Hs. cbn [summarize_json_structure]. rewrite Hleb.
      replace (60 <? len s) with false by (symmetry; apply Z.ltb_ge; exact Hs).
      reflexivity.
  - intros Hd.
    assert (Hleb : Nat.leb 4 depth = true) by (apply Nat.leb_le; exact Hd).
    unfold summary_at.
    repeat split.
    + intros entries. cbn [summarize_json_structure]. now rewrite Hleb.
    + intros items. cbn [summarize_json_structure]. now rewrite Hleb.
    + destruct data; try discriminate;
        cbn [summarize_json_structure]; now rewrite Hleb.
    + assert (E : summarize_json_structure data 4 depth 5 indent
                  = str_take 50 (repr_json data)).
      { destruct data; try discriminate;
          cbn [summarize_json_structure]; now rewrite Hleb. }
      rewrite E. unfold len.
      pose proof (str_take_length_le 50 (repr_json data)). lia.
Qed.

Lemma json_summary_rules_witness :
  summary_at (JStr (text_of_length 61)) 0 EmptyString
  = DQUOTE ++ text_of_length 60 ++ "..." ++ DQUOTE.
Proof.
  destruct (json_summary_rules 0 EmptyString) as [Hbelow _].
  destruct Hbelow as (_ & _ & _ & _ & _ & Hlong & _); [lia |].
  destruct (Hlong (text_of_length 61)) as [E _].
  - vm_compute. reflexivity.
  - rewrite E. reflexivity.
Defined.

(** The example of the specification: the array [[1,2,3]] renders inline. *)
Example json_three_integers_inline :
  summary_at (JList [JInt 1; JInt 2; JInt 3]) 0 EmptyString = "[1, 2, 3]".
Proof. reflexivity. Qed.

(* ====================================================================== *)
(** ** Sorting and counting                                                *)
(* ====================================================================== *)

Section InsertionSort.

Context {A : Type}.
Variable le : A -> A -> bool.

Lemma insert_by_perm (x : A) (l : list A) :
  Permutation (insert_by le x l) (x :: l).
Proof.
  induction l as [| y l IH]; simpl.
  - apply Permutation_refl.
  - destruct (le x y).
    + apply Permutation_refl.
    + apply perm_trans with (y :: x :: l).
      * now apply perm_skip.
      * apply perm_swap.
Qed.

Lemma sorted_by_perm (l : list A) : Permutation (sorted_by le l) l.
Proof.
  induction l as [| x l IH]; simpl.
  - apply perm_nil.
  - apply perm_trans with (x :: sorted_by le l).
    + apply insert_by_perm.
    + now apply perm_skip.
Qed.

Hypothesis le_total : forall a b, le a b = true \/ le b a = true.
Hypothesis le_trans : forall a b c, le a b = true -> le b c = true -> le a c = true.

Let R (a b : A) : Prop := le a b = true.

Lemma insert_by_sorted (x : A) (l : list A) :
  StronglySorted R l -> StronglySorted R (insert_by le x l).
Proof.
  induction 1 as [| y l Hs IH Hall]; simpl.
  - repeat constructor.
  - destruct (le x y) eqn:E.
    + constructor; [now constructor |].
      constructor; [exact E |].
      eapply Forall_impl; [| exact Hall].
      intros z Hz. exact (le_trans _ _ _ E Hz).
    + constructor; [exact IH |].
      apply (Permutation_Forall (Permutation_sym (insert_by_perm x l))).
      constructor; [| exact Hall].
      destruct (le_total x y) as [H | H]; [congruence | exact H].
Qed.

Lemma sorted_by_sorted (l : list A) : StronglySorted R (sorted_by le l).
Proof.
  induction l as [| x l IH]; simpl.
  - constructor.
  - now apply insert_by_sorted.
Qed.

(** Two sorted arrangements of the same elements are equal when the
    order separates any two distinct elements. *)
Lemma sorted_perm_unique (l1 l2 : list A) :
  StronglySorted R l1 -> StronglySorted R l2 ->
  Permutation l1 l2 ->
  (forall a b, In a l1 -> In b l1 -> R a b -> R b a -> a = b) ->
  l1 = l2.
Proof.
  intros H1. revert l2.
  induction H1 as [| a l1 Hs1 IH Ha]; intros l2 H2 Hp Hanti.
  - apply Permutation_nil in Hp. now subst.
  - destruct H2 as [| b l2 Hs2 Hb].
    + apply Permutation_sym, Permutation_nil in Hp. discriminate.
    + assert (Hab : a = b).
      { assert (Hin_b : In b (a :: l1))
          by (apply (Permutation_in _ (Permutation_sym Hp)); now left).
        assert (Hin_a : In a (b :: l2))
          by (apply (Permutation_in _ Hp); now left).
        destruct Hin_b as [E | Hin_b]; [exact E |].
        destruct Hin_a as [E | Hin_a]; [now symmetry |].
        apply Hanti.
        - now left.
        - now right.
        - rewrite Forall_forall in Ha. now apply Ha.
        - rewrite Forall_forall in Hb. now apply Hb. }
      subst b. f_equal.
      apply IH.
      * exact Hs2.
      * eapply Permutation_cons_inv; exact Hp.
      * intros x y Hx Hy. apply Hanti; now right.
Qed.

Lemma sorted_by_perm_eq (l l' : list A) :
  Permutation l l' ->
  (forall a b, In a l -> In b l -> R a b -> R b a -> a = b) ->
  sorted_by le l = sorted_by le l'.
Proof.
  intros Hp Hanti.
  apply sorted_perm_unique.
  - apply sorted_by_sorted.
  - apply sorted_by_sorted.
  - apply perm_trans with l; [apply sorted_by_perm |].
    apply perm_trans with l'; [exact Hp |].
    apply Permutation_sym, sorted_by_perm.
  - intros a b Ha Hb. apply Hanti.
    + exact (Permutation_in _ (sorted_by_perm l) Ha).
    + exact (Permutation_in _ (sorted_by_perm l) Hb).
Qed.

End InsertionSort.

Section SortTransport.

Context {A B : Type}.
Variable leA : A -> A -> bool.
Variable leB : B -> B -> bool.
Variable Rel : A -> B -> Prop.
Hypothesis le_compat :
  forall a a' b b', Rel a b -> Rel a' b' -> leA a a' = leB b b'.

Lemma insert_by_Forall2 (x : A) (y : B) (l : list A) (l' : list B) :
  Rel x y -> Forall2 Rel l l' ->
  Forall2 Rel (insert_by leA x l) (insert_by leB y l').
Proof.
  intros Hxy. induction 1 as [| a b l l' Hab Hl IH]; simpl.
  - repeat constructor. exact Hxy.
  - rewrite (le_compat x a y b Hxy Hab).
    destruct (leB y b); repeat constructor; auto.
Qed.

(** Sorting two lists whose elements correspond, with orders that agree
    on corresponding elements, gives lists whose elements correspond. *)
Lemma sorted_by_Forall2 (l : list A) (l' : list B) :
  Forall2 Rel l l' ->
  Forall2 Rel (sorted_by leA l) (sorted_by leB l').
Proof.
  induction 1 as [| a b l l' Hab Hl IH]; simpl.
  - constructor.
  - now apply insert_by_Forall2.
Qed.

End SortTransport.

(** Sorting commutes with a map that keeps the order. *)
Lemma sorted_by_map {A B : Type} (leA : A -> A -> bool) (leB : B -> B -> bool)
    (f : A -> B) (l : list A) :
  (forall a a', leB (f a) (f a') = leA a a') ->
  sorted_by leB (map f l) = map f (sorted_by leA l).
Proof.
  intros Hf.
  assert (Hins : forall x s, insert_by leB (f x) (map f s) = map f (insert_by leA x s)).
  { intros x s. induction s as [| y s IH]; simpl.
    - reflexivity.
    - rewrite Hf. destruct (leA x y); simpl; [reflexivity | now rewrite IH]. }
  induction l as [| x l IH]; simpl.
  - reflexivity.
  - now rewrite IH, Hins.
Qed.

Lemma StronglySorted_app_l {A : Type} (R : A -> A -> Prop) (l1 l2 : list A) :
  StronglySorted R (l1 +:+ l2) -> StronglySorted R l1.
Proof.
  induction l1 as [| a l1 IH]; simpl; intros H.
  - constructor.
  - inversion H as [| ? ? Hs Hall]; subst.
    constructor; [now apply IH |].
    apply Forall_app in Hall. tauto.
Qed.

Lemma StronglySorted_app_cross {A : Type} (R : A -> A -> Prop) (l1 l2 : list A) :
  StronglySorted R (l1 +:+ l2) ->
  forall a b, In a l1 -> In b l2 -> R a b.
Proof.
  induction l1 as [| x l1 IH]; simpl; intros H a b Ha Hb.
  - contradiction.
  - inversion H as [| ? ? Hs Hall]; subst.
    destruct Ha as [-> | Ha].
    + rewrite Forall_forall in Hall. apply Hall, in_or_app. now right.
    + now apply IH.
Qed.

Lemma StronglySorted_impl {A : Type} (R R' : A -> A -> Prop) (l : list A) :
  (forall a b, R a b -> R' a b) ->
  StronglySorted R l -> StronglySorted R' l.
Proof.
  intros Himp. induction 1 as [| a l _ IH Hall]; constructor.
  - exact IH.
  - eapply Forall_impl; [| exact Hall]. intros b. apply Himp.
Qed.

(** *** The order on names *)

Lemma string_leb_trans (a b c : string) :
  String.leb a b = true -> String.leb b c = true -> String.leb a c = true.
Proof.
  unfold String.leb. intros Hab Hbc.
  destruct (String.compare a b) eqn:Eab; try discriminate.
  - apply String.compare_eq_iff in Eab. now subst.
  - destruct (String.compare b c) eqn:Ebc; try discriminate.
    + apply String.compare_eq_iff in Ebc. subst. now rewrite Eab.
    + assert (Hac : String.compare a c = Lt).
      { apply String_as_OT.cmp_lt.
        apply String_as_OT.lt_trans with b; now apply String_as_OT.cmp_lt. }
      now rewrite Hac.
Qed.

Lemma name_le_total {A : Type} (a b : string * A) :
  name_le a b = true \/ name_le b a = true.
Proof. apply String.leb_total. Qed.

Lemma name_le_trans {A : Type} (a b c : string * A) :
  name_le a b = true -> name_le b c = true -> name_le a c = true.
Proof. apply string_leb_trans. Qed.

(** In a listing without repeated names, the order on names separates the
    entries. *)
Lemma name_le_separates {A : Type} (l : list (string * A)) :
  NoDup (map fst l) ->
  forall a b, In a l -> In b l -> name_le a b = true -> name_le b a = true -> a = b.
Proof.
  intros Hnd a b Ha Hb Hab Hba.
  assert (Hk : fst a = fst b) by (apply String.leb_antisym; assumption).
  clear Hab Hba.
  induction l as [| x l IH]; [contradiction |].
  simpl in Hnd. inversion Hnd as [| ? ? Hx Hnd']; subst.
  destruct Ha as [-> | Ha], Hb as [-> | Hb].
  - reflexivity.
  - exfalso. apply Hx. rewrite Hk. now apply in_map.
  - exfalso. apply Hx. rewrite <- Hk. now apply in_map.
  - now apply IH.
Qed.

(** The listing of a directory is sorted the same whatever the order in
    which the operating system gave it. *)
Lemma sorted_listing_perm {A : Type} (l l' : list (string * A)) :
  NoDup (map fst l) -> Permutation l l' ->
  sorted_by name_le l = sorted_by name_le l'.
Proof.
  intros Hnd Hp.
  apply sorted_by_perm_eq.
  - apply name_le_total.
  - apply name_le_trans.
  - exact Hp.
  - now apply name_le_separates.
Qed.

(** *** Counting labels in a dictionary *)

Lemma dict_get_incr (e k : string) (d : list (string * Z)) :
  dict_get e (dict_incr k d)
  = dict_get e d + (if String.eqb e k then 1 else 0).
Proof.
  unfold dict_get.
  induction d as [| [k' v] d IH]; simpl.
  - destruct (String.eqb e k); reflexivity.
  - destruct (String.eqb k k') eqn:Ekk; simpl.
    + apply String.eqb_eq in Ekk. subst k'.
      destruct (String.eqb e k); simpl; lia.
    + destruct (String.eqb e k') eqn:Eek; simpl.
      * apply String.eqb_eq in Eek. subst k'.
        rewrite String.eqb_sym, Ekk. lia.
      * exact IH.
Qed.

Lemma dict_incr_keys (e k : string) (d : list (string * Z)) :
  In e (map fst (dict_incr k d)) <-> e = k \/ In e (map fst d).
Proof.
  induction d as [| [k' v] d IH]; simpl.
  - intuition.
  - destruct (String.eqb k k') eqn:Ekk; simpl.
    + apply String.eqb_eq in Ekk. subst k'. intuition.
    + rewrite IH. intuition.
Qed.

Lemma dict_incr_nodup (k : string) (d : list (string * Z)) :
  NoDup (map fst d) -> NoDup (map fst (dict_incr k d)).
Proof.
  induction d as [| [k' v] d IH]; simpl; intros Hnd.
  - repeat constructor. intros [].
  - inversion Hnd as [| ? ? Hk' Hnd']; subst.
    destruct (String.eqb k k') eqn:Ekk; simpl.
    + now constructor.
    + constructor; [| now apply IH].
      rewrite dict_incr_keys. intros [E | H]; [| contradiction].
      subst k'. rewrite String.eqb_refl in Ekk. discriminate.
Qed.

Lemma dict_incr_positive (k : string) (d : list (string * Z)) :
  Forall (fun kv => 0 < snd kv) d ->
  Forall (fun kv => 0 < snd kv) (dict_incr k d).
Proof.
  induction 1 as [| [k' v] d Hv Hd IH]; simpl.
  - repeat constructor.
  - destruct (String.eqb k k'); constructor; simpl in *; auto; lia.
Qed.

Lemma dict_get_of_entry (e : string) (n : Z) (d : list (string * Z)) :
  NoDup (map fst d) -> In (e, n) d -> dict_get e d = n.
Proof.
  unfold dict_get.
  induction d as [| [k v] d IH]; simpl; intros Hnd Hin; [contradiction |].
  inversion Hnd as [| ? ? Hk Hnd']; subst.
  destruct Hin as [E | Hin].
  - injection E as -> ->. now rewrite String.eqb_refl.
  - destruct (String.eqb e k) eqn:Eek.
    + apply String.eqb_eq in Eek. subst k. exfalso. apply Hk.
      change e with (fst (e, n)). now apply in_map.
    + now apply IH.
Qed.

Lemma dict_entry_of_get (e : string) (d : list (string * Z)) :
  dict_get e d <> 0 -> In (e, dict_get e d) d.
Proof.
  unfold dict_get.
  induction d as [| [k v] d IH]; simpl; intros H; [congruence |].
  destruct (String.eqb e k) eqn:Eek.
  - apply String.eqb_eq in Eek. subst k. now left.
  - right. now apply IH.
Qed.

Lemma count_of_cons (k e : string) (labels : list string) :
  count_of (k :: labels) e
  = (if String.eqb e k then 1 else 0) + count_of labels e.
Proof.
  unfold count_of, llen. cbn [filter].
  destruct (String.eqb e k); cbn [List.length]; lia.
Qed.

Lemma count_of_nonneg (labels : list string) (e : string) :
  0 <= count_of labels e.
Proof. unfold count_of. apply llen_nonneg. Qed.

Section Histogram.

(** The loop [for k in labels: d[k] += 1] from the dictionary [d0]. *)
Let hist_from (d0 : list (string * Z)) (labels : list string) :=
  fold_left (fun d k => dict_incr k d) labels d0.

Lemma hist_from_get (labels : list string) (d0 : list (string * Z)) (e : string) :
  dict_get e (hist_from d0 labels) = dict_get e d0 + count_of labels e.
Proof.
  unfold hist_from.
  revert d0. induction labels as [| k labels IH]; intros d0; simpl.
  - unfold count_of, llen. simpl. lia.
  - rewrite IH, dict_get_incr, count_of_cons. lia.
Qed.

Lemma hist_from_invariant (labels : list string) (d0 : list (string * Z)) :
  NoDup (map fst d0) /\ Forall (fun kv => 0 < snd kv) d0 ->
  NoDup (map fst (hist_from d0 labels))
  /\ Forall (fun kv => 0 < snd kv) (hist_from d0 labels).
Proof.
  unfold hist_from.
  revert d0. induction labels as [| k labels IH]; intros d0 [Hnd Hpos]; simpl.
  - now split.
  - apply IH. split; [now apply dict_incr_nodup | now apply dict_incr_positive].
Qed.

End Histogram.

Lemma hist_of_invariant (labels : list string) :
  NoDup (map fst (hist_of labels))
  /\ Forall (fun kv => 0 < snd kv) (hist_of labels).
Proof.
  apply hist_from_invariant. split; constructor.
Qed.

(** The dictionary holds each label with its number of occurrences. *)
Lemma hist_of_entry (labels : list string) (e : string) (n : Z) :
  In (e, n) (hist_of labels) <-> n = count_of labels e /\ 0 < n.
Proof.
  destruct (hist_of_invariant labels) as [Hnd Hpos].
  assert (Hget : dict_get e (hist_of labels) = count_of labels e).
  { unfold hist_of. rewrite hist_from_get. reflexivity. }
  split.
  - intros Hin. split.
    + rewrite <- Hget. symmetry. now apply dict_get_of_entry.
    + rewrite Forall_forall in Hpos. exact (Hpos _ Hin).
  - intros [-> Hn]. rewrite <- Hget. apply dict_entry_of_get. lia.
Qed.

Lemma hist_of_nil_iff (labels : list string) :
  hist_of labels = [] <-> labels = [].
Proof.
  split; intros H.
  - destruct labels as [| k labels]; [reflexivity |]. exfalso.
    assert (Hin : In (k, count_of (k :: labels) k) (hist_of (k :: labels))).
    { apply hist_of_entry. split; [reflexivity |].
      rewrite count_of_cons, String.eqb_refl.
      pose proof (count_of_nonneg labels k). lia. }
    rewrite H in Hin. contradiction.
  - now subst.
Qed.

Lemma by_count_desc_total (a b : string * Z) :
  by_count_desc a b = true \/ by_count_desc b a = true.
Proof.
  unfold by_count_desc. rewrite !Z.leb_le. lia.
Qed.

Lemma by_count_desc_trans (a b c : string * Z) :
  by_count_desc a b = true -> by_count_desc b c = true ->
  by_count_desc a c = true.
Proof.
  unfold by_count_desc. rewrite !Z.leb_le. lia.
Qed.

(** The five entries kept by the summaries are the most frequent
    labels. *)
Lemma top5_of_hist (labels : list string) :
  is_top5_of labels (firstn 5 (sorted_by by_count_desc (hist_of labels))).
Proof.
  set (sorted := sorted_by by_count_desc (hist_of labels)).
  assert (Hperm : Permutation sorted (hist_of labels)) by apply sorted_by_perm.
  assert (Hsorted : StronglySorted (fun a b => by_count_desc a b = true) sorted).
  { apply sorted_by_sorted.
    - apply by_count_desc_total.
    - apply by_count_desc_trans. }
  assert (Hsplit : sorted = firstn 5 sorted +:+ skipn 5 sorted)
    by (symmetry; apply firstn_skipn).
  destruct (hist_of_invariant labels) as [Hnd _].
  assert (Hnd_sorted : NoDup (map fst sorted)).
  { apply (Permutation_NoDup (l := map fst (hist_of labels))); [| exact Hnd].
    apply Permutation_map, Permutation_sym, Hperm. }
  assert (Hin_top : forall kv, In kv (firstn 5 sorted) -> In kv (hist_of labels)).
  { intros kv H. apply (Permutation_in _ Hperm).
    rewrite Hsplit. apply in_or_app. now left. }
  assert (Hrest : forall e', 0 < count_of labels e' ->
                             ~ In e' (map fst (firstn 5 sorted)) ->
                             In (e', count_of labels e') (skipn 5 sorted)).
  { intros e' Hpos Hnot.
    assert (Hin : In (e', count_of labels e') sorted).
    { apply (Permutation_in _ (Permutation_sym Hperm)).
      apply hist_of_entry. now split. }
    rewrite Hsplit in Hin. apply in_app_or in Hin as [Hin | Hin]; [| exact Hin].
    exfalso. apply Hnot. change e' with (fst (e', count_of labels e')).
    now apply in_map. }
  unfold is_top5_of.
  split; [| split; [| split; [| split; [| split]]]].
  - apply firstn_le_length.
  - rewrite Hsplit, map_app in Hnd_sorted.
    now apply NoDup_app_remove_r in Hnd_sorted.
  - intros e n Hin. apply hist_of_entry. now apply Hin_top.
  - intros e n e' Hin Hnot.
    assert (Hn : 0 < n) by (apply (hist_of_entry labels e n); now apply Hin_top).
    destruct (Z.eq_dec (count_of labels e') 0) as [E | E]; [lia |].
    pose proof (count_of_nonneg labels e') as Hge.
    assert (Hr : In (e', count_of labels e') (skipn 5 sorted))
      by (apply Hrest; [lia | exact Hnot]).
    rewrite Hsplit in Hsorted.
    pose proof (StronglySorted_app_cross _ _ _ Hsorted _ _ Hin Hr) as Hc.
    unfold by_count_desc in Hc. simpl in Hc. apply Z.leb_le in Hc. lia.
  - intros e' Hpos Hnot.
    pose proof (Hrest e' Hpos Hnot) as Hr.
    assert (Hlen : (5 < List.length sorted)%nat).
    { destruct (Nat.lt_ge_cases 5 (List.length sorted)) as [H | H]; [exact H |].
      rewrite skipn_all2 in Hr by exact H. contradiction. }
    rewrite length_firstn. lia.
  - rewrite Hsplit in Hsorted. apply StronglySorted_app_l in Hsorted.
    eapply StronglySorted_impl; [| exact Hsorted].
    intros a b Hb. unfold by_count_desc in Hb. apply Z.leb_le in Hb. lia.
Qed.


(* ====================================================================== *)
(** ** The tree builder                                                    *)
(* ====================================================================== *)

Lemma fold_left_map_arg {A B C : Type} (step : C -> B -> C) (f : A -> B)
    (l : list A) (acc : C) :
  fold_left (fun c a => step c (f a)) l acc = fold_left step (map f l) acc.
Proof.
  revert acc. induction l as [| a l IH]; intros acc; simpl; auto.
Qed.

Lemma fold_left_filter_arg {A C : Type} (step : C -> A -> C) (keep : A -> bool)
    (l : list A) (acc : C) :
  fold_left (fun c a => if keep a then step c a else c) l acc
  = fold_left step (filter keep l) acc.
Proof.
  revert acc. induction l as [| a l IH]; intros acc; simpl; auto.
  destruct (keep a); simpl; auto.
Qed.

Lemma flat_map_Forall2 {A B C : Type} (R : A -> B -> Prop)
    (f : A -> list C) (g : B -> list C) (l : list A) (l' : list B) :
  Forall2 R l l' -> (forall a b, R a b -> f a = g b) ->
  flat_map f l = flat_map g l'.
Proof.
  intros H Hfg. induction H as [| a b l l' Hab _ IH]; simpl.
  - reflexivity.
  - now rewrite (Hfg a b Hab), IH.
Qed.

Lemma Forall2_strengthen {A B : Type} (R R' : A -> B -> Prop) (Q : A -> Prop)
    (l : list A) (l' : list B) :
  Forall2 R l l' -> Forall Q l ->
  (forall a b, Q a -> R a b -> R' a b) ->
  Forall2 R' l l'.
Proof.
  intros H HQ Himp. induction H as [| a b l l' Hab _ IH].
  - constructor.
  - inversion HQ; subst. constructor; auto.
Qed.

Lemma sum_sizes_fold (files : list (string * option Z)) (acc : Z) :
  fold_left (fun total f => match snd f with
                            | Some size => total + size
                            | None => total
                            end) files acc
  = acc + sum_sizes files.
Proof.
  revert acc. induction files as [| f files IH]; intros acc; simpl.
  - lia.
  - rewrite IH. destruct (snd f); lia.
Qed.

Section TreeFacts.

Variables exclude_dirs summarize_dirs gitignore_patterns : list string.
Variable script_name : string.

Local Abbreviation walk :=
  (_walk_dir exclude_dirs summarize_dirs gitignore_patterns script_name).
Local Abbreviation render :=
  (render_dir exclude_dirs summarize_dirs gitignore_patterns script_name).
Local Abbreviation files_of := (dir_files gitignore_patterns script_name).
Local Abbreviation subdirs_of := (dir_subdirs exclude_dirs gitignore_patterns).

Lemma walk_dir_listing (listing : option (list (string * fs_node)))
    (is_root : bool) (name prefix : string) (is_last : bool) :
  walk (FsDir listing) is_root name prefix is_last
  = render is_root name prefix is_last
      (option_map (listing_view (fun child child_name => walk child false child_name))
                  listing).
Proof. reflexivity. Qed.

(** Sorting the entries met by [_walk_dir] is sorting the listing. *)
Lemma sorted_listing_view
    (w : fs_node -> string -> string -> bool -> list string)
    (raw : list (string * fs_node)) :
  sorted_by (fun a b => String.leb (fst a) (fst b)) (listing_view w raw)
  = listing_view w (sorted_by name_le raw).
Proof.
  unfold listing_view. apply sorted_by_map. reflexivity.
Qed.

Lemma kept_files_view
    (w : fs_node -> string -> string -> bool -> list string)
    (l : list (string * fs_node)) :
  kept_files gitignore_patterns script_name (listing_view w l)
  = flat_map (fun e =>
                match snd e with
                | FsFile size =>
                    if keeps_file gitignore_patterns script_name (fst e)
                    then [(fst e, size)] else []
                | FsDir _ => []
                end) l.
Proof.
  unfold kept_files, listing_view, keeps_file.
  induction l as [| [n x] l IH]; cbn [map flat_map fst snd].
  - reflexivity.
  - rewrite IH. destruct x; reflexivity.
Qed.

Lemma kept_dirs_view
    (w : fs_node -> string -> string -> bool -> list string)
    (l : list (string * fs_node)) :
  kept_dirs exclude_dirs gitignore_patterns (listing_view w l)
  = map (fun e => (fst e, w (snd e) (fst e)))
        (filter (fun e =>
                   match snd e with
                   | FsDir _ => keeps_dir exclude_dirs gitignore_patterns (fst e)
                   | FsFile _ => false
                   end) l).
Proof.
  unfold kept_dirs, listing_view, keeps_dir.
  induction l as [| [n x] l IH]; cbn [map flat_map filter fst snd].
  - reflexivity.
  - rewrite IH. destruct x; cbn [app]; [reflexivity |].
    destruct (negb (should_exclude_dir n exclude_dirs)
              && negb (str_in n gitignore_patterns))%bool; reflexivity.
Qed.

(** The body of [_walk_dir] on a readable directory, in terms of the
    directory's files and subdirectories. *)
Lemma walk_dir_readable (raw : list (string * fs_node))
    (is_root : bool) (name prefix : string) (is_last : bool) :
  walk (FsDir (Some raw)) is_root name prefix is_last
  = dir_header is_root name prefix is_last
    :: (if str_in name summarize_dirs
        then summarize_branch (dir_new_prefix is_root prefix is_last) (files_of raw)
        else list_branch (dir_new_prefix is_root prefix is_last)
               (map (fun e => (fst e, walk (snd e) false (fst e))) (subdirs_of raw))
               (files_of raw)).
Proof.
  rewrite walk_dir_listing. unfold render_dir. cbn [option_map].
  rewrite sorted_listing_view, kept_files_view, kept_dirs_view.
  unfold dir_header, dir_new_prefix, dir_files, dir_subdirs.
  destruct (str_in name summarize_dirs); reflexivity.
Qed.

Lemma walk_dir_denied (is_root : bool) (name prefix : string) (is_last : bool) :
  walk (FsDir None) is_root name prefix is_last
  = [dir_header is_root name prefix is_last;
     dir_new_prefix is_root prefix is_last ++ "[Permission Denied]"].
Proof. reflexivity. Qed.

(** The summary line of a summarized directory, in terms of its files. *)
Lemma summarize_branch_spec (new_prefix : string)
    (files : list (string * option Z)) :
  summarize_branch new_prefix files
  = match files with
    | [] => []
    | _ =>
        [new_prefix ++ "📦 [" ++ str_of_int (llen files) ++ " files, "
         ++ format_size (sum_sizes files) ++ "]: "
         ++ join ", "
              (map count_ext_part
                   (firstn 5 (sorted_by by_count_desc
                                        (hist_of (map ext_label files)))))]
    end.
Proof.
  unfold summarize_branch.
  destruct files as [| f files]; [reflexivity |].
  rewrite sum_sizes_fold, Z.add_0_l.
  rewrite (fold_left_map_arg (fun d k => dict_incr k d) ext_label).
  reflexivity.
Qed.

(** The files that the tree considers do not depend on what the
    subdirectories hold. *)
Lemma dir_files_shallow (raw raw' : list (string * fs_node)) :
  same_files_and_dir_names raw raw' -> files_of raw = files_of raw'.
Proof.
  intros H. unfold dir_files.
  eapply flat_map_Forall2.
  - eapply sorted_by_Forall2; [| exact H].
    intros a a' b b' [Ha _] [Ha' _]. unfold name_le. now rewrite Ha, Ha'.
  - intros a b [Hn Hs]. cbv beta in Hs.
    destruct (snd a), (snd b); try contradiction.
    + now rewrite Hn, Hs.
    + reflexivity.
Qed.

End TreeFacts.

(** *** Summarized directories *)

Section SummarizedDirectory.

Variables exclude_dirs summarize_dirs gitignore_patterns : list string.
Variable script_name : string.

Local Abbreviation walk :=
  (_walk_dir exclude_dirs summarize_dirs gitignore_patterns script_name).
Local Abbreviation files_of := (dir_files gitignore_patterns script_name).

(** C5: a directory whose base name is in the summarize set renders, below
    its own line, nothing when it has no file to count, and otherwise
    exactly one line: the number of files, the human-readable total of
    their readable sizes, and the at most five most frequent extensions
    with their counts.  The rendering is the same whatever its
    subdirectories hold, so none is entered and no file gets a line of
    its own.  When the directory cannot be listed, the only line below
    its own is the permission notice. *)
Theorem summarized_directory_rendering (raw : list (string * fs_node))
    (is_root : bool) (name prefix : string) (is_last : bool) :
  str_in name summarize_dirs = true ->
  let header := dir_header is_root name prefix is_last in
  let new_prefix := dir_new_prefix is_root prefix is_last in
  let files := files_of raw in
  let lines := walk (FsDir (Some raw)) is_root name prefix is_last in
  (files = [] -> lines = [header])
  /\ (files <> [] ->
      exists top,
        is_top5_of (map ext_label files) top
        /\ lines =
             [header;
              new_prefix ++ "📦 [" ++ str_of_int (llen files) ++ " files, "
              ++ format_size (sum_sizes files) ++ "]: "
              ++ join ", " (map count_ext_part top)])
  /\ (forall raw',
         same_files_and_dir_names raw raw' ->
         walk (FsDir (Some raw')) is_root name prefix is_last = lines)
  /\ walk (FsDir None) is_root name prefix is_last
     = [header; new_prefix ++ "[Permission Denied]"].
Proof.
  intros Hsum. cbv zeta.
  assert (Hwalk : forall l,
             walk (FsDir (Some l)) is_root name prefix is_last
             = dir_header is_root name prefix is_last
               :: summarize_branch (dir_new_prefix is_root prefix is_last)
                                   (files_of l)).
  { intros l. rewrite walk_dir_readable, Hsum. reflexivity. }
  split; [| split; [| split]].
  - intros Hnil. rewrite Hwalk, Hnil. reflexivity.
  - intros Hfiles.
    exists (firstn 5 (sorted_by by_count_desc
                        (hist_of (map ext_label (files_of raw))))).
    split; [apply top5_of_hist |].
    rewrite Hwalk, summarize_branch_spec.
    destruct (files_of raw); [contradiction | reflexivity].
  - intros raw' Hsame. rewrite !Hwalk.
    now rewrite (dir_files_shallow _ _ raw raw' Hsame).
  - apply walk_dir_denied.
Qed.

End SummarizedDirectory.

Lemma summarized_directory_rendering_witness :
  let data := [("b.csv", FsFile (Some 1000));
               ("raw", FsDir (Some [("x.bin", FsFile (Some 7))]));
               ("a.csv", FsFile (Some 1048));
               ("notes", FsFile None)] in
  _walk_dir DIRS_TO_EXCLUDE DIRS_TO_SUMMARIZE [] "generate_context.py"
    (FsDir (Some data)) false "data" "│   " true
  = ["│   └── data/";
     "│       📦 [3 files, 2.0KB]: 2.csv, 1(no ext)"].
Proof.
  cbv zeta.
  destruct (summarized_directory_rendering
              DIRS_TO_EXCLUDE DIRS_TO_SUMMARIZE [] "generate_context.py"
              [("b.csv", FsFile (Some 1000));
               ("raw", FsDir (Some [("x.bin", FsFile (Some 7))]));
               ("a.csv", FsFile (Some 1048));
               ("notes", FsFile None)]
              false "data" "│   " true eq_refl)
    as (_ & _ & Hsame & _).
  rewrite <- (Hsame [("b.csv", FsFile (Some 1000));
                     ("raw", FsDir None);
                     ("a.csv", FsFile (Some 1048));
                     ("notes", FsFile None)]).
  - reflexivity.
  - repeat constructor.
Defined.

(** *** Listed directories *)

Lemma show_file_line (new_prefix : string) (total_entries : Z) (st : show_state)
    (f : string * option Z) :
  show_file new_prefix total_entries st f
  = mk_show (entry_idx st + 1)
            (shown st +:+ [file_line new_prefix (entry_idx st + 1 =? total_entries) f]).
Proof.
  unfold show_file, file_line, size_annotation. reflexivity.
Qed.

(** The loop over the shown files numbers them from the counter's value and
    appends one line for each. *)
Lemma show_files_loop (new_prefix : string) (total_entries : Z)
    (files : list (string * option Z)) :
  forall (s : nat) (st : show_state),
    entry_idx st = Z.of_nat s ->
    fold_left (show_file new_prefix total_entries) files st
    = mk_show (Z.of_nat (s + List.length files))
        (shown st
         +:+ map (fun kf => file_line new_prefix
                              (Z.of_nat (fst kf) + 1 =? total_entries) (snd kf))
                 (combine (seq s (List.length files)) files)).
Proof.
  induction files as [| f files IH]; intros s st Hs; simpl.
  - rewrite app_nil_r, Nat.add_0_r, <- Hs. now destruct st.
  - rewrite (IH (S s)).
    + rewrite show_file_line. cbn [shown]. rewrite <- app_assoc, Hs.
      f_equal. lia.
    + rewrite show_file_line. cbn [entry_idx]. lia.
Qed.

Lemma in_enumerate_lt {A : Type} (l : list A) (k : nat) (x : A) :
  In (k, x) (enumerate l) -> (k < List.length l)%nat.
Proof.
  unfold enumerate. intros H. apply in_combine_l in H.
  apply in_seq in H. lia.
Qed.

(** The subdirectory loop, with the flags it passes gathered in a list. *)
Lemma subdir_loop_flags {A C : Type} (m : A -> string * (string -> bool -> list C))
    (G : A -> bool -> list C) (new_prefix : string) (flag : nat -> bool)
    (l : list A) :
  (forall e b, snd (m e) new_prefix b = G e b) ->
  forall s,
    flat_map (fun id => snd (snd id) new_prefix (flag (fst id)))
             (combine (seq s (List.length (map m l))) (map m l))
    = flat_map (fun df => G (fst df) (snd df))
               (combine l (map flag (seq s (List.length l)))).
Proof.
  intros HG. induction l as [| e l IH]; intros s; simpl.
  - reflexivity.
  - rewrite HG, IH. reflexivity.
Qed.

(** The test [entry_idx == total_entries] on the [k]-th shown file holds
    exactly when that file is the last show-able one and nothing else is
    displayed after the files. *)
Lemma last_entry_test (k n : nat) (d : Z) (no_skipped no_dirs : bool) :
  (k < Nat.min 30 n)%nat ->
  (no_dirs = true <-> d = 0) -> 0 <= d ->
  (Z.of_nat k + 1 =? d + Z.of_nat n + (if no_skipped then 0 else 1))
  = (Nat.eqb (S k) n && (Z.of_nat n <=? 30) && no_skipped && no_dirs)%bool.
Proof.
  intros Hk Hd Hnn.
  apply eq_true_iff_eq.
  rewrite !andb_true_iff, Z.eqb_eq, Nat.eqb_eq, Z.leb_le, Hd.
  destruct no_skipped; split; intros H.
  - repeat split; try lia.
  - lia.
  - lia.
  - destruct H as [[_ H] _]. discriminate.
Qed.

(** The term [1 if skipped_by_ext else 0] of the entry count. *)
Lemma skipped_flag (labels : list string) :
  match hist_of labels with [] => 0 | _ => 1 end
  = if is_empty labels then 0 else 1.
Proof.
  destruct labels as [| k labels]; [reflexivity |].
  destruct (hist_of (k :: labels)) eqn:E; [| reflexivity].
  apply hist_of_nil_iff in E. discriminate.
Qed.

Section ListedDirectory.

Variables exclude_dirs summarize_dirs gitignore_patterns : list string.
Variable script_name : string.

Local Abbreviation walk :=
  (_walk_dir exclude_dirs summarize_dirs gitignore_patterns script_name).
Local Abbreviation files_of := (dir_files gitignore_patterns script_name).
Local Abbreviation subdirs_of := (dir_subdirs exclude_dirs gitignore_patterns).

(** C6, amended: a listed directory renders, below its own line and in
    this order: its first 30 show-able files, one line each, with the
    closing connector exactly for a file that is the last entry displayed
    for the directory and the other connector otherwise, and with the
    human-readable size when the size can be read (no annotation
    otherwise); exactly one line ["... and N more files"], N being the
    excess over 30, when there are more than 30 show-able files, and none
    otherwise; exactly one line ["[skipped: ...]"] with the at most five
    most frequent skipped extensions and their counts when some file is
    skipped by extension, and none otherwise; then the renderings of its
    subdirectories. *)
Theorem listed_directory_rendering (raw : list (string * fs_node))
    (is_root : bool) (name prefix : string) (is_last : bool) :
  str_in name summarize_dirs = false ->
  let new_prefix := dir_new_prefix is_root prefix is_last in
  let files := files_of raw in
  let showable := filter (fun f => negb (skip_by_ext f)) files in
  let skipped := filter skip_by_ext files in
  let subdirs := subdirs_of raw in
  let is_last_displayed (k : nat) : bool :=
    (Nat.eqb (S k) (List.length showable) && (llen showable <=? 30)
     && is_empty skipped && is_empty subdirs)%bool in
  exists (overflow_lines skipped_lines : list string) (flags : list bool),
    walk (FsDir (Some raw)) is_root name prefix is_last
    = dir_header is_root name prefix is_last
      :: map (fun kf => file_line new_prefix (is_last_displayed (fst kf)) (snd kf))
             (enumerate (firstn 30 showable))
         +:+ overflow_lines
         +:+ skipped_lines
         +:+ flat_map (fun df => walk (snd (fst df)) false (fst (fst df))
                                      new_prefix (snd df))
                      (combine subdirs flags)
    /\ List.length flags = List.length subdirs
    /\ (List.length (firstn 30 showable) <= 30)%nat
    /\ (llen showable <= 30 -> overflow_lines = [])
    /\ (30 < llen showable ->
        exists conn,
          (conn = CONN_LAST \/ conn = CONN_MID)
          /\ overflow_lines =
               [new_prefix ++ conn ++ "... and "
                ++ str_of_int (llen showable - 30) ++ " more files"])
    /\ (skipped = [] -> skipped_lines = [])
    /\ (skipped <> [] ->
        exists conn top,
          (conn = CONN_LAST \/ conn = CONN_MID)
          /\ is_top5_of (map (fun f => file_ext (fst f)) skipped) top
          /\ skipped_lines =
               [new_prefix ++ conn ++ "[skipped: "
                ++ join ", " (map count_ext_part top) ++ "]"]).
Proof.
  intros Hsum. cbv zeta.
  set (new_prefix := dir_new_prefix is_root prefix is_last).
  set (files := files_of raw).
  set (showable := filter (fun f => negb (skip_by_ext f)) files).
  set (skipped := filter skip_by_ext files).
  set (subdirs := subdirs_of raw).
  set (dirs := map (fun e => (fst e, walk (snd e) false (fst e))) subdirs).
  set (hist := hist_of (map (fun f => file_ext (fst f)) skipped)).
  set (total := llen dirs + llen showable
                + match hist with [] => 0 | _ => 1 end).
  (* the dictionary of skipped extensions *)
  assert (Hhist : fold_left
                    (fun d f => if skip_by_ext f
                                then dict_incr (lower (splitext_ext (fst f))) d
                                else d) files []
                  = hist).
  { rewrite (fold_left_filter_arg
               (fun d f => dict_incr (lower (splitext_ext (fst f))) d)).
    apply (fold_left_map_arg (fun d k => dict_incr k d)
                             (fun f => file_ext (fst f))). }
  assert (Hhist_nil : hist = [] <-> skipped = []).
  { unfold hist. rewrite hist_of_nil_iff.
    split; intros H; [now apply map_eq_nil in H | now rewrite H]. }
  assert (Hdirs : llen dirs = llen subdirs).
  { unfold llen, dirs. now rewrite length_map. }
  (* the states of the three display steps *)
  set (st1 := fold_left (show_file new_prefix total)
                        (firstn (Z.to_nat MAX_FILES_PER_DIR) showable)
                        (mk_show 0 [])).
  set (st2 := show_overflow new_prefix total showable st1).
  set (st3 := show_skipped new_prefix total hist st2).
  assert (Hbranch :
    list_branch new_prefix dirs files
    = shown st3
      +:+ flat_map (fun id =>
                      snd (snd id) new_prefix
                          ((Z.of_nat (fst id) =? llen dirs - 1)
                           && (entry_idx st3 =? total))%bool)
                   (enumerate dirs)).
  { unfold list_branch. fold showable. rewrite Hhist. reflexivity. }
  assert (Hst1 : st1
                 = mk_show (Z.of_nat (List.length (firstn 30 showable)))
                     (map (fun kf => file_line new_prefix
                                       (Z.of_nat (fst kf) + 1 =? total) (snd kf))
                          (enumerate (firstn 30 showable)))).
  { unfold st1. change (Z.to_nat MAX_FILES_PER_DIR) with 30%nat.
    rewrite (show_files_loop new_prefix total (firstn 30 showable) 0
                             (mk_show 0 []) eq_refl).
    reflexivity. }
  (* the connector of a file line *)
  assert (Hconn :
    map (fun kf => file_line new_prefix (Z.of_nat (fst kf) + 1 =? total) (snd kf))
        (enumerate (firstn 30 showable))
    = map (fun kf =>
             file_line new_prefix
               (Nat.eqb (S (fst kf)) (List.length showable)
                && (llen showable <=? 30)
                && is_empty skipped && is_empty subdirs)%bool (snd kf))
          (enumerate (firstn 30 showable))).
  { apply map_ext_in. intros [k f] Hin. cbn [fst snd]. f_equal.
    apply in_enumerate_lt in Hin. rewrite length_firstn in Hin.
    unfold total. rewrite Hdirs.
    assert (Hflag : match hist with [] => 0 | _ => 1 end
                    = if is_empty skipped then 0 else 1).
    { unfold hist. rewrite skipped_flag. now destruct skipped. }
    rewrite Hflag.
    apply last_entry_test.
    - lia.
    - unfold llen. destruct subdirs; simpl; split; intros; try congruence; lia.
    - apply llen_nonneg. }
  (* the lines and the counter after the three steps *)
  set (file_lines := map (fun kf =>
             file_line new_prefix
               (Nat.eqb (S (fst kf)) (List.length showable)
                && (llen showable <=? 30)
                && is_empty skipped && is_empty subdirs)%bool (snd kf))
          (enumerate (firstn 30 showable))) in *.
  rewrite Hconn in Hst1.
  set (overflow_lines :=
         if MAX_FILES_PER_DIR <? llen showable
         then [new_prefix
               ++ (if entry_idx st1 + 1 =? total then CONN_LAST else CONN_MID)
               ++ "... and " ++ str_of_int (llen showable - MAX_FILES_PER_DIR)
               ++ " more files"]
         else []).
  assert (Hst2 : shown st2 = shown st1 +:+ overflow_lines).
  { unfold st2, show_overflow, overflow_lines.
    destruct (MAX_FILES_PER_DIR <? llen showable); cbn [shown].
    - reflexivity.
    - now rewrite app_nil_r. }
  set (skipped_lines :=
         match hist with
         | [] => []
         | _ => [new_prefix
                 ++ (if entry_idx st2 + 1 =? total then CONN_LAST else CONN_MID)
                 ++ "[skipped: " ++ join ", " (top5_parts hist) ++ "]"]
         end).
  assert (Hst3 : shown st3 = shown st2 +:+ skipped_lines).
  { unfold st3, show_skipped, skipped_lines.
    destruct hist; cbn [shown].
    - now rewrite app_nil_r.
    - reflexivity. }
  set (flag := fun i : nat =>
                 ((Z.of_nat i =? llen dirs - 1) && (entry_idx st3 =? total))%bool).
  exists overflow_lines, skipped_lines,
         (map flag (seq 0 (List.length subdirs))).
  split; [| split; [| split; [| split; [| split; [| split]]]]].
  - rewrite walk_dir_readable, Hsum. fold new_prefix files subdirs dirs.
    rewrite Hbranch, Hst3, Hst2, Hst1. cbn [shown].
    rewrite <- !app_assoc. do 4 f_equal.
    unfold enumerate, dirs.
    apply (subdir_loop_flags
             (fun e => (fst e, walk (snd e) false (fst e)))
             (fun e b => walk (snd e) false (fst e) new_prefix b)
             new_prefix flag subdirs).
    reflexivity.
  - now rewrite length_map, length_seq.
  - apply firstn_le_length.
  - intros Hle. unfold overflow_lines.
    replace (MAX_FILES_PER_DIR <? llen showable) with false
      by (symmetry; apply Z.ltb_ge; exact Hle).
    reflexivity.
  - intros Hlt. unfold overflow_lines, MAX_FILES_PER_DIR.
    apply Z.ltb_lt in Hlt. rewrite Hlt.
    exists (if entry_idx st1 + 1 =? total then CONN_LAST else CONN_MID).
    split; [destruct (entry_idx st1 + 1 =? total); auto | reflexivity].
  - intros Hnil. unfold skipped_lines.
    now rewrite (proj2 Hhist_nil Hnil).
  - intros Hne. unfold skipped_lines.
    destruct hist as [| h hs] eqn:Eh.
    + exfalso. apply Hne. now apply Hhist_nil.
    + exists (if entry_idx st2 + 1 =? total then CONN_LAST else CONN_MID),
             (firstn 5 (sorted_by by_count_desc hist)).
      split; [destruct (entry_idx st2 + 1 =? total); auto |].
      split; [apply top5_of_hist |].
      subst hist. rewrite Eh. reflexivity.
Qed.

End ListedDirectory.

Lemma listed_directory_rendering_witness :
  exists lines,
    _walk_dir DIRS_TO_EXCLUDE DIRS_TO_SUMMARIZE [] "generate_context.py"
      (FsDir (Some [("setup.py", FsFile (Some 300)); ("logo.png", FsFile (Some 9000))]))
      true "proj" EmptyString true
    = "proj/" :: lines.
Proof.
  destruct (listed_directory_rendering
              DIRS_TO_EXCLUDE DIRS_TO_SUMMARIZE [] "generate_context.py"
              [("setup.py", FsFile (Some 300)); ("logo.png", FsFile (Some 9000))]
              true "proj" EmptyString true eq_refl)
    as (overflow_lines & skipped_lines & flags & H & _).
  eexists. exact H.
Defined.

(** C6, as stated, fails on a file whose size cannot be read (a dangling
    link, say): its line carries no size. *)
Lemma file_of_unreadable_size_has_no_annotation :
  get_directory_structure DIRS_TO_EXCLUDE DIRS_TO_SUMMARIZE [] "generate_context.py"
    "proj"
    (FsDir (Some [("dangling", FsFile None); ("a.txt", FsFile (Some 12))]))
  = join NL ["proj/"; "├── a.txt (12B)"; "└── dangling"].
Proof. reflexivity. Qed.

(** The example of the specification: 35 plain-text files give 30 file
    lines and one line for the 5 others. *)
Example thirty_five_text_files :
  let files := map (fun k => ("f" ++ str_of_int (100 + Z.of_nat k) ++ ".txt",
                              FsFile (Some 1)))
                   (seq 0 35) in
  let lines := _walk_dir DIRS_TO_EXCLUDE DIRS_TO_SUMMARIZE [] "generate_context.py"
                 (FsDir (Some files)) true "proj" EmptyString true in
  List.length lines = 32%nat
  /\ nth 1 lines EmptyString = "├── f100.txt (1B)"
  /\ nth 30 lines EmptyString = "├── f129.txt (1B)"
  /\ nth 31 lines EmptyString = "├── ... and 5 more files".
Proof.
  vm_compute. repeat split; reflexivity.
Qed.

(** *** Determinism of the tree *)

(** Induction on a snapshot, with the property available for every entry
    of a listing. *)
Lemma fs_node_nested_ind (P : fs_node -> Prop) :
  (forall size, P (FsFile size)) ->
  P (FsDir None) ->
  (forall l, Forall (fun e => P (snd e)) l -> P (FsDir (Some l))) ->
  forall node, P node.
Proof.
  intros Hfile Hdenied Hlisting.
  fix IH 1. intros [size | [l |]].
  - apply Hfile.
  - apply Hlisting.
    induction l as [| [n x] l IHl]; constructor.
    + apply IH.
    + exact IHl.
  - apply Hdenied.
Qed.

Lemma enumerate_Forall2 {A B : Type} (R : A -> B -> Prop)
    (l : list A) (l' : list B) :
  Forall2 R l l' ->
  forall s,
    Forall2 (fun a b => fst a = fst b /\ R (snd a) (snd b))
            (combine (seq s (List.length l)) l)
            (combine (seq s (List.length l')) l').
Proof.
  induction 1 as [| x y l l' Hxy _ IH]; intros s; simpl.
  - constructor.
  - constructor; [now split | apply IH].
Qed.

Lemma Forall2_map_both {A B A' B' : Type} (R : A' -> B' -> Prop)
    (f : A -> A') (g : B -> B') (l : list A) (l' : list B) :
  Forall2 (fun a b => R (f a) (g b)) l l' -> Forall2 R (map f l) (map g l').
Proof.
  induction 1; simpl; constructor; auto.
Qed.

Section RenderAlike.

Variables exclude_dirs summarize_dirs gitignore_patterns : list string.
Variable script_name : string.

Lemma kept_files_alike (l l' : list (string * entry_view)) :
  Forall2 alike l l' ->
  kept_files gitignore_patterns script_name l
  = kept_files gitignore_patterns script_name l'.
Proof.
  intros H. unfold kept_files. eapply flat_map_Forall2; [exact H |].
  intros a b [Hn Hs]. destruct (snd a), (snd b); try contradiction.
  - now rewrite Hn, Hs.
  - reflexivity.
Qed.

Lemma kept_dirs_alike (l l' : list (string * entry_view)) :
  Forall2 alike l l' ->
  Forall2 (fun d d' => forall prefix is_last,
               snd d prefix is_last = snd d' prefix is_last)
          (kept_dirs exclude_dirs gitignore_patterns l)
          (kept_dirs exclude_dirs gitignore_patterns l').
Proof.
  unfold kept_dirs.
  induction 1 as [| a b l l' [Hn Hs] _ IH]; cbn [flat_map].
  - constructor.
  - destruct (snd a), (snd b); try contradiction; cbn [app].
    + exact IH.
    + rewrite Hn.
      destruct (negb (should_exclude_dir (fst b) exclude_dirs)
                && negb (str_in (fst b) gitignore_patterns))%bool; cbn [app].
      * constructor; [exact Hs | exact IH].
      * exact IH.
Qed.

Lemma list_branch_alike (new_prefix : string)
    (dirs dirs' : list (string * (string -> bool -> list string)))
    (files : list (string * option Z)) :
  Forall2 (fun d d' => forall prefix is_last,
               snd d prefix is_last = snd d' prefix is_last) dirs dirs' ->
  list_branch new_prefix dirs files = list_branch new_prefix dirs' files.
Proof.
  intros H. unfold list_branch, enumerate.
  assert (Hlen : llen dirs = llen dirs').
  { unfold llen. now rewrite (Forall2_length H). }
  rewrite Hlen. f_equal.
  eapply flat_map_Forall2.
  - apply enumerate_Forall2. exact H.
  - intros a b [Hi Hw]. cbv beta. rewrite Hi. apply Hw.
Qed.

(** The body of [_walk_dir] gives the same lines on two listings whose
    sorted entries are alike. *)
Lemma render_dir_alike (is_root : bool) (name prefix : string) (is_last : bool)
    (v v' : list (string * entry_view)) :
  Forall2 alike (sorted_by (fun a b => String.leb (fst a) (fst b)) v)
                (sorted_by (fun a b => String.leb (fst a) (fst b)) v') ->
  render_dir exclude_dirs summarize_dirs gitignore_patterns script_name
    is_root name prefix is_last (Some v)
  = render_dir exclude_dirs summarize_dirs gitignore_patterns script_name
      is_root name prefix is_last (Some v').
Proof.
  intros H. unfold render_dir.
  rewrite (kept_files_alike _ _ H).
  destruct (str_in name summarize_dirs); [reflexivity |].
  f_equal. apply list_branch_alike, kept_dirs_alike, H.
Qed.

Local Abbreviation walk :=
  (_walk_dir exclude_dirs summarize_dirs gitignore_patterns script_name).

(** The traversal gives the same lines on two observations of one tree. *)
Lemma walk_dir_same_snapshot (node : fs_node) :
  forall node',
    distinct_names node -> same_snapshot node node' ->
    forall is_root name prefix is_last,
      walk node is_root name prefix is_last
      = walk node' is_root name prefix is_last.
Proof.
  induction node as [size | | l IH] using fs_node_nested_ind;
    intros node' Hdist Hsame is_root name prefix is_last.
  - inversion Hsame; subst. reflexivity.
  - inversion Hsame; subst. reflexivity.
  - inversion Hsame as [| | l0 l1 l2 Hperm Hrel]; subst.
    inversion Hdist as [| | l0 Hnd Hall]; subst.
    rewrite !walk_dir_listing. cbn [option_map].
    apply render_dir_alike.
    rewrite !sorted_listing_view.
    rewrite (sorted_listing_perm l l1 Hnd Hperm).
    (* the entries of [l1] inherit what is known of the entries of [l] *)
    assert (Hknown : Forall (fun e =>
               distinct_names (snd e)
               /\ forall node',
                    distinct_names (snd e) -> same_snapshot (snd e) node' ->
                    forall is_root name prefix is_last,
                      walk (snd e) is_root name prefix is_last
                      = walk node' is_root name prefix is_last)
             (sorted_by name_le l1)).
    { apply (Permutation_Forall
               (perm_trans Hperm (Permutation_sym (sorted_by_perm name_le l1)))).
      rewrite Forall_forall in *. intros e He. split.
      - now apply Hall.
      - now apply IH. }
    assert (Hsorted : Forall2 (fun a b => fst a = fst b
                                          /\ same_snapshot (snd a) (snd b))
                              (sorted_by name_le l1) (sorted_by name_le l2)).
    { eapply sorted_by_Forall2; [| exact Hrel].
      intros a a' b b' [Ha _] [Ha' _]. unfold name_le. now rewrite Ha, Ha'. }
    unfold listing_view.
    apply Forall2_map_both.
    eapply Forall2_strengthen; [exact Hsorted | exact Hknown |].
    intros [na xa] [nb xb] [Hd Hwalk] [Hn Hs]. unfold alike.
    cbn [fst snd] in *. subst nb.
    split; [reflexivity |].
    pose proof Hs as Hcase.
    destruct Hcase as [size | | la la1 lb Hp Hr].
    + reflexivity.
    + reflexivity.
    + intros p b0. now apply Hwalk.
Qed.

(** C9: two runs of the tree builder over one unchanged directory tree
    give the same text, character for character, whatever the order in
    which the operating system lists each directory in each run. *)
Theorem tree_builder_deterministic (root_name : string) (root root' : fs_node) :
  distinct_names root ->
  same_snapshot root root' ->
  get_directory_structure exclude_dirs summarize_dirs gitignore_patterns
    script_name root_name root
  = get_directory_structure exclude_dirs summarize_dirs gitignore_patterns
      script_name root_name root'.
Proof.
  intros Hdist Hsame. unfold get_directory_structure.
  now rewrite (walk_dir_same_snapshot root root' Hdist Hsame).
Qed.

End RenderAlike.

Lemma tree_builder_deterministic_witness :
  let src := [("util.py", FsFile (Some 20)); ("main.py", FsFile None)] in
  let src' := [("main.py", FsFile None); ("util.py", FsFile (Some 20))] in
  get_directory_structure DIRS_TO_EXCLUDE DIRS_TO_SUMMARIZE [] "generate_context.py"
    "proj" (FsDir (Some [("src", FsDir (Some src)); ("README.md", FsFile (Some 64))]))
  = get_directory_structure DIRS_TO_EXCLUDE DIRS_TO_SUMMARIZE [] "generate_context.py"
      "proj" (FsDir (Some [("README.md", FsFile (Some 64)); ("src", FsDir (Some src'))])).
Proof.
  cbv zeta.
  apply tree_builder_deterministic.
  - apply distinct_listing.
    + repeat constructor; simpl; intuition discriminate.
    + repeat constructor; simpl; intuition discriminate.
  - apply same_listing
      with (l1 := [("README.md", FsFile (Some 64));
                   ("src", FsDir (Some [("util.py", FsFile (Some 20));
                                        ("main.py", FsFile None)]))]).
    + apply perm_swap.
    + constructor; [split; [reflexivity | constructor] |].
      constructor; [| constructor].
      split; [reflexivity |].
      apply same_listing
        with (l1 := [("main.py", FsFile None); ("util.py", FsFile (Some 20))]).
      * apply perm_swap.
      * repeat constructor.
Defined.

(* ====================================================================== *)
(** ** More on the processing loop and the extractor                       *)
(* ====================================================================== *)

(** *** The loop of [process_files] *)

Lemma process_one_record (fs : string -> file_view) (st : pf_state)
    (rec : file_record) :
  let st' := process_one fs st rec in
  processed (pf_stats st')
  = processed (pf_stats st) + (if has_content fs rec then 1 else 0)
  /\ skipped (pf_stats st')
     = skipped (pf_stats st) + (if has_content fs rec then 0 else 1)
  /\ errors (pf_stats st')
     = errors (pf_stats st) + (if is_error_content fs rec then 1 else 0)
  /\ total_chars (pf_stats st')
     = total_chars (pf_stats st) + emitted_chars fs [rec]
  /\ pf_written st' = pf_written st +:+ record_block fs rec.
Proof.
  destruct rec as [[priority rel_path] filepath]. cbv zeta.
  unfold has_content, is_error_content, emitted_chars, record_block,
    record_content, record_rel, file_block.
  cbn [fst snd fold_right].
  destruct (process_file_content (fs filepath) (basename filepath)) as [c |] eqn:Hc.
  - destruct (process_one_some fs st priority rel_path filepath c Hc)
      as (Hp & Hs & He & Ht & Hw).
    rewrite Hp, Hs, He, Ht, Hw.
    destruct (startswith c "[Error"); repeat split; lia.
  - destruct (process_one_none fs st priority rel_path filepath Hc)
      as (Hp & Hs & He & Ht & Hw).
    rewrite Hp, Hs, He, Ht, Hw, app_nil_r. repeat split; lia.
Qed.

Lemma emitted_chars_cons (fs : string -> file_view) (rec : file_record)
    (files : list file_record) :
  emitted_chars fs (rec :: files) = emitted_chars fs [rec] + emitted_chars fs files.
Proof.
  unfold emitted_chars. cbn [fold_right].
  destruct (record_content fs rec); lia.
Qed.

(** The loop from any state: counters and writes after the records. *)
Lemma process_loop (fs : string -> file_view) (files : list file_record) :
  forall st,
    let st' := fold_left (process_one fs) files st in
    processed (pf_stats st')
    = processed (pf_stats st) + llen (filter (has_content fs) files)
    /\ skipped (pf_stats st')
       = skipped (pf_stats st)
         + llen (filter (fun rec => negb (has_content fs rec)) files)
    /\ errors (pf_stats st')
       = errors (pf_stats st) + llen (filter (is_error_content fs) files)
    /\ total_chars (pf_stats st')
       = total_chars (pf_stats st) + emitted_chars fs files
    /\ pf_written st' = pf_written st +:+ flat_map (record_block fs) files.
Proof.
  induction files as [| rec files IH]; intros st; cbv zeta.
  - cbn [fold_left filter flat_map]. unfold llen, emitted_chars. simpl.
    rewrite app_nil_r. repeat split; try lia; reflexivity.
  - cbn [fold_left].
    destruct (IH (process_one fs st rec)) as (Hp & Hs & He & Ht & Hw).
    destruct (process_one_record fs st rec) as (Hp1 & Hs1 & He1 & Ht1 & Hw1).
    rewrite Hp, Hs, He, Ht, Hw, Hp1, Hs1, He1, Ht1, Hw1.
    rewrite (emitted_chars_cons fs rec files). cbn [filter flat_map].
    unfold llen.
    destruct (has_content fs rec); destruct (is_error_content fs rec);
      cbn [negb List.length]; rewrite <- app_assoc;
      repeat split; try lia; reflexivity.
Qed.

Lemma error_content_has_content (fs : string -> file_view) (rec : file_record) :
  is_error_content fs rec = true -> has_content fs rec = true.
Proof.
  unfold is_error_content, has_content.
  destruct (record_content fs rec); [reflexivity | discriminate].
Qed.

Lemma filter_length_le_filter {A : Type} (f g : A -> bool) (l : list A) :
  (forall x, f x = true -> g x = true) ->
  (List.length (filter f l) <= List.length (filter g l))%nat.
Proof.
  intros Hfg. induction l as [| x l IH]; simpl; [lia |].
  destruct (f x) eqn:Ef.
  - rewrite (Hfg x Ef). simpl. lia.
  - destruct (g x); simpl; lia.
Qed.

Lemma filter_length_partition {A : Type} (f : A -> bool) (l : list A) :
  (List.length (filter f l) + List.length (filter (fun x => negb (f x)) l)
   = List.length l)%nat.
Proof.
  induction l as [| x l IH]; simpl; [reflexivity |].
  destruct (f x); simpl; lia.
Qed.

(** X1: when [process_files] returns, every file of the list has been
    counted once, as processed or as skipped, and the errors are among the
    processed files: [processed + skipped = len(files)] and
    [0 <= errors <= processed]. *)
Theorem process_files_accounting (fs : string -> file_view)
    (files : list file_record) (written : list string) :
  let stats := pf_stats (process_files fs files written) in
  processed stats + skipped stats = llen files
  /\ 0 <= errors stats <= processed stats
  /\ 0 <= skipped stats.
Proof.
  cbv zeta. unfold process_files.
  destruct (process_loop fs files (mk_pf initial_stats written))
    as (Hp & Hs & He & _).
  rewrite Hp, Hs, He. cbn [pf_stats initial_stats processed skipped errors].
  pose proof (filter_length_partition (has_content fs) files) as Hpart.
  pose proof (filter_length_le_filter (is_error_content fs) (has_content fs) files
                (error_content_has_content fs)) as Hle.
  unfold llen. repeat split; lia.
Qed.

Lemma blocks_length (fs : string -> file_view) (files : list file_record) :
  llen (flat_map (record_block fs) files)
  = 4 * llen (filter (has_content fs) files).
Proof.
  induction files as [| rec files IH]; [reflexivity |].
  cbn [flat_map filter]. rewrite llen_app_list, IH.
  unfold record_block, has_content, file_block.
  destruct (record_content fs rec); unfold llen; cbn [List.length]; lia.
Qed.

(** X2: the text written by [process_files] is what the handle held
    before, followed, in the order of the list, by one block per file with
    content (separator, [FILE:] marker, separator, content and newline);
    a file without content writes nothing.  The [total_chars] counter is
    the sum of the lengths of the contents written. *)
Theorem process_files_output (fs : string -> file_view)
    (files : list file_record) (written : list string) :
  let st := process_files fs files written in
  pf_written st = written +:+ flat_map (record_block fs) files
  /\ total_chars (pf_stats st) = emitted_chars fs files
  /\ llen (pf_written st) = llen written + 4 * processed (pf_stats st).
Proof.
  cbv zeta. unfold process_files.
  destruct (process_loop fs files (mk_pf initial_stats written))
    as (Hp & _ & _ & Ht & Hw).
  rewrite Hp, Ht, Hw.
  cbn [pf_stats pf_written initial_stats processed total_chars].
  split; [reflexivity | split; [lia |]].
  rewrite llen_app_list, blocks_length. lia.
Qed.

(** *** The round trips of lines *)

Lemma concat_cons_nonempty (sep x y : string) (l : list string) :
  String.concat sep (x :: y :: l) = x ++ sep ++ String.concat sep (y :: l).
Proof. reflexivity. Qed.

Lemma join_empty_cons (x : string) (l : list string) :
  join EmptyString (x :: l) = x ++ join EmptyString l.
Proof.
  unfold join. destruct l as [| y l].
  - simpl. induction x as [| a x IH]; simpl; congruence.
  - rewrite concat_cons_nonempty. reflexivity.
Qed.

(** The lines that the iteration of a text file gives, put end to end,
    are the text. *)
Lemma join_file_lines (s : string) : join EmptyString (file_lines s) = s.
Proof.
  induction s as [| a s IH]; [reflexivity |].
  cbn [file_lines].
  destruct (Ascii.eqb a (ascii_of_nat 10)).
  - rewrite join_empty_cons, IH. reflexivity.
  - destruct (file_lines s) as [| h t].
    + simpl in IH. subst s. reflexivity.
    + rewrite join_empty_cons. rewrite join_empty_cons in IH.
      cbn [append]. now rewrite IH.
Qed.

Lemma split_on_nonempty (c : ascii) (s : string) : split_on c s <> [].
Proof.
  destruct s as [| a s]; simpl; [discriminate |].
  destruct (Ascii.eqb a c); [discriminate |].
  destruct (split_on c s); discriminate.
Qed.

(** ['\n'.join(s.split('\n')) == s]. *)
Lemma join_split_lines (s : string) : join NL (split_lines s) = s.
Proof.
  unfold split_lines, join.
  induction s as [| a s IH]; [reflexivity |].
  cbn [split_on].
  destruct (Ascii.eqb a (ascii_of_nat 10)) eqn:Ea.
  - apply Ascii.eqb_eq in Ea. subst a.
    destruct (split_on (ascii_of_nat 10) s) as [| h t] eqn:Es.
    + now apply split_on_nonempty in Es.
    + rewrite concat_cons_nonempty, IH. reflexivity.
  - destruct (split_on (ascii_of_nat 10) s) as [| h t] eqn:Es.
    + now apply split_on_nonempty in Es.
    + destruct t as [| h' t].
      * simpl in *. now rewrite IH.
      * rewrite concat_cons_nonempty. rewrite concat_cons_nonempty in IH.
        cbn [append]. now rewrite IH.
Qed.

Lemma firstn_all_le {A : Type} (n : nat) (l : list A) :
  (List.length l <= n)%nat -> firstn n l = l.
Proof. intros H. now apply firstn_all2. Qed.

(** *** The other dispatch rules *)

Section MoreDispatch.

Variable fv : file_view.
Variable filename : string.

Lemma dispatch_notebook (size : Z) :
  endswith filename ".ipynb" = true ->
  fv_getsize fv = Some size ->
  size <= MAX_FILE_SIZE_PARTIAL ->
  process_file_content fv filename = Some (extract_ipynb_code (fv_notebook fv)).
Proof.
  intros Hnb Hsize Hle. unfold process_file_content.
  rewrite Hsize, Hnb.
  replace (MAX_FILE_SIZE_PARTIAL <? size) with false
    by (symmetry; apply Z.ltb_ge; exact Hle).
  reflexivity.
Qed.

Lemma dispatch_jsonl (size : Z) :
  file_ext filename = ".jsonl" ->
  fv_getsize fv = Some size ->
  size <= MAX_FILE_SIZE_PARTIAL ->
  process_file_content fv filename =
    match fv_read fv with
    | Returned content =>
        match firstn 5 (file_lines content) with
        | [] => Some "(Empty file)"
        | lines =>
            Some ("[JSONL file: " ++ format_size size ++ "]" ++ NL
                  ++ "# First " ++ str_of_int (llen lines) ++ " lines:" ++ NL ++ NL
                  ++ join EmptyString lines
                  ++ NL ++ "... (truncated)")
        end
    | Raised e => Some ("[Error reading file: " ++ e ++ "]")
    end.
Proof.
  intros Hext Hsize Hle.
  assert (Hnb : endswith filename ".ipynb" = false).
  { apply (ext_not_notebook filename [".jsonl"]); try reflexivity.
    rewrite Hext. reflexivity. }
  unfold process_file_content. fold (file_ext filename).
  rewrite Hsize, Hnb, Hext.
  replace (MAX_FILE_SIZE_PARTIAL <? size) with false
    by (symmetry; apply Z.ltb_ge; exact Hle).
  cbn [String.eqb Ascii.eqb Bool.eqb].
  destruct (fv_read fv) as [content |]; [| reflexivity].
  destruct (firstn 5 (file_lines content)); reflexivity.
Qed.

Lemma dispatch_text (size : Z) :
  is_plain_text_name filename = true ->
  fv_getsize fv = Some size ->
  size <= MAX_FILE_SIZE_PARTIAL ->
  process_file_content fv filename =
    match fv_read fv with
    | Returned content =>
        if MAX_FILE_SIZE_FULL <? size then
          Some (join NL (firstn 100 (split_lines content)) ++ NL ++ NL
                ++ "... [truncated - " ++ format_size size ++ " total]")
        else Some content
    | Raised e => Some ("[Error reading file: " ++ e ++ "]")
    end.
Proof.
  unfold is_plain_text_name. intros Hname Hsize Hle.
  apply andb_true_iff in Hname as [Hname Hrule].
  apply andb_true_iff in Hname as [Hnb Hspecial].
  apply negb_true_iff in Hnb, Hspecial.
  assert (Hsplit : str_in (file_ext filename)
                     [".json"; ".jsonl"; ".yaml"; ".yml"; ".toml"]
                   = (String.eqb (file_ext filename) ".json"
                      || (String.eqb (file_ext filename) ".jsonl"
                          || str_in (file_ext filename) [".yaml"; ".yml"; ".toml"]))%bool)
    by reflexivity.
  rewrite Hsplit in Hspecial.
  apply orb_false_iff in Hspecial as [Hj Hspecial].
  apply orb_false_iff in Hspecial as [Hjl Hy].
  unfold process_file_content. fold (file_ext filename).
  rewrite Hsize, Hnb, Hj, Hjl, Hy, Hrule.
  replace (MAX_FILE_SIZE_PARTIAL <? size) with false
    by (symmetry; apply Z.ltb_ge; exact Hle).
  reflexivity.
Qed.

End MoreDispatch.

(** A notebook's extraction never starts with the error marker. *)
Lemma notebook_content_is_no_error (loaded : io notebook) :
  startswith (extract_ipynb_code loaded) "[Error" = false.
Proof.
  destruct loaded as [nb | e]; [| reflexivity].
  unfold extract_ipynb_code, notebook_parts.
  rewrite nb_loop_appends. cbn [app].
  destruct (flat_map spec_cell_lines
              (enumerate match nb_cells nb with Some cs => cs | None => [] end));
    reflexivity.
Qed.

(** X3: a notebook name whose size can be read always has a content,
    which never starts with the error marker: the file is counted as
    processed, never as skipped, and never in the errors counter.  This
    holds above the ceiling, where the content is the line
    ["[File too large: ... - skipped]"], and within it also when the
    notebook cannot be read or parsed, where the content is the line
    ["Error reading notebook: ..."]. *)
Theorem notebook_is_never_an_error (fs : string -> file_view) (st : pf_state)
    (priority : Z) (rel_path filepath : string) (size : Z) :
  endswith (basename filepath) ".ipynb" = true ->
  fv_getsize (fs filepath) = Some size ->
  let content := process_file_content (fs filepath) (basename filepath) in
  let st' := process_one fs st (priority, rel_path, filepath) in
  processed (pf_stats st') = processed (pf_stats st) + 1
  /\ skipped (pf_stats st') = skipped (pf_stats st)
  /\ errors (pf_stats st') = errors (pf_stats st)
  /\ (MAX_FILE_SIZE_PARTIAL < size ->
      content = Some ("[File too large: " ++ format_size size ++ " - skipped]"))
  /\ (size <= MAX_FILE_SIZE_PARTIAL ->
      forall e,
        fv_notebook (fs filepath) = Raised e ->
        content = Some ("Error reading notebook: " ++ e)).
Proof.
  intros Hnb Hsize. cbv zeta.
  assert (Hlarge : MAX_FILE_SIZE_PARTIAL < size ->
                   process_file_content (fs filepath) (basename filepath)
                   = Some ("[File too large: " ++ format_size size ++ " - skipped]")).
  { intros Hgt. unfold process_file_content. rewrite Hsize.
    apply Z.ltb_lt in Hgt. now rewrite Hgt. }
  assert (Hcounts :
    exists c, process_file_content (fs filepath) (basename filepath) = Some c
              /\ startswith c "[Error" = false).
  { destruct (Z.lt_ge_cases MAX_FILE_SIZE_PARTIAL size) as [Hgt | Hle].
    - eexists. split; [exact (Hlarge Hgt) | reflexivity].
    - eexists. split.
      + exact (dispatch_notebook (fs filepath) (basename filepath) size
                                 Hnb Hsize Hle).
      + apply notebook_content_is_no_error. }
  destruct Hcounts as (c & Hc & Hno).
  destruct (process_one_some fs st priority rel_path filepath c Hc)
    as (Hp & Hs & He & _).
  rewrite Hno in He.
  split; [exact Hp |]. split; [exact Hs |]. split; [exact He |].
  split; [exact Hlarge |].
  intros Hle e Hload.
  rewrite (dispatch_notebook (fs filepath) (basename filepath) size Hnb Hsize Hle).
  now rewrite Hload.
Qed.

Lemma notebook_is_never_an_error_witness :
  let fv := mk_file_view (Some 300000) (Returned "not json")
                         (DecodeError "Expecting value")
                         (Raised "Expecting value: line 1 column 1 (char 0)") in
  let st' := process_one (fun _ => fv) (mk_pf initial_stats [])
                         (4, "nb/demo.ipynb", "/proj/nb/demo.ipynb") in
  processed (pf_stats st') = 1 /\ errors (pf_stats st') = 0.
Proof.
  cbv zeta.
  destruct (notebook_is_never_an_error
              (fun _ => mk_file_view (Some 300000) (Returned "not json")
                          (DecodeError "Expecting value")
                          (Raised "Expecting value: line 1 column 1 (char 0)"))
              (mk_pf initial_stats []) 4 "nb/demo.ipynb" "/proj/nb/demo.ipynb"
              300000 eq_refl eq_refl)
    as (Hp & _ & He & _).
  split; [exact Hp | exact He].
Defined.

(** X4: when a file that a dispatch rule reads as text cannot be read
    (any recognized name except a notebook, and a [.json] name only below
    5000 bytes), its content is the line ["[Error reading file: ...]"]
    with the exception's text, and the file is counted both as processed
    and in the errors counter. *)
Theorem unreadable_file_is_an_error (fs : string -> file_view) (st : pf_state)
    (priority : Z) (rel_path filepath : string) (size : Z) (e : string) :
  let filename := basename filepath in
  endswith filename ".ipynb" = false ->
  matches_no_rule filename = false ->
  (file_ext filename = ".json" -> size < 5000) ->
  fv_getsize (fs filepath) = Some size ->
  size <= MAX_FILE_SIZE_PARTIAL ->
  fv_read (fs filepath) = Raised e ->
  let st' := process_one fs st (priority, rel_path, filepath) in
  process_file_content (fs filepath) filename
  = Some ("[Error reading file: " ++ e ++ "]")
  /\ processed (pf_stats st') = processed (pf_stats st) + 1
  /\ errors (pf_stats st') = errors (pf_stats st) + 1.
Proof.
  cbv zeta. intros Hnb Hrule Hjson Hsize Hle Hread.
  assert (Hc : process_file_content (fs filepath) (basename filepath)
               = Some ("[Error reading file: " ++ e ++ "]")).
  { unfold matches_no_rule in Hrule. rewrite Hnb in Hrule. cbn [negb andb] in Hrule.
    assert (Hsplit : str_in (file_ext (basename filepath))
                       [".json"; ".jsonl"; ".yaml"; ".yml"; ".toml"]
                     = (String.eqb (file_ext (basename filepath)) ".json"
                        || (String.eqb (file_ext (basename filepath)) ".jsonl"
                            || str_in (file_ext (basename filepath))
                                      [".yaml"; ".yml"; ".toml"]))%bool)
      by reflexivity.
    rewrite Hsplit in Hrule.
    unfold process_file_content. fold (file_ext (basename filepath)).
    rewrite Hsize, Hnb, Hread.
    replace (MAX_FILE_SIZE_PARTIAL <? size) with false
      by (symmetry; apply Z.ltb_ge; exact Hle).
    destruct (String.eqb (file_ext (basename filepath)) ".json") eqn:Ej.
    { apply String.eqb_eq in Ej. specialize (Hjson Ej).
      apply Z.ltb_lt in Hjson. now rewrite Hjson. }
    destruct (String.eqb (file_ext (basename filepath)) ".jsonl"); [reflexivity |].
    destruct (str_in (file_ext (basename filepath)) [".yaml"; ".yml"; ".toml"]);
      [reflexivity |].
    cbn [orb negb andb] in Hrule.
    destruct (str_in (file_ext (basename filepath)) TEXT_EXTENSIONS);
      [reflexivity |].
    destruct (str_in (basename filepath) PRIORITY_FILES); [reflexivity |].
    destruct (String.eqb (file_ext (basename filepath)) EmptyString);
      [reflexivity | discriminate]. }
  destruct (process_one_some fs st priority rel_path filepath _ Hc)
    as (Hp & _ & He & _).
  repeat split; auto.
Qed.

Lemma unreadable_file_is_an_error_witness :
  let fv := mk_file_view (Some 120) (Raised "[Errno 13] Permission denied")
                         (LoadRaised EmptyString) (Raised EmptyString) in
  errors (pf_stats (process_one (fun _ => fv) (mk_pf initial_stats [])
                                (2, "src/app.py", "/proj/src/app.py")))
  = 1.
Proof.
  cbv zeta.
  refine (proj2 (proj2
            (unreadable_file_is_an_error
               (fun _ => mk_file_view (Some 120) (Raised "[Errno 13] Permission denied")
                           (LoadRaised EmptyString) (Raised EmptyString))
               (mk_pf initial_stats []) 2 "src/app.py" "/proj/src/app.py"
               120 "[Errno 13] Permission denied" _ _ _ _ _ _))).
  - reflexivity.
  - reflexivity.
  - discriminate.
  - reflexivity.
  - unfold MAX_FILE_SIZE_PARTIAL. lia.
  - reflexivity.
Defined.

(** X5: a readable [.jsonl] file within the ceiling gives ["(Empty file)"]
    when it is empty; otherwise a header with the file size and the number
    of lines shown (at most 5), these lines as they are, and the marker
    ["... (truncated)"].  When the file has at most 5 lines, the lines
    shown are the whole content, and the marker is there all the same. *)
Theorem jsonl_head (fv : file_view) (filename : string) (size : Z)
    (content : string) :
  file_ext filename = ".jsonl" ->
  fv_getsize fv = Some size ->
  size <= MAX_FILE_SIZE_PARTIAL ->
  fv_read fv = Returned content ->
  let lines := firstn 5 (file_lines content) in
  (content = EmptyString -> process_file_content fv filename = Some "(Empty file)")
  /\ (content <> EmptyString ->
      process_file_content fv filename
      = Some ("[JSONL file: " ++ format_size size ++ "]" ++ NL
              ++ "# First " ++ str_of_int (llen lines) ++ " lines:" ++ NL ++ NL
              ++ join EmptyString lines
              ++ NL ++ "... (truncated)")
      /\ 1 <= llen lines <= 5)
  /\ (llen (file_lines content) <= 5 -> join EmptyString lines = content).
Proof.
  intros Hext Hsize Hle Hread. cbv zeta.
  rewrite (dispatch_jsonl fv filename size Hext Hsize Hle), Hread.
  split; [| split].
  - intros ->. reflexivity.
  - intros Hne.
    destruct (file_lines content) as [| l ls] eqn:El.
    + exfalso. apply Hne. rewrite <- (join_file_lines content), El. reflexivity.
    + change (firstn 5 (l :: ls)) with (l :: firstn 4 ls).
      split; [reflexivity |].
      pose proof (firstn_le_length 4 ls) as H4.
      unfold llen. cbn [List.length]. lia.
  - intros Hlen. rewrite firstn_all_le.
    + apply join_file_lines.
    + unfold llen in Hlen. lia.
Qed.

Lemma jsonl_head_witness :
  process_file_content
    (mk_file_view (Some 0) (Returned EmptyString) (LoadRaised EmptyString)
                  (Raised EmptyString))
    "events.jsonl" = Some "(Empty file)".
Proof.
  refine (proj1 (jsonl_head
                   (mk_file_view (Some 0) (Returned EmptyString)
                                 (LoadRaised EmptyString) (Raised EmptyString))
                   "events.jsonl" 0 EmptyString _ _ _ _) _).
  - reflexivity.
  - reflexivity.
  - unfold MAX_FILE_SIZE_PARTIAL. lia.
  - reflexivity.
  - reflexivity.
Defined.

(** X6: a readable file that reaches the last dispatch rule (text
    allow-list, priority file name, or no extension) is gated by its size
    in bytes: it is returned whole up to 20,000 bytes; above, the first 100
    lines are returned, followed by a note with the file size.  When such
    a file has at most 100 lines, the whole content is returned before the
    note: nothing is cut, yet the note says truncated. *)
Theorem text_file_extraction (fv : file_view) (filename : string) (size : Z)
    (content : string) :
  is_plain_text_name filename = true ->
  fv_getsize fv = Some size ->
  size <= MAX_FILE_SIZE_PARTIAL ->
  fv_read fv = Returned content ->
  let note := NL ++ NL ++ "... [truncated - " ++ format_size size ++ " total]" in
  (size <= MAX_FILE_SIZE_FULL -> process_file_content fv filename = Some content)
  /\ (MAX_FILE_SIZE_FULL < size ->
      process_file_content fv filename
      = Some (join NL (firstn 100 (split_lines content)) ++ note))
  /\ (MAX_FILE_SIZE_FULL < size ->
      llen (split_lines content) <= 100 ->
      process_file_content fv filename = Some (content ++ note)).
Proof.
  intros Hname Hsize Hle Hread. cbv zeta.
  rewrite (dispatch_text fv filename size Hname Hsize Hle), Hread.
  split; [| split].
  - intros H. apply Z.ltb_ge in H. now rewrite H.
  - intros H. apply Z.ltb_lt in H. now rewrite H.
  - intros H Hlines. apply Z.ltb_lt in H. rewrite H.
    rewrite firstn_all_le by (unfold llen in Hlines; lia).
    now rewrite join_split_lines.
Qed.

Lemma text_file_extraction_witness :
  process_file_content
    (mk_file_view (Some 6) (Returned "all:" ) (LoadRaised EmptyString)
                  (Raised EmptyString))
    "Makefile" = Some "all:".
Proof.
  refine (proj1 (text_file_extraction
                   (mk_file_view (Some 6) (Returned "all:") (LoadRaised EmptyString)
                                 (Raised EmptyString))
                   "Makefile" 6 "all:" _ _ _ _) _).
  - reflexivity.
  - reflexivity.
  - unfold MAX_FILE_SIZE_PARTIAL. lia.
  - reflexivity.
  - unfold MAX_FILE_SIZE_FULL. lia.
Defined.

(** X7: a readable declarative config file within the ceiling whose
    content has more than 20,000 characters on at most 100 lines is
    returned whole, followed by a note whose count is the number of lines
    minus 100, zero or negative. *)
Theorem config_file_with_few_lines (fv : file_view) (filename : string)
    (size : Z) (content : string) :
  str_in (file_ext filename) [".yaml"; ".yml"; ".toml"] = true ->
  fv_getsize fv = Some size ->
  size <= MAX_FILE_SIZE_PARTIAL ->
  fv_read fv = Returned content ->
  MAX_FILE_SIZE_FULL < len content ->
  llen (split_lines content) <= 100 ->
  process_file_content fv filename
  = Some (content ++ NL ++ NL ++ "... ["
          ++ str_of_int (llen (split_lines content) - 100) ++ " more lines]")
  /\ llen (split_lines content) - 100 <= 0.
Proof.
  intros Hext Hsize Hle Hread Hlong Hlines.
  rewrite (dispatch_config fv filename size Hext Hsize Hle), Hread.
  apply Z.ltb_lt in Hlong. rewrite Hlong.
  rewrite firstn_all_le by (unfold llen in Hlines; lia).
  rewrite join_split_lines. split; [reflexivity | lia].
Qed.

Lemma config_file_with_few_lines_witness :
  let content := text_of_length 20001 in
  let fv := mk_file_view (Some 20001) (Returned content)
                         (LoadRaised EmptyString) (Raised EmptyString) in
  process_file_content fv "big.toml"
  = Some (content ++ NL ++ NL ++ "... [-99 more lines]").
Proof.
  cbv zeta.
  assert (Hlines : llen (split_lines (text_of_length 20001)) = 1).
  { apply Z.eqb_eq. vm_compute. reflexivity. }
  destruct (config_file_with_few_lines
              (mk_file_view (Some 20001) (Returned (text_of_length 20001))
                            (LoadRaised EmptyString) (Raised EmptyString))
              "big.toml" 20001 (text_of_length 20001)) as [Hc _].
  - reflexivity.
  - reflexivity.
  - unfold MAX_FILE_SIZE_PARTIAL. lia.
  - reflexivity.
  - apply Z.ltb_lt. vm_compute. reflexivity.
  - rewrite Hlines. lia.
  - rewrite Hc, Hlines. reflexivity.
Defined.

(** *** What the summary of a JSON value looks at *)

Lemma map_Forall2_eq {A B C : Type} (R : A -> B -> Prop) (f : A -> C) (g : B -> C)
    (l : list A) (l' : list B) :
  Forall2 R l l' -> (forall a b, R a b -> f a = g b) -> map f l = map g l'.
Proof.
  intros H Hfg. induction H as [| a b l l' Hab _ IH]; simpl.
  - reflexivity.
  - now rewrite (Hfg a b Hab), IH.
Qed.

Lemma same_within_bounds_scalar (k : nat) (d d' : json) :
  same_within_bounds k d d' ->
  is_scalar d = is_scalar d' /\ (is_scalar d = true -> d = d').
Proof.
  destruct k; destruct d, d'; simpl; intros H; try contradiction;
    split; try reflexivity; try discriminate; auto.
Qed.

Lemma all_scalars_agree (k : nat) (l l' : list json) :
  Forall2 (same_within_bounds k) l l' ->
  forallb is_scalar l = forallb is_scalar l'
  /\ (forallb is_scalar l = true -> l = l').
Proof.
  induction 1 as [| a b l l' Hab _ [IHs IHe]]; simpl.
  - split; reflexivity.
  - destruct (same_within_bounds_scalar k a b Hab) as [Hs He].
    rewrite Hs, IHs. split; [reflexivity |].
    rewrite <- Hs, <- IHs. intros H. apply andb_true_iff in H as [Ha Hl].
    now rewrite (He Ha), (IHe Hl).
Qed.

Lemma same_length_nil {A B : Type} (l : list A) (l' : list B) :
  List.length l = List.length l' -> (l = [] <-> l' = []).
Proof.
  destruct l, l'; simpl; intros H; split; intros E; try discriminate; reflexivity.
Qed.

(** X8: the summary made for a [.json] file never looks further than the
    depth bound and the first five items of a container: two values that
    have, down to depth 4, the same scalars, the same container sizes, and
    the same first five items in every container (with the same keys) get
    the same summary. *)
Theorem summary_looks_within_bounds (k : nat) :
  forall (d d' : json) (depth : nat) (indent : string),
    (4 - depth = k)%nat ->
    same_within_bounds k d d' ->
    summary_at d depth indent = summary_at d' depth indent.
Proof.
  unfold summary_at.
  induction k as [| k IH]; intros d d' depth indent Hk Hsame.
  - assert (Hleb : Nat.leb 4 depth = true) by (apply Nat.leb_le; lia).
    destruct d, d'; cbn [same_within_bounds] in Hsame; try contradiction;
      try congruence;
      cbn [summarize_json_structure]; rewrite Hleb.
    + destruct Hsame as [Hlen _]. unfold llen. now rewrite Hlen.
    + destruct Hsame as [Hlen _]. unfold llen. now rewrite Hlen.
  - assert (Hleb : Nat.leb 4 depth = false) by (apply Nat.leb_gt; lia).
    assert (Hk' : (4 - S depth = k)%nat) by lia.
    destruct d, d'; cbn [same_within_bounds] in Hsame; try contradiction;
      try congruence.
    + (* arrays *)
      destruct Hsame as [Hlen Hitems].
      cbn [summarize_json_structure]. rewrite Hleb.
      destruct items as [| x items]; destruct items0 as [| y items0];
        try discriminate; [reflexivity |].
      assert (Hllen : llen (x :: items) = llen (y :: items0))
        by (unfold llen; now rewrite Hlen).
      rewrite Hllen.
      destruct (llen (y :: items0) <=? 3) eqn:Hshort.
      * apply Z.leb_le in Hshort.
        rewrite !firstn_all_le in Hitems
          by (unfold llen in *; lia).
        destruct (all_scalars_agree k _ _ Hitems) as [Hsc Heq].
        rewrite <- Hsc. cbn [andb].
        destruct (forallb is_scalar (x :: items)) eqn:Hall.
        -- now rewrite (Heq eq_refl).
        -- rewrite !firstn_map.
           rewrite !firstn_all_le by (unfold llen in *; lia).
           do 3 f_equal.
           eapply map_Forall2_eq; [exact Hitems |].
           intros a b Hab. cbv beta. now rewrite (IH a b (S depth) _ Hk' Hab).
      * cbn [andb]. rewrite !firstn_map.
        do 3 f_equal.
        eapply map_Forall2_eq; [exact Hitems |].
        intros a b Hab. cbv beta. now rewrite (IH a b (S depth) _ Hk' Hab).
    + (* objects *)
      destruct Hsame as [Hlen Hitems].
      cbn [summarize_json_structure]. rewrite Hleb.
      destruct entries as [| x entries]; destruct entries0 as [| y entries0];
        try discriminate; [reflexivity |].
      assert (Hllen : llen (x :: entries) = llen (y :: entries0))
        by (unfold llen; now rewrite Hlen).
      rewrite Hllen, !firstn_map.
      do 3 f_equal.
      eapply map_Forall2_eq; [exact Hitems |].
      intros a b [Hkey Hab]. cbv beta.
      now rewrite Hkey, (IH (snd a) (snd b) (S depth) _ Hk' Hab).
Qed.

Lemma summary_looks_within_bounds_witness :
  summary_at (JList [JInt 1; JInt 2; JInt 3; JInt 4; JInt 5; JStr "six"]) 0 EmptyString
  = summary_at (JList [JInt 1; JInt 2; JInt 3; JInt 4; JInt 5;
                       JDict [("k", JNone)]]) 0 EmptyString.
Proof.
  apply (summary_looks_within_bounds 4).
  - reflexivity.
  - simpl. split; [reflexivity |]. repeat constructor.
Defined.

(** *** The place of a cell in the extracted notebook *)

Lemma enumerate_from_nth {A : Type} (l : list A) :
  forall (i s : nat) (c : A),
    nth_error l i = Some c ->
    exists a b,
      combine (seq s (List.length l)) l = a +:+ (s + i, c)%nat :: b.
Proof.
  induction l as [| x l IH]; intros i s c Hnth.
  - destruct i; discriminate.
  - destruct i as [| i]; simpl in Hnth.
    + injection Hnth as ->. exists [], (combine (seq (S s) (List.length l)) l).
      simpl. now rewrite Nat.add_0_r.
    + destruct (IH i (S s) c Hnth) as (a & b & E).
      exists ((s, x) :: a), b. simpl. rewrite E.
      now replace (S s + i)%nat with (s + S i)%nat by lia.
Qed.

(** X9: every code cell of a well-formed notebook is in the extracted
    parts, as its marker directly followed by its whole source, and the
    number in the marker is the position of the cell among all the cells
    of the notebook, counted from 1, whatever the cells before it are. *)
Theorem code_cell_is_extracted (nb : notebook) (cells : list nb_cell)
    (i : nat) (cell : nb_cell) :
  nb_cells nb = Some cells ->
  nth_error cells i = Some cell ->
  is_cell_of "code" cell = true ->
  exists before after,
    notebook_parts nb
    = before
      +:+ [NL ++ "# --- Cell " ++ str_of_int (Z.of_nat i + 1) ++ " [Code] ---";
           get_source cell]
      +:+ after.
Proof.
  intros Hcells Hnth Hcode.
  unfold notebook_parts. rewrite Hcells, nb_loop_appends.
  destruct (enumerate_from_nth cells i 0 cell Hnth) as (a & b & E).
  unfold enumerate. rewrite E, flat_map_app. cbn [flat_map].
  unfold spec_cell_lines at 2. rewrite Hcode.
  eexists (_ :: flat_map spec_cell_lines a), (flat_map spec_cell_lines b).
  reflexivity.
Qed.

Lemma code_cell_is_extracted_witness :
  exists before after,
    notebook_parts
      (mk_notebook (Some [mk_cell (Some "raw") None;
                          mk_cell (Some "code") (Some (SrcList ["a = 1"; "b = 2"]))]))
    = before +:+ [NL ++ "# --- Cell 2 [Code] ---"; "a = 1b = 2"] +:+ after.
Proof.
  apply (code_cell_is_extracted
           (mk_notebook (Some [mk_cell (Some "raw") None;
                               mk_cell (Some "code") (Some (SrcList ["a = 1"; "b = 2"]))]))
           [mk_cell (Some "raw") None;
            mk_cell (Some "code") (Some (SrcList ["a = 1"; "b = 2"]))]
           1 (mk_cell (Some "code") (Some (SrcList ["a = 1"; "b = 2"])))).
  - reflexivity.
  - reflexivity.
  - reflexivity.
Defined.

(* ====================================================================== *)
(** ** Exclusion patterns, ignore patterns, git information                *)
(* ====================================================================== *)

Lemma str_in_In (x : string) (l : list string) : str_in x l = true <-> In x l.
Proof.
  unfold str_in. rewrite existsb_exists. split.
  - intros (y & Hy & E). apply String.eqb_eq in E. now subst.
  - intros H. exists x. split; [exact H | apply String.eqb_refl].
Qed.

Lemma endswith_refl (s : string) : endswith s s = true.
Proof.
  destruct s; cbn [endswith]; now rewrite String.eqb_refl.
Qed.

Lemma endswith_append (stem suffix : string) : endswith (stem ++ suffix) suffix = true.
Proof.
  induction stem as [| a stem IH].
  - apply endswith_refl.
  - change (String a stem ++ suffix) with (String a (stem ++ suffix)).
    cbn [endswith]. rewrite IH. apply orb_true_r.
Qed.

(** [should_exclude_dir] in terms of the members of the set. *)
Lemma should_exclude_dir_iff (dirname : string) (exclude_set : list string) :
  should_exclude_dir dirname exclude_set = true <->
  In dirname exclude_set
  \/ exists pattern,
       In pattern exclude_set
       /\ startswith pattern "*" = true
       /\ endswith dirname (str_drop 1 pattern) = true.
Proof.
  unfold should_exclude_dir.
  destruct (str_in dirname exclude_set) eqn:Hin.
  - split; [| reflexivity]. intros _. left. now apply str_in_In.
  - rewrite existsb_exists. split.
    + intros (p & Hp & Hm). apply andb_true_iff in Hm. right. now exists p.
    + intros [H | (p & Hp & Hs & He)].
      * apply str_in_In in H. congruence.
      * exists p. split; [exact Hp |]. now rewrite Hs, He.
Qed.

(** X10: whether a directory name is excluded depends on the members of
    the exclusion set only, not on the order in which the set is
    iterated. *)
Theorem exclusion_ignores_iteration_order (dirname : string)
    (exclude_set exclude_set' : list string) :
  (forall pattern, In pattern exclude_set <-> In pattern exclude_set') ->
  should_exclude_dir dirname exclude_set = should_exclude_dir dirname exclude_set'.
Proof.
  intros Hsame. apply eq_true_iff_eq.
  rewrite !should_exclude_dir_iff. split.
  - intros [H | (p & Hp & H)].
    + left. now apply Hsame.
    + right. exists p. split; [now apply Hsame | exact H].
  - intros [H | (p & Hp & H)].
    + left. now apply Hsame.
    + right. exists p. split; [now apply Hsame | exact H].
Qed.

Lemma exclusion_ignores_iteration_order_witness :
  should_exclude_dir "pkg.egg-info" ["dist"; "*.egg-info"]
  = should_exclude_dir "pkg.egg-info" ["*.egg-info"; "dist"; "dist"].
Proof.
  apply exclusion_ignores_iteration_order.
  intros pattern. simpl. tauto.
Defined.

(** X11: a pattern made of a star and a suffix excludes every directory
    whose name ends with the suffix; in particular the pattern ["*"]
    excludes every directory. *)
Theorem star_pattern_excludes_suffix (suffix : string) (exclude_set : list string) :
  In ("*" ++ suffix) exclude_set ->
  forall stem, should_exclude_dir (stem ++ suffix) exclude_set = true.
Proof.
  intros Hin stem. apply should_exclude_dir_iff. right.
  exists ("*" ++ suffix). split; [exact Hin |]. split.
  - unfold startswith. cbn. destruct suffix; reflexivity.
  - apply endswith_append.
Qed.

Lemma star_pattern_excludes_suffix_witness :
  should_exclude_dir ("mypkg" ++ ".egg-info") DIRS_TO_EXCLUDE = true.
Proof.
  apply (star_pattern_excludes_suffix ".egg-info" DIRS_TO_EXCLUDE).
  simpl. tauto.
Defined.

(** *** The patterns of the ignore file *)

Lemma rstrip_by_last (drop : ascii -> bool) (s : string) :
  forall c, drop c = true ->
            endswith (rstrip_by drop s) (String c EmptyString) = false.
Proof.
  intros c Hc. induction s as [| a s IH]; [reflexivity |].
  cbn [rstrip_by].
  destruct (rstrip_by drop s) as [| b r] eqn:E.
  - destruct (drop a) eqn:Ha; [reflexivity |].
    cbn [endswith]. rewrite orb_false_r.
    destruct (String.eqb (String a EmptyString) (String c EmptyString)) eqn:Eq;
      [| reflexivity].
    apply String.eqb_eq in Eq. injection Eq as ->. congruence.
  - change (endswith (String a (String b r)) (String c EmptyString))
      with (String.eqb (String a (String b r)) (String c EmptyString)
            || endswith (String b r) (String c EmptyString))%bool.
    rewrite IH, orb_false_r.
    destruct (String.eqb (String a (String b r)) (String c EmptyString)) eqn:Eq;
      [| reflexivity].
    apply String.eqb_eq in Eq. discriminate.
Qed.

Lemma rstrip_by_is_prefix (drop : ascii -> bool) (s : string) :
  exists t, s = rstrip_by drop s ++ t.
Proof.
  induction s as [| a s [t IH]].
  - now exists EmptyString.
  - cbn [rstrip_by]. destruct (rstrip_by drop s) as [| b r].
    + destruct (drop a).
      * now exists (String a s).
      * exists s. reflexivity.
    + exists t. cbn [append] in *. now rewrite <- IH.
Qed.

Lemma prefix_empty (s : string) : prefix EmptyString s = true.
Proof. destruct s; reflexivity. Qed.

Lemma rstrip_keeps_no_hash (drop : ascii -> bool) (s : string) :
  startswith s "#" = false -> startswith (rstrip_by drop s) "#" = false.
Proof.
  intros H. destruct (rstrip_by_is_prefix drop s) as [t E].
  destruct (rstrip_by drop s) as [| b r]; [reflexivity |].
  rewrite E in H. unfold startswith in *. cbn [append prefix] in *.
  destruct (ascii_dec "#" b); [| reflexivity].
  rewrite prefix_empty in *. exact H.
Qed.

Lemma gitignore_loop (lines : list string) :
  forall patterns p,
    In p (fold_left gitignore_step lines patterns) <->
    In p patterns
    \/ exists line,
         In line lines
         /\ strip line <> EmptyString
         /\ startswith (strip line) "#" = false
         /\ p = rstrip_slash (strip line).
Proof.
  induction lines as [| l lines IH]; intros patterns p; cbn [fold_left].
  - split; [auto | intros [H | (line & [] & _)]; exact H].
  - rewrite IH. unfold gitignore_step.
    destruct (String.eqb (strip l) EmptyString) eqn:Eempty; cbn [negb andb].
    + apply String.eqb_eq in Eempty. split.
      * intros [H | (line & Hin & H)]; [now left |].
        right. exists line. split; [now right | exact H].
      * intros [H | (line & [<- | Hin] & Hne & H)]; [now left | contradiction |].
        right. now exists line.
    + apply String.eqb_neq in Eempty.
      destruct (startswith (strip l) "#") eqn:Ehash; cbn [negb].
      * split.
        -- intros [H | (line & Hin & H)]; [now left |].
           right. exists line. split; [now right | exact H].
        -- intros [H | (line & [<- | Hin] & Hne & Hh & H)];
             [now left | congruence |].
           right. now exists line.
      * rewrite in_app_iff. cbn [In]. split.
        -- intros [[H | [<- | []]] | (line & Hin & H)].
           ++ now left.
           ++ right. exists l. repeat split; auto.
           ++ right. exists line. split; [now right | exact H].
        -- intros [H | (line & [<- | Hin] & Hne & Hh & ->)].
           ++ left. now left.
           ++ left. right. now left.
           ++ right. now exists line.
Qed.

(** X12: the patterns read from the ignore file are exactly the lines
    that, once stripped, are neither empty nor comments, each without its
    trailing slashes; so no pattern ends with a slash or starts with the
    comment sign, and a missing file gives no pattern. *)
Theorem gitignore_patterns_spec (gv : gitignore_view) (p : string) :
  (In p (get_gitignore_patterns gv) <->
   gi_exists gv = true
   /\ exists line,
        In line (gi_lines gv)
        /\ strip line <> EmptyString
        /\ startswith (strip line) "#" = false
        /\ p = rstrip_slash (strip line))
  /\ (In p (get_gitignore_patterns gv) ->
      endswith p "/" = false /\ startswith p "#" = false).
Proof.
  assert (Hiff : In p (get_gitignore_patterns gv) <->
                 gi_exists gv = true
                 /\ exists line,
                      In line (gi_lines gv)
                      /\ strip line <> EmptyString
                      /\ startswith (strip line) "#" = false
                      /\ p = rstrip_slash (strip line)).
  { unfold get_gitignore_patterns. destruct (gi_exists gv).
    - rewrite gitignore_loop. split.
      + intros [[] | H]. now split.
      + intros [_ H]. now right.
    - split; [intros [] | intros [H _]; discriminate]. }
  split; [exact Hiff |].
  intros Hin. apply Hiff in Hin as (_ & line & _ & _ & Hhash & ->).
  split.
  - apply rstrip_by_last. reflexivity.
  - now apply rstrip_keeps_no_hash.
Qed.

Lemma gitignore_patterns_spec_witness :
  endswith "build" "/" = false /\ startswith "build" "#" = false.
Proof.
  apply (gitignore_patterns_spec
           (mk_gitignore_view true ["# outputs" ++ NL; NL; "  build/  " ++ NL])
           "build").
  vm_compute. tauto.
Defined.

(** *** The git block *)

Lemma join_nonempty (sep : string) (parts : list string) :
  parts <> [] -> Forall (fun p => p <> EmptyString) parts ->
  join sep parts <> EmptyString.
Proof.
  intros Hne Hall. destruct parts as [| h t]; [contradiction |].
  inversion Hall as [| ? ? Hh _]; subst.
  unfold join. destruct t as [| h' t].
  - exact Hh.
  - rewrite concat_cons_nonempty. destruct h; [contradiction | discriminate].
Qed.

Lemma labelled_info_nonempty (label : string) (run : completed) :
  label <> EmptyString ->
  Forall (fun p => p <> EmptyString) (labelled_info label run).
Proof.
  intros Hl. unfold labelled_info.
  destruct ((returncode run =? 0)
            && negb (String.eqb (strip (stdout run)) EmptyString))%bool;
    constructor; [| constructor].
  destruct label; [contradiction | discriminate].
Qed.

Lemma status_info_nonempty (out : string) :
  Forall (fun p => p <> EmptyString) (status_info out).
Proof.
  unfold status_info.
  destruct (if String.eqb (strip out) EmptyString then []
            else split_lines (strip out)).
  - repeat constructor. discriminate.
  - destruct (status_parts (s :: l)); repeat constructor. discriminate.
Qed.

(** X13: [get_git_info] returns a text only when [git rev-parse] ran and
    succeeded, and the text it returns is never empty: when no line was
    gathered the result is [None]. *)
Theorem git_info_is_never_empty (rev_parse branch commit status : option completed)
    (text : string) :
  get_git_info rev_parse branch commit status = Some text ->
  text <> EmptyString
  /\ exists result, rev_parse = Some result /\ returncode result = 0.
Proof.
  unfold get_git_info.
  destruct rev_parse as [result |]; [| discriminate].
  destruct (returncode result =? 0) eqn:Hrc; cbn [negb]; [| discriminate].
  destruct branch as [b |]; [| discriminate].
  destruct commit as [c |]; [| discriminate].
  destruct status as [s |]; [| discriminate].
  set (parts := if returncode s =? 0
                then (labelled_info "Branch: " b +:+ labelled_info "Last commit: " c)
                     +:+ status_info (stdout s)
                else labelled_info "Branch: " b +:+ labelled_info "Last commit: " c).
  assert (Hall : Forall (fun p => p <> EmptyString) parts).
  { assert (Hlab : Forall (fun p => p <> EmptyString)
                          (labelled_info "Branch: " b
                           +:+ labelled_info "Last commit: " c)).
    { apply Forall_app. split; apply labelled_info_nonempty; discriminate. }
    unfold parts. destruct (returncode s =? 0); [| exact Hlab].
    apply Forall_app. split; [exact Hlab | apply status_info_nonempty]. }
  destruct parts as [| h t] eqn:Ep; [discriminate |].
  intros H. apply some_inj in H. subst text. split.
  - apply join_nonempty; [discriminate | exact Hall].
  - exists result. split; [reflexivity | now apply Z.eqb_eq].
Qed.

Lemma git_info_is_never_empty_witness :
  "Status: Clean working tree" <> EmptyString
  /\ exists result,
       Some (mk_completed 0 ".git") = Some result /\ returncode result = 0.
Proof.
  apply (git_info_is_never_empty
           (Some (mk_completed 0 ".git"))
           (Some (mk_completed 0 EmptyString))
           (Some (mk_completed 128 EmptyString))
           (Some (mk_completed 0 NL))).
  reflexivity.
Defined.

(** A porcelain line is counted in at most one of the three groups. *)
Lemma status_groups_disjoint (l : string) :
  (if is_modified l then 1 else 0) + (if is_added l then 1 else 0)
  + (if is_deleted l then 1 else 0) <= 1.
Proof.
  unfold is_modified, is_added, is_deleted, startswith.
  destruct l as [| c1 [| c2 r]]; [simpl; lia | |].
  - cbn [prefix].
    repeat match goal with
           | |- context [ascii_dec ?a ?b] => destruct (ascii_dec a b); subst
           end; simpl; try lia; try discriminate.
  - cbn [prefix].
    repeat match goal with
           | |- context [ascii_dec ?a ?b] =>
               destruct (ascii_dec a b); subst; try discriminate
           end; rewrite ?prefix_empty; simpl; lia.
Qed.

Lemma status_counts_bounded (lines : list string) :
  count_where is_modified lines + count_where is_added lines
  + count_where is_deleted lines <= llen lines.
Proof.
  unfold count_where, llen.
  induction lines as [| l lines IH]; [simpl; lia |].
  pose proof (status_groups_disjoint l) as Hd.
  cbn [filter].
  destruct (is_modified l), (is_added l), (is_deleted l);
    cbn [List.length] in *; lia.
Qed.

(** X14: the status line of the git block.  A successful
    [git status --porcelain] whose output is blank gives the line
    ["Status: Clean working tree"].  Otherwise the modified,
    untracked-or-added and deleted paths are counted, each path in at most
    one group, so the counts never add up to more than the number of
    lines; when every count is zero (only renames, say) no status line is
    given at all. *)
Theorem git_status_line (out : string) :
  let lines := split_lines (strip out) in
  let modified := count_where is_modified lines in
  let added := count_where is_added lines in
  let deleted := count_where is_deleted lines in
  (strip out = EmptyString -> status_info out = ["Status: Clean working tree"])
  /\ (strip out <> EmptyString ->
      modified + added + deleted = 0 -> status_info out = [])
  /\ (strip out <> EmptyString ->
      0 < modified + added + deleted ->
      status_info out = ["Status: " ++ join ", " (status_parts lines)])
  /\ 0 <= modified + added + deleted <= llen lines.
Proof.
  cbv zeta.
  assert (Hnn : forall t, 0 <= count_where t (split_lines (strip out)))
    by (intros t; apply llen_nonneg).
  pose proof (Hnn is_modified) as Hm.
  pose proof (Hnn is_added) as Ha.
  pose proof (Hnn is_deleted) as Hd.
  assert (Hlines : split_lines (strip out) <> []) by apply split_on_nonempty.
  split; [| split; [| split]].
  - intros E. unfold status_info. now rewrite E.
  - intros Hne Hzero. unfold status_info.
    apply String.eqb_neq in Hne. rewrite Hne.
    destruct (split_lines (strip out)) as [| l ls] eqn:El; [contradiction |].
    unfold status_parts.
    replace (count_where is_modified (l :: ls)) with 0 by lia.
    replace (count_where is_added (l :: ls)) with 0 by lia.
    replace (count_where is_deleted (l :: ls)) with 0 by lia.
    reflexivity.
  - intros Hne Hpos. unfold status_info.
    apply String.eqb_neq in Hne. rewrite Hne.
    destruct (split_lines (strip out)) as [| l ls] eqn:El; [contradiction |].
    destruct (status_parts (l :: ls)) as [| p ps] eqn:Ep; [| reflexivity].
    exfalso. unfold status_parts in Ep.
    destruct (count_where is_modified (l :: ls) =? 0) eqn:E1; [| discriminate].
    destruct (count_where is_added (l :: ls) =? 0) eqn:E2; [| discriminate].
    destruct (count_where is_deleted (l :: ls) =? 0) eqn:E3; [| discriminate].
    apply Z.eqb_eq in E1, E2, E3. lia.
  - split; [lia | apply status_counts_bounded].
Qed.

Lemma git_status_line_witness :
  status_info ("R  old.py -> new.py" ++ NL) = [].
Proof.
  refine (proj1 (proj2 (git_status_line ("R  old.py -> new.py" ++ NL))) _ _).
  - vm_compute. discriminate.
  - vm_compute. reflexivity.
Defined.

(* ====================================================================== *)
(** ** More on the tree builder                                            *)
(* ====================================================================== *)

Lemma startswith_append (p x : string) : startswith (p ++ x) p = true.
Proof.
  unfold startswith. induction p as [| a p IH]; [apply prefix_empty |].
  cbn [append prefix]. destruct (ascii_dec a a); [exact IH | congruence].
Qed.

Lemma startswith_weaken (l p q : string) :
  startswith l (p ++ q) = true -> startswith l p = true.
Proof.
  unfold startswith. revert l. induction p as [| a p IH]; intros l H.
  - apply prefix_empty.
  - destruct l as [| b l]; cbn [append prefix] in *; [discriminate |].
    destruct (ascii_dec a b); [now apply IH | discriminate].
Qed.

Section DisplaySteps.

Variable new_prefix : string.
Variable total_entries : Z.

(** What the three display steps keep true of the state: every line
    starts with the prefix, and the counter is the number of lines. *)
Let good (st : show_state) : Prop :=
  counts_its_lines st
  /\ Forall (fun l => startswith l new_prefix = true) (shown st).

Lemma show_file_good (st : show_state) (f : string * option Z) :
  good st -> good (show_file new_prefix total_entries st f).
Proof.
  intros [Hc Hp]. unfold good, counts_its_lines, show_file in *.
  cbn [entry_idx shown]. split.
  - rewrite llen_app_list, Hc. reflexivity.
  - apply Forall_app. split; [exact Hp |].
    constructor; [apply startswith_append | constructor].
Qed.

Lemma show_files_good (files : list (string * option Z)) (st : show_state) :
  good st ->
  good (fold_left (show_file new_prefix total_entries) files st)
  /\ llen (shown (fold_left (show_file new_prefix total_entries) files st))
     = llen (shown st) + llen files.
Proof.
  revert st. induction files as [| f files IH]; intros st Hg.
  - cbn [fold_left]. split; [exact Hg | unfold llen; simpl; lia].
  - cbn [fold_left].
    destruct (IH _ (show_file_good st f Hg)) as [Hg' Hlen].
    split; [exact Hg' |]. rewrite Hlen.
    unfold show_file. cbn [shown]. rewrite llen_app_list.
    unfold llen. cbn [List.length]. lia.
Qed.

Lemma show_overflow_good (files_to_show : list (string * option Z))
    (st : show_state) :
  good st ->
  good (show_overflow new_prefix total_entries files_to_show st)
  /\ llen (shown (show_overflow new_prefix total_entries files_to_show st))
     = llen (shown st) + (if MAX_FILES_PER_DIR <? llen files_to_show then 1 else 0).
Proof.
  intros [Hc Hp]. unfold good, counts_its_lines, show_overflow in *.
  destruct (MAX_FILES_PER_DIR <? llen files_to_show); cbn [entry_idx shown].
  - rewrite llen_app_list, Hc. repeat split.
    apply Forall_app. split; [exact Hp |].
    constructor; [apply startswith_append | constructor].
  - repeat split; auto. lia.
Qed.

Lemma show_skipped_good (skipped_by_ext : list (string * Z)) (st : show_state) :
  good st ->
  good (show_skipped new_prefix total_entries skipped_by_ext st)
  /\ llen (shown (show_skipped new_prefix total_entries skipped_by_ext st))
     = llen (shown st) + (if is_empty skipped_by_ext then 0 else 1).
Proof.
  intros [Hc Hp]. unfold good, counts_its_lines, show_skipped in *.
  destruct skipped_by_ext; cbn [entry_idx shown is_empty].
  - repeat split; auto. lia.
  - rewrite llen_app_list, Hc. repeat split.
    apply Forall_app. split; [exact Hp |].
    constructor; [apply startswith_append | constructor].
Qed.

End DisplaySteps.

Lemma flat_map_enumerate_const {A C : Type} (f : A -> list C) (l : list A) :
  forall s,
    flat_map (fun id => f (snd id)) (combine (seq s (List.length l)) l)
    = flat_map f l.
Proof.
  induction l as [| x l IH]; intros s; simpl; [reflexivity |].
  now rewrite IH.
Qed.

(** The branch of a listed directory: its own lines, all under the
    prefix, then its subdirectories, each rendered as a sibling that is
    not the last. *)
Lemma list_branch_structure (new_prefix : string)
    (dirs : list (string * (string -> bool -> list string)))
    (files : list (string * option Z)) :
  list_branch new_prefix dirs files
  = own_lines new_prefix (llen dirs) files
    +:+ flat_map (fun d => snd d new_prefix false) dirs
  /\ Forall (fun l => startswith l new_prefix = true)
            (own_lines new_prefix (llen dirs) files)
  /\ llen (own_lines new_prefix (llen dirs) files)
     = Z.min 30 (llen (filter (fun f => negb (skip_by_ext f)) files))
       + (if 30 <? llen (filter (fun f => negb (skip_by_ext f)) files) then 1 else 0)
       + (if is_empty (filter skip_by_ext files) then 0 else 1).
Proof.
  unfold list_branch, own_lines.
  set (files_to_show := filter (fun f => negb (skip_by_ext f)) files).
  set (skipped_by_ext := fold_left _ files []).
  set (total := llen dirs + llen files_to_show
                + match skipped_by_ext with [] => 0 | _ => 1 end).
  set (st1 := fold_left (show_file new_prefix total)
                        (firstn (Z.to_nat MAX_FILES_PER_DIR) files_to_show)
                        (mk_show 0 [])).
  set (st2 := show_overflow new_prefix total files_to_show st1).
  set (st3 := show_skipped new_prefix total skipped_by_ext st2).
  assert (Hgood0 : counts_its_lines (mk_show 0 [])
                   /\ Forall (fun l => startswith l new_prefix = true)
                             (shown (mk_show 0 [])))
    by (split; [reflexivity | constructor]).
  destruct (show_files_good new_prefix total
              (firstn (Z.to_nat MAX_FILES_PER_DIR) files_to_show) _ Hgood0)
    as [Hg1 Hl1].
  fold st1 in Hg1, Hl1.
  destruct (show_overflow_good new_prefix total files_to_show st1 Hg1)
    as [Hg2 Hl2].
  fold st2 in Hg2, Hl2.
  destruct (show_skipped_good new_prefix total skipped_by_ext st2 Hg2)
    as [[Hc3 Hp3] Hl3].
  fold st3 in Hc3, Hp3, Hl3.
  assert (Hskip : is_empty skipped_by_ext = is_empty (filter skip_by_ext files)).
  { assert (Hh : skipped_by_ext
                 = hist_of (map (fun f => file_ext (fst f))
                                (filter skip_by_ext files))).
    { unfold skipped_by_ext.
      rewrite (fold_left_filter_arg
                 (fun d f => dict_incr (lower (splitext_ext (fst f))) d)).
      apply (fold_left_map_arg (fun d k => dict_incr k d)
                               (fun f => file_ext (fst f))). }
    rewrite Hh.
    destruct (filter skip_by_ext files) as [| x l] eqn:E; [reflexivity |].
    destruct (hist_of (map (fun f => file_ext (fst f)) (x :: l))) eqn:Eh;
      [| reflexivity].
    apply hist_of_nil_iff in Eh. discriminate. }
  assert (Hcount : llen (shown st3)
                   = Z.min 30 (llen files_to_show)
                     + (if 30 <? llen files_to_show then 1 else 0)
                     + (if is_empty (filter skip_by_ext files) then 0 else 1)).
  { rewrite Hl3, Hl2, Hl1, Hskip. cbn [shown].
    unfold llen at 1. cbn [List.length].
    unfold llen. rewrite length_firstn.
    change (Z.to_nat MAX_FILES_PER_DIR) with 30%nat.
    unfold MAX_FILES_PER_DIR. lia. }
  split; [| split; [exact Hp3 | exact Hcount]].
  f_equal.
  destruct dirs as [| d dirs]; [reflexivity |].
  assert (Hnot : (entry_idx st3 =? total) = false).
  { apply Z.eqb_neq. rewrite Hc3, Hcount. unfold total.
    rewrite <- Hskip.
    pose proof (llen_nonneg files_to_show).
    assert (0 < llen (d :: dirs)) by (unfold llen; cbn [List.length]; lia).
    destruct (30 <? llen files_to_show) eqn:E30;
      [apply Z.ltb_lt in E30 | apply Z.ltb_ge in E30];
      destruct skipped_by_ext; cbn [is_empty]; lia. }
  rewrite Hnot.
  etransitivity; [| apply (flat_map_enumerate_const
                             (fun d => snd d new_prefix false) (d :: dirs) 0)].
  unfold enumerate. apply flat_map_ext. intros [i x].
  now rewrite andb_false_r.
Qed.

Section MoreTreeFacts.

Variables exclude_dirs summarize_dirs gitignore_patterns : list string.
Variable script_name : string.

Local Abbreviation walk :=
  (_walk_dir exclude_dirs summarize_dirs gitignore_patterns script_name).
Local Abbreviation files_of := (dir_files gitignore_patterns script_name).
Local Abbreviation subdirs_of := (dir_subdirs exclude_dirs gitignore_patterns).

(** X15: in a listed directory that can be read, every kept
    subdirectory is rendered as a sibling that is not the last, also the
    last one: below the directory's own lines (at most 30 file lines, the
    overflow line, the skipped line) come the subtrees in name order,
    each starting with its own line under the connector [├──]; no
    subdirectory gets the closing connector. *)
Theorem subdirectories_use_the_middle_connector
    (raw : list (string * fs_node)) (is_root : bool) (name prefix : string)
    (is_last : bool) :
  str_in name summarize_dirs = false ->
  let new_prefix := dir_new_prefix is_root prefix is_last in
  let own := own_lines new_prefix (llen (subdirs_of raw)) (files_of raw) in
  walk (FsDir (Some raw)) is_root name prefix is_last
  = dir_header is_root name prefix is_last
    :: own
       +:+ flat_map (fun d => walk (snd d) false (fst d) new_prefix false)
                    (subdirs_of raw)
  /\ llen own <= 32
  /\ forall d,
       In d (subdirs_of raw) ->
       exists below,
         walk (snd d) false (fst d) new_prefix false
         = (new_prefix ++ "├── " ++ fst d ++ "/") :: below.
Proof.
  intros Hsum. cbv zeta.
  set (new_prefix := dir_new_prefix is_root prefix is_last).
  destruct (list_branch_structure new_prefix
              (map (fun e => (fst e, walk (snd e) false (fst e))) (subdirs_of raw))
              (files_of raw)) as (Hbranch & _ & Hcount).
  assert (Hlen : llen (map (fun e => (fst e, walk (snd e) false (fst e)))
                           (subdirs_of raw)) = llen (subdirs_of raw))
    by (unfold llen; now rewrite length_map).
  rewrite Hlen in Hbranch, Hcount.
  split; [| split].
  - rewrite walk_dir_readable, Hsum. fold new_prefix. rewrite Hbranch.
    do 2 f_equal. rewrite !flat_map_concat_map, map_map.
    reflexivity.
  - rewrite Hcount.
    destruct (30 <? _); destruct (is_empty _); lia.
  - intros d Hd.
    assert (Hdir : exists listing, snd d = FsDir listing).
    { unfold dir_subdirs in Hd. apply filter_In in Hd as [_ Hd].
      destruct (snd d) as [| listing]; [discriminate | now exists listing]. }
    destruct Hdir as [listing Hdir]. rewrite Hdir.
    destruct listing as [l |].
    + rewrite walk_dir_readable. eexists. reflexivity.
    + rewrite walk_dir_denied. eexists. reflexivity.
Qed.

(** Every line of a subtree starts with the prefix it was given. *)
Lemma walk_lines_under_prefix (node : fs_node) :
  forall name prefix is_last,
    Forall (fun l => startswith l prefix = true)
           (walk node false name prefix is_last).
Proof.
  induction node as [size | | l IH] using fs_node_nested_ind;
    intros name prefix is_last.
  - constructor.
  - rewrite walk_dir_denied. unfold dir_header, dir_new_prefix.
    repeat constructor.
    + apply startswith_append.
    + rewrite append_assoc_str. apply startswith_append.
  - rewrite walk_dir_readable. constructor.
    + unfold dir_header. apply startswith_append.
    + assert (Hweak : forall lines,
                 Forall (fun x => startswith x (dir_new_prefix false prefix is_last)
                                  = true) lines ->
                 Forall (fun x => startswith x prefix = true) lines).
      { intros lines H. eapply Forall_impl; [| exact H].
        intros x. unfold dir_new_prefix. apply startswith_weaken. }
      apply Hweak.
      destruct (str_in name summarize_dirs).
      * rewrite summarize_branch_spec.
        destruct (files_of l); repeat constructor. apply startswith_append.
      * destruct (list_branch_structure (dir_new_prefix false prefix is_last)
                    (map (fun e => (fst e, walk (snd e) false (fst e)))
                         (subdirs_of l))
                    (files_of l)) as (-> & Hown & _).
        apply Forall_app. split; [exact Hown |].
        apply Forall_flat_map. rewrite Forall_map.
        assert (Hsub : Forall (fun e => forall name prefix is_last,
                                   Forall (fun x => startswith x prefix = true)
                                          (walk (snd e) false name prefix is_last))
                              (subdirs_of l)).
        { unfold dir_subdirs. apply Forall_forall. intros e He.
          apply filter_In in He as [He _].
          assert (HF : Forall (fun e => forall name prefix is_last,
                                 Forall (fun x => startswith x prefix = true)
                                        (walk (snd e) false name prefix is_last))
                              (sorted_by name_le l)).
          { apply (Permutation_Forall
                     (Permutation_sym (sorted_by_perm name_le l))).
            exact IH. }
          exact (proj1 (Forall_forall _ _) HF e He). }
        eapply Forall_impl; [| exact Hsub].
        intros e He. cbn [snd]. apply He.
Qed.

(** X16: the indentation of a subtree.  For every directory, the lines
    rendered below its own line (its files, its summary lines and all
    the lines of its subtrees, at any depth) start with its prefix
    extended by four columns: blanks when the directory was rendered as
    a last sibling, the vertical bar and blanks otherwise; and its own
    line starts with its prefix. *)
Theorem subtree_lines_are_indented (listing : option (list (string * fs_node)))
    (name prefix : string) (is_last : bool) :
  exists below,
    walk (FsDir listing) false name prefix is_last
    = (prefix ++ (if is_last then "└── " else "├── ") ++ name ++ "/") :: below
    /\ Forall (fun l => startswith l (prefix ++ (if is_last then "    " else "│   "))
                        = true) below.
Proof.
  destruct listing as [l |].
  - rewrite walk_dir_readable. eexists. split; [reflexivity |].
    destruct (str_in name summarize_dirs).
    + rewrite summarize_branch_spec.
      destruct (files_of l); repeat constructor. apply startswith_append.
    + destruct (list_branch_structure (dir_new_prefix false prefix is_last)
                  (map (fun e => (fst e, walk (snd e) false (fst e)))
                       (subdirs_of l))
                  (files_of l)) as (-> & Hown & _).
      apply Forall_app. split; [exact Hown |].
      apply Forall_flat_map. rewrite Forall_map.
      apply Forall_forall. intros e _. cbn [snd].
      apply walk_lines_under_prefix.
  - rewrite walk_dir_denied. eexists. split; [reflexivity |].
    repeat constructor. apply startswith_append.
Qed.

End MoreTreeFacts.

Lemma subdirectories_use_the_middle_connector_witness :
  exists own,
    _walk_dir DIRS_TO_EXCLUDE DIRS_TO_SUMMARIZE [] "generate_context.py"
      (FsDir (Some [("src", FsDir (Some [("main.py", FsFile (Some 40))]));
                    ("docs", FsDir (Some []))]))
      true "proj" EmptyString true
    = "proj/" :: own
      +:+ ["├── docs/"; "├── src/"; "│   └── main.py (40B)"].
Proof.
  destruct (subdirectories_use_the_middle_connector
              DIRS_TO_EXCLUDE DIRS_TO_SUMMARIZE [] "generate_context.py"
              [("src", FsDir (Some [("main.py", FsFile (Some 40))]));
               ("docs", FsDir (Some []))]
              true "proj" EmptyString true eq_refl)
    as (H & _).
  eexists. exact H.
Defined.

(* ====================================================================== *)
(** ** The collection of the files                                         *)
(* ====================================================================== *)

(** *** Paths *)

Lemma entry_name_no_slash (n : string) :
  is_entry_name n = true ->
  n <> EmptyString /\ startswith n "/" = false /\ endswith n "/" = false
  /\ split_on "/" n = [n].
Proof.
  unfold is_entry_name. intros H. apply andb_true_iff in H as [Hne Hno].
  apply negb_true_iff in Hne, Hno. apply String.eqb_neq in Hne.
  split; [exact Hne |]. clear Hne.
  split; [| split].
  - destruct n as [| a n]; [reflexivity |].
    cbn [has_char] in Hno. apply orb_false_iff in Hno as [Ha _].
    unfold startswith. cbn [prefix].
    destruct (ascii_dec "/" a) as [E |]; [| reflexivity].
    subst a. discriminate.
  - induction n as [| a n IH]; [reflexivity |].
    cbn [has_char] in Hno. apply orb_false_iff in Hno as [Ha Hn].
    cbn [endswith]. rewrite (IH Hn), orb_false_r.
    apply String.eqb_neq. intros E. inversion E; subst. discriminate.
  - induction n as [| a n IH]; [reflexivity |].
    cbn [has_char] in Hno. apply orb_false_iff in Hno as [Ha Hn].
    cbn [split_on]. rewrite Ha, (IH Hn). reflexivity.
Qed.

Lemma path_join_sep (a b : string) :
  startswith b "/" = false -> path_join a b = a ++ sep_after a ++ b.
Proof.
  intros H. unfold path_join, sep_after. rewrite H.
  destruct (String.eqb a EmptyString || endswith a "/")%bool; reflexivity.
Qed.

Lemma split_on_append (c : ascii) (a b : string) :
  split_on c (a ++ String c b) = split_on c a +:+ split_on c b.
Proof.
  induction a as [| x a IH]; cbn [append split_on].
  - now rewrite Ascii.eqb_refl.
  - rewrite IH. destruct (Ascii.eqb x c); [reflexivity |].
    pose proof (split_on_nonempty c a) as Hne.
    destruct (split_on c a); [congruence | reflexivity].
Qed.

Lemma last_app_nonempty {A : Type} (l1 l2 : list A) (d : A) :
  l2 <> [] -> last (l1 +:+ l2) d = last l2 d.
Proof.
  intros Hne. induction l1 as [| x l1 IH]; [reflexivity |].
  cbn [app]. destruct (l1 +:+ l2) eqn:E.
  - apply app_eq_nil in E as [_ E]. congruence.
  - rewrite <- IH. reflexivity.
Qed.

Lemma basename_after_slash (a n : string) :
  is_entry_name n = true -> basename (a ++ "/" ++ n) = n.
Proof.
  intros Hn. destruct (entry_name_no_slash n Hn) as (_ & _ & _ & Hsplit).
  unfold basename. cbn [append]. rewrite split_on_append.
  rewrite last_app_nonempty by apply split_on_nonempty.
  now rewrite Hsplit.
Qed.

(** The base name of a path joined with an entry name is the entry
    name. *)
Lemma basename_path_join (a n : string) :
  is_entry_name n = true -> basename (path_join a n) = n.
Proof.
  intros Hn. destruct (entry_name_no_slash n Hn) as (_ & Hstart & _ & Hsplit).
  rewrite (path_join_sep a n Hstart). unfold sep_after.
  destruct (String.eqb a EmptyString) eqn:Ea; cbn [orb].
  - apply String.eqb_eq in Ea. subst a. cbn [append].
    unfold basename. now rewrite Hsplit.
  - destruct (endswith a "/") eqn:Ee.
    + apply endswith_suffix in Ee as [p ->]. cbn [append].
      rewrite append_assoc_str. now apply basename_after_slash.
    + now apply basename_after_slash.
Qed.

Lemma endswith_append_nonempty (a n suf : string) :
  n <> EmptyString -> String.length suf = 1%nat ->
  endswith (a ++ n) suf = endswith n suf.
Proof.
  intros Hne Hsuf. induction a as [| x a IH]; [reflexivity |].
  cbn [append endswith]. rewrite IH.
  assert (Hno : String.eqb (String x (a ++ n)) suf = false).
  { apply String.eqb_neq. intros E. subst suf. cbn [String.length] in Hsuf.
    destruct a; cbn [append] in Hsuf; destruct n; cbn in Hsuf;
      congruence. }
  now rewrite Hno.
Qed.

Lemma startswith_append_nonempty (r x p : string) :
  r <> EmptyString -> String.length p = 1%nat ->
  startswith (r ++ x) p = startswith r p.
Proof.
  intros Hne Hp. unfold startswith.
  destruct p as [| c [| c' p]]; try discriminate.
  destruct r as [| a r]; [congruence |].
  cbn [append prefix]. destruct (ascii_dec c a); [| reflexivity].
  now rewrite !prefix_empty.
Qed.

Lemma append_nonempty_l (a b : string) : a <> EmptyString -> a ++ b <> EmptyString.
Proof. destruct a; [congruence | discriminate]. Qed.

Lemma append_nonempty_r (a b : string) : b <> EmptyString -> a ++ b <> EmptyString.
Proof. destruct a; [now cbn | discriminate]. Qed.

Lemma file_priority_range (filename : string) :
  0 <= file_priority filename <= 4.
Proof.
  unfold file_priority.
  destruct (str_in filename PRIORITY_FILES); [lia |].
  destruct (startswith (lower filename) "readme"); [lia |].
  destruct (str_in (lower (splitext_ext filename)) [".py"; ".js"; ".ts"; ".go"; ".rs"]);
    [lia |].
  destruct (str_in (lower (splitext_ext filename)) [".json"; ".yaml"; ".yml"; ".toml"]);
    lia.
Qed.

(** *** Where the walk is *)

Section WalkPosition.

Variable rootdir : string.

(** The directory path and the relative path that the walk carries: the
    root with the empty relative path, or a relative path made of entry
    names, with the directory path made of the root and of it. *)
Let position (dirpath rel : string) : Prop :=
  (dirpath = rootdir /\ rel = EmptyString)
  \/ (rel <> EmptyString
      /\ startswith rel "/" = false
      /\ endswith rel "/" = false
      /\ dirpath = rootdir ++ sep_after rootdir ++ rel).

Lemma below_root_sep (rel : string) :
  rel <> EmptyString -> endswith rel "/" = false ->
  sep_after rel = "/"
  /\ sep_after (rootdir ++ sep_after rootdir ++ rel) = "/".
Proof.
  intros Hne He. unfold sep_after at 1 2.
  assert (E1 : String.eqb rel EmptyString = false) by now apply String.eqb_neq.
  rewrite E1, He. cbn [orb]. split; [reflexivity |].
  rewrite <- append_assoc_str.
  rewrite (endswith_append_nonempty _ rel "/" Hne eq_refl), He.
  assert (E2 : String.eqb ((rootdir ++ sep_after rootdir) ++ rel) EmptyString = false).
  { apply String.eqb_neq. now apply append_nonempty_r. }
  now rewrite E2.
Qed.

Lemma position_step (dirpath rel n : string) :
  position dirpath rel -> is_entry_name n = true ->
  position (path_join dirpath n) (path_join rel n).
Proof.
  intros Hpos Hn.
  destruct (entry_name_no_slash n Hn) as (Hne & Hstart & Hend & _).
  rewrite !(path_join_sep _ n Hstart).
  destruct Hpos as [[-> ->] | (Hr & Hrs & Hre & ->)]; right.
  - change (sep_after EmptyString) with EmptyString. cbn [append].
    repeat split; assumption.
  - destruct (below_root_sep rel Hr Hre) as [-> ->].
    repeat split.
    + now apply append_nonempty_l.
    + now rewrite (startswith_append_nonempty rel _ "/" Hr eq_refl).
    + rewrite <- append_assoc_str.
      now rewrite (endswith_append_nonempty _ n "/" Hne eq_refl).
    + now rewrite !append_assoc_str.
Qed.

Lemma position_full_path (dirpath rel n : string) :
  position dirpath rel -> is_entry_name n = true ->
  path_join dirpath n = path_join rootdir (path_join rel n).
Proof.
  intros Hpos Hn.
  destruct (entry_name_no_slash n Hn) as (Hne & Hstart & Hend & _).
  rewrite !(path_join_sep _ n Hstart).
  destruct Hpos as [[-> ->] | (Hr & Hrs & Hre & ->)].
  - change (sep_after EmptyString) with EmptyString. cbn [append].
    now rewrite (path_join_sep _ n Hstart).
  - destruct (below_root_sep rel Hr Hre) as [-> ->].
    rewrite path_join_sep.
    + now rewrite !append_assoc_str.
    + now rewrite (startswith_append_nonempty rel _ "/" Hr eq_refl).
Qed.

Variables exclude_dirs summarize_dirs gitignore_patterns : list string.
Variable script_name : string.

Local Abbreviation cw :=
  (collect_walk exclude_dirs summarize_dirs gitignore_patterns script_name).

(** The body of the loop on a directory that can be scanned, in terms of
    the snapshot. *)
Lemma collect_walk_readable (raw : list (string * fs_node))
    (name dirpath rel : string) :
  cw (FsDir (Some raw)) name dirpath rel
  = if str_in name summarize_dirs then []
    else
      flat_map (fun e =>
                  match snd e with
                  | FsFile _ =>
                      if collects gitignore_patterns script_name (fst e)
                      then [(file_priority (fst e),
                             path_join rel (fst e),
                             path_join dirpath (fst e))]
                      else []
                  | FsDir _ => []
                  end) raw
      +:+ flat_map (fun e => cw (snd e) (fst e)
                                (path_join dirpath (fst e))
                                (path_join rel (fst e)))
                   (filter (fun e =>
                              match snd e with
                              | FsDir _ => keeps_dir exclude_dirs gitignore_patterns (fst e)
                              | FsFile _ => false
                              end) raw).
Proof.
  cbn [collect_walk option_map]. unfold collect_dir.
  destruct (str_in name summarize_dirs); [reflexivity |].
  f_equal.
  - unfold collect_here, collects, keeps_file, file_ext, str_in.
    induction raw as [| [n x] raw IH]; cbn [map flat_map fst snd];
      [reflexivity |].
    rewrite IH. f_equal. destruct x; [| reflexivity].
    cbn [existsb]. rewrite orb_false_r.
    destruct (String.eqb n OUTPUT_FILE || String.eqb n script_name)%bool;
      [reflexivity |].
    cbn [negb andb].
    destruct (existsb (String.eqb n) gitignore_patterns); [reflexivity |].
    cbn [negb andb].
    destruct (existsb (String.eqb (lower (splitext_ext n))) EXTENSIONS_TO_SKIP);
      reflexivity.
  - unfold walked_dirs, keeps_dir.
    induction raw as [| [n x] raw IH]; cbn [map flat_map filter fst snd];
      [reflexivity |].
    destruct x; cbn [app]; [exact IH |].
    destruct (negb (should_exclude_dir n exclude_dirs)
              && negb (str_in n gitignore_patterns))%bool;
      cbn [flat_map app fst snd]; now rewrite IH.
Qed.

(** What is known of a record: the file name that made it, and the
    position of the walk then. *)
Let made (rec : file_record) : Prop :=
  exists dirpath rel filename,
    position dirpath rel
    /\ is_entry_name filename = true
    /\ collects gitignore_patterns script_name filename = true
    /\ rec = (file_priority filename,
              path_join rel filename,
              path_join dirpath filename).

Lemma collect_walk_made (node : fs_node) :
  forall name dirpath rel,
    entry_names node -> position dirpath rel ->
    Forall made (cw node name dirpath rel).
Proof.
  induction node as [size | | l IH] using fs_node_nested_ind;
    intros name dirpath rel Hnames Hpos.
  - constructor.
  - constructor.
  - rewrite collect_walk_readable.
    destruct (str_in name summarize_dirs); [constructor |].
    inversion Hnames as [| | l0 Hall]; subst.
    apply Forall_app. split.
    + apply Forall_flat_map. apply Forall_forall. intros e He.
      destruct (proj1 (Forall_forall _ _) Hall e He) as [Hn _].
      destruct (snd e); [| constructor].
      destruct (collects gitignore_patterns script_name (fst e)) eqn:Ec;
        [| constructor].
      constructor; [| constructor].
      exists dirpath, rel, (fst e). repeat split; assumption.
    + apply Forall_flat_map. apply Forall_forall. intros e He.
      apply filter_In in He as [He _].
      destruct (proj1 (Forall_forall _ _) Hall e He) as [Hn Hsub].
      apply (proj1 (Forall_forall _ _) IH e He); [exact Hsub |].
      now apply position_step.
Qed.

Lemma collect_files_made (root : fs_node) :
  entry_names root ->
  Forall made (collect_files exclude_dirs summarize_dirs gitignore_patterns
                             script_name rootdir root).
Proof.
  intros Hnames. unfold collect_files.
  apply (Permutation_Forall (Permutation_sym (sorted_by_perm record_le _))).
  apply collect_walk_made; [exact Hnames |].
  left. split; reflexivity.
Qed.

(** X17: what is collected passed the filters.  In a snapshot whose
    entries have proper names, the file named by a collected record is
    never the output file, the script itself or a name of the ignore
    patterns, its extension is never one of the skipped extensions, and
    the record carries the priority of that name, between 0 and 4; the
    relative path names the same file. *)
Theorem collected_files_pass_the_filters (root : fs_node) (rec : file_record) :
  entry_names root ->
  In rec (collect_files exclude_dirs summarize_dirs gitignore_patterns
                        script_name rootdir root) ->
  let filename := basename (snd rec) in
  filename <> OUTPUT_FILE
  /\ filename <> script_name
  /\ str_in filename gitignore_patterns = false
  /\ str_in (file_ext filename) EXTENSIONS_TO_SKIP = false
  /\ basename (record_rel rec) = filename
  /\ fst (fst rec) = file_priority filename
  /\ 0 <= fst (fst rec) <= 4.
Proof.
  intros Hnames Hin. cbv zeta.
  destruct (proj1 (Forall_forall _ _) (collect_files_made root Hnames) rec Hin)
    as (dirpath & rel & filename & _ & Hn & Hc & ->).
  unfold record_rel. cbn [fst snd].
  rewrite !(basename_path_join _ filename Hn).
  unfold collects, keeps_file, str_in in Hc. cbn [existsb] in Hc.
  apply andb_true_iff in Hc as [Hk Hext].
  apply andb_true_iff in Hk as [Hself Hgit].
  apply negb_true_iff in Hself, Hgit, Hext.
  rewrite orb_false_r in Hself. apply orb_false_iff in Hself as [Ho Hs].
  apply String.eqb_neq in Ho, Hs.
  pose proof (file_priority_range filename) as [Hlo Hhi].
  repeat split; assumption.
Qed.

(** X18: the full path of a collected record is the root joined with
    its relative path, so the path shown in the header of a block is the
    path of the file that is read, taken from the root. *)
Theorem full_path_is_root_joined_with_relative_path
    (root : fs_node) (rec : file_record) :
  entry_names root ->
  In rec (collect_files exclude_dirs summarize_dirs gitignore_patterns
                        script_name rootdir root) ->
  snd rec = path_join rootdir (record_rel rec).
Proof.
  intros Hnames Hin.
  destruct (proj1 (Forall_forall _ _) (collect_files_made root Hnames) rec Hin)
    as (dirpath & rel & filename & Hpos & Hn & _ & ->).
  unfold record_rel. cbn [fst snd].
  now apply position_full_path.
Qed.

End WalkPosition.

Lemma collected_files_pass_the_filters_witness :
  let rec := (0, "src/main.py", "/proj/src/main.py") in
  basename (record_rel rec) = basename (snd rec)
  /\ fst (fst rec) = file_priority (basename (snd rec)).
Proof.
  destruct (collected_files_pass_the_filters
              "/proj" DIRS_TO_EXCLUDE DIRS_TO_SUMMARIZE [] "generate_context.py"
              (FsDir (Some [("src", FsDir (Some [("main.py", FsFile (Some 40));
                                                 ("logo.png", FsFile (Some 900))]));
                            ("notes.txt", FsFile (Some 5))]))
              (0, "src/main.py", "/proj/src/main.py"))
    as (_ & _ & _ & _ & Hrel & Hprio & _).
  - repeat constructor.
  - vm_compute. left. reflexivity.
  - split; [exact Hrel | exact Hprio].
Defined.

Lemma full_path_is_root_joined_with_relative_path_witness :
  "/proj/src/main.py" = path_join "/proj" "src/main.py".
Proof.
  apply (full_path_is_root_joined_with_relative_path
           "/proj" DIRS_TO_EXCLUDE DIRS_TO_SUMMARIZE [] "generate_context.py"
           (FsDir (Some [("src", FsDir (Some [("main.py", FsFile (Some 40));
                                              ("logo.png", FsFile (Some 900))]));
                         ("notes.txt", FsFile (Some 5))]))
           (0, "src/main.py", "/proj/src/main.py")).
  - repeat constructor.
  - vm_compute. left. reflexivity.
Defined.

(** *** The order of the records *)

Lemma record_le_total (a b : file_record) :
  record_le a b = true \/ record_le b a = true.
Proof.
  destruct a as [[pa ra] fa], b as [[pb rb] fb]. unfold record_le.
  destruct (Z.lt_trichotomy pa pb) as [H | [H | H]].
  - left. apply Z.ltb_lt in H. now rewrite H.
  - subst pb. rewrite Z.eqb_refl. cbn [andb].
    destruct (String.leb_total ra rb) as [E | E]; rewrite E;
      [left | right]; apply orb_true_r.
  - right. apply Z.ltb_lt in H. now rewrite H.
Qed.

Lemma record_le_key (a b : file_record) :
  record_le a b = true <-> key_le a b.
Proof.
  destruct a as [[pa ra] fa], b as [[pb rb] fb].
  unfold record_le, key_le, record_rel. cbn [fst snd].
  rewrite orb_true_iff, andb_true_iff, Z.ltb_lt, Z.eqb_eq. reflexivity.
Qed.

Lemma record_le_trans (a b c : file_record) :
  record_le a b = true -> record_le b c = true -> record_le a c = true.
Proof.
  rewrite !record_le_key. unfold key_le.
  intros [Hab | [Hab Lab]] [Hbc | [Hbc Lbc]].
  - left. lia.
  - left. lia.
  - left. lia.
  - right. split; [lia |]. exact (string_leb_trans _ _ _ Lab Lbc).
Qed.

(** X19: the order of the collected files.  The result holds the records
    of the walk, each as often as the walk made it, arranged by priority
    and, within one priority, by relative path: a record never comes
    before one of a smaller priority, nor before one of the same priority
    with a smaller path. *)
Theorem collected_files_are_ordered
    (exclude_dirs summarize_dirs gitignore_patterns : list string)
    (script_name rootdir : string) (root : fs_node) :
  let files := collect_files exclude_dirs summarize_dirs gitignore_patterns
                             script_name rootdir root in
  StronglySorted key_le files
  /\ Permutation files
       (collect_walk exclude_dirs summarize_dirs gitignore_patterns script_name
                     root (basename rootdir) rootdir EmptyString).
Proof.
  cbv zeta. unfold collect_files. split.
  - apply StronglySorted_impl with (R := fun a b => record_le a b = true).
    + intros a b. apply record_le_key.
    + apply sorted_by_sorted; [apply record_le_total | apply record_le_trans].
  - apply sorted_by_perm.
Qed.
